(** * skience2025: the HVSR batch driver, the DAS channel mapping and the
      structural geometry helpers, embedded and verified

    The three Python files of the repository are embedded shallowly:

    - [Geometry]  : [05 StructuralHealth/Structural Characterization/functions_MA.py]
    - [DAS]       : [04 DAS/custom_util.py]
    - [HVSR]      : [02 Noise and HVSR/Auto_process_HV.py]

    Python numbers are taken through the interface [Number], which has two
    instances: exact rational arithmetic ([Q]) and IEEE binary64 ([float],
    the arithmetic CPython and numpy really use).  Whatever does not depend
    on rounding is stated for every instance; what does is stated for the
    instance it holds in. *)

From Stdlib Require Import ZArith QArith Qround Qabs List String Ascii Lia Lqa Floats Uint63.
From Stdlib Require Import DecimalString.
From Stdlib Require DecimalZ DecimalPos.
From stdpp Require Import gmap strings list sorting.

#[local] Set Warnings "-inexact-float".

(** ** Python results: a value, or a raised exception *)

Inductive exn : Type :=
| IndexError
| KeyError (k : string)
| ValueError
| ZeroDivisionError
| FileNotFoundError
| UnboundLocalError
| OSError
| OtherError (name : string)
| NotModelled.

Inductive result (A : Type) : Type :=
| Ret (a : A)
| Raise (e : exn).
Arguments Ret {A} a.
Arguments Raise {A} e.

#[global] Instance result_ret : MRet result := @Ret.
#[global] Instance result_bind : MBind result := fun A B f m =>
  match m with
  | Ret a => f a
  | Raise e => Raise e
  end.

#[global] Instance result_fmap : FMap result := fun A B f m =>
  match m with
  | Ret a => Ret (f a)
  | Raise e => Raise e
  end.

Definition returned {A} (r : result A) : bool :=
  match r with Ret _ => true | Raise _ => false end.

(** [a[i]] for a list, a tuple or a 1-D array and [i >= 0]. *)
Definition getitem {A} (a : list A) (i : nat) : result A :=
  match a !! i with
  | Some x => Ret x
  | None => Raise IndexError
  end.

(** ** Python numbers *)

(** The operations the three files use on numbers.  [lit] injects a literal
    of the source text, written as the rational it denotes. *)
Class Number (R : Type) : Type := {
  lit : Q -> R;
  nadd : R -> R -> R;
  nsub : R -> R -> R;
  nmul : R -> R -> R;
  ndiv : R -> R -> R;
  nabs : R -> R;
  nleb : R -> R -> bool;
  nltb : R -> R -> bool;
  neqb : R -> R -> bool
}.
Arguments lit {R _} q%_Q.

Declare Scope num_scope.
Delimit Scope num_scope with num.
Infix "+" := nadd : num_scope.
Infix "-" := nsub : num_scope.
Infix "*" := nmul : num_scope.
Infix "/" := ndiv : num_scope.
Infix "<=?" := nleb : num_scope.
Infix "<?" := nltb : num_scope.
Infix "==?" := neqb (at level 70) : num_scope.

(** Exact arithmetic. *)
#[global] Instance exact : Number Q := {|
  lit q := q;
  nadd := Qplus;
  nsub := Qminus;
  nmul := Qmult;
  ndiv := Qdiv;
  nabs := Qabs;
  nleb := Qle_bool;
  nltb x y := negb (Qle_bool y x);
  neqb := Qeq_bool
|}.

(** IEEE binary64.  A literal [n/d] with [|n|] and [d] below 2^53 is the
    correctly rounded quotient of two exactly represented integers, which is
    the double the Python parser reads from the decimal text. *)
Definition float_of_Z (z : Z) : float :=
  if (z <? 0)%Z then PrimFloat.opp (PrimFloat.of_uint63 (Uint63.of_Z (- z)))
  else PrimFloat.of_uint63 (Uint63.of_Z z).

#[global] Instance binary64 : Number float := {|
  lit q := PrimFloat.div (float_of_Z (Qnum q)) (float_of_Z (Zpos (Qden q)));
  nadd := PrimFloat.add;
  nsub := PrimFloat.sub;
  nmul := PrimFloat.mul;
  ndiv := PrimFloat.div;
  nabs := PrimFloat.abs;
  nleb := PrimFloat.leb;
  nltb := PrimFloat.ltb;
  neqb := PrimFloat.eqb
|}.

(** [x != x]: true of a NaN only. *)
Definition isnan {R} `{Number R} (x : R) : bool := negb (x ==? x)%num.

(** Python's [==] on pairs and on lists of pairs of numbers. *)
Definition pair_eqb {R} `{Number R} (p q : R * R) : bool :=
  (p.1 ==? q.1)%num && (p.2 ==? q.2)%num.

Fixpoint pairs_eqb {R} `{Number R} (l m : list (R * R)) : bool :=
  match l, m with
  | [], [] => true
  | p :: l, q :: m => pair_eqb p q && pairs_eqb l m
  | _, _ => false
  end.

(** * functions_MA.py *)

Module Geometry.
Section Geometry.
Context {R : Type} `{Number R}.
Open Scope num_scope.

(** [roof_edges2D(mult = 1, Lat = 0, Lon = 0)]; the [numpy.array] of eight
  rows of two is the list of its rows. *)
Definition roof_edges2D (mult Lat Lon : R) : list (R * R) :=
  let offsetLon := lit 681437.8 - Lon in
  let offsetLat := lit 248919.2 - Lat in
  let NLon := (lit 681443.103 - offsetLon) * mult in
  let NLat := (lit 248954.576 - offsetLat) * mult in
  let ELon := (lit 681462.783 - offsetLon) * mult in
  let ELat := (lit 248942.503 - offsetLat) * mult in
  let E_1 := (lit 681429.922 - offsetLon) * mult in
  let N_1 := (lit 248934.161 - offsetLat) * mult in
  let E_2 := (lit 681431.376 - offsetLon) * mult in
  let N_2 := (lit 248912.610 - offsetLat) * mult in
  let WLon := (lit 681426.233 - offsetLon) * mult in
  let WLat := (lit 248895.830 - offsetLat) * mult in
  let SLon := (lit 681447.497 - offsetLon) * mult in
  let SLat := (lit 248889.417 - offsetLat) * mult in
  let E_5 := (lit 681460.536 - offsetLon) * mult in
  let N_5 := (lit 248909.601 - offsetLat) * mult in
  let E_6 := (lit 681459.040 - offsetLon) * mult in
  let N_6 := (lit 248927.087 - offsetLat) * mult in
  [(NLon, NLat); (E_1, N_1); (E_2, N_2); (WLon, WLat);
   (SLon, SLat); (E_5, N_5); (E_6, N_6); (ELon, ELat)].

(** The eight survey vertices as the source writes them, in the order
  N, E_1, E_2, W, S, E_5, E_6, E. *)
Definition survey_vertices : list (R * R) :=
  [(lit 681443.103, lit 248954.576); (lit 681429.922, lit 248934.161);
   (lit 681431.376, lit 248912.610); (lit 681426.233, lit 248895.830);
   (lit 681447.497, lit 248889.417); (lit 681460.536, lit 248909.601);
   (lit 681459.040, lit 248927.087); (lit 681462.783, lit 248942.503)].

(** The part of a matplotlib 3D axis [set_axes_equal] touches: the three
  pairs of view limits.  [get_*lim3d] read a pair, [set_*lim3d] store
  one. *)
Record Axes3D : Type := mkAxes3D {
  xlim : R * R;
  ylim : R * R;
  zlim : R * R
}.

Definition get_xlim3d (ax : Axes3D) : R * R := xlim ax.
Definition get_ylim3d (ax : Axes3D) : R * R := ylim ax.
Definition set_xlim3d (ax : Axes3D) (l : R * R) : Axes3D :=
  {| xlim := l; ylim := ylim ax; zlim := zlim ax |}.
Definition set_ylim3d (ax : Axes3D) (l : R * R) : Axes3D :=
  {| xlim := xlim ax; ylim := l; zlim := zlim ax |}.

(** [np.mean] of a pair: the sum over the count. *)
Definition mean2 (l : R * R) : R := (l.1 + l.2) / lit 2.

(** Python's [max] of a non-empty list: the first of the largest items. *)
Definition py_max (x : R) (l : list R) : R :=
  fold_left (fun m y => if m <? y then y else m) l x.

Definition set_axes_equal (ax : Axes3D) : Axes3D :=
  let x_limits := get_xlim3d ax in
  let y_limits := get_ylim3d ax in
  let x_range := nabs (x_limits.2 - x_limits.1) in
  let x_middle := mean2 x_limits in
  let y_range := nabs (y_limits.2 - y_limits.1) in
  let y_middle := mean2 y_limits in
  let plot_radius := lit 0.5 * py_max x_range [y_range] in
  let ax := set_xlim3d ax (x_middle - plot_radius, x_middle + plot_radius) in
  set_ylim3d ax (y_middle - plot_radius, y_middle + plot_radius).

(** [list(zip(xs, ys, zs))] *)
Definition zip3 (xs ys zs : list R) : list (R * R * R) :=
  zip_with (fun x yz => (x, yz.1, yz.2)) xs (zip ys zs).

(** The tuple of eleven [roof_edges3D] returns, by the names of its
  [return]. *)
Record Roof3D : Type := mkRoof3D {
  edges_gfloor : list (list (R * R * R));
  edges_roof : list (list (R * R * R));
  ER : R;
  E23 : R;
  E6 : R;
  E0 : R;
  BE0 : R;
  ELon : R;
  ELat : R;
  Lon1 : R;
  Lat1 : R
}.

(** [roof_edges3D(mult=1, Lon=0, Lat=0, up=0)]: the origin is given with
  the longitude first. *)
Definition roof_edges3D (mult Lon Lat up : R) : Roof3D :=
  let offsetLon := lit 681437.8 - Lon in
  let offsetLat := lit 248919.2 - Lat in
  let NLon := (lit 681443.103 - offsetLon) * mult in
  let NLat := (lit 248954.576 - offsetLat) * mult in
  let ELon := (lit 681462.783 - offsetLon) * mult in
  let ELat := (lit 248942.503 - offsetLat) * mult in
  let E_1 := (lit 681429.922 - offsetLon) * mult in
  let N_1 := (lit 248934.161 - offsetLat) * mult in
  let E_2 := (lit 681431.376 - offsetLon) * mult in
  let N_2 := (lit 248912.610 - offsetLat) * mult in
  let WLon := (lit 681426.233 - offsetLon) * mult in
  let WLat := (lit 248895.830 - offsetLat) * mult in
  let SLon := (lit 681447.497 - offsetLon) * mult in
  let SLat := (lit 248889.417 - offsetLat) * mult in
  let E_5 := (lit 681460.536 - offsetLon) * mult in
  let N_5 := (lit 248909.601 - offsetLat) * mult in
  let E_6 := (lit 681459.040 - offsetLon) * mult in
  let N_6 := (lit 248927.087 - offsetLat) * mult in
  let Lon1 := lit 681437.8 - offsetLon in
  let Lat1 := lit 248919.2 - offsetLat in
  let ER := lit 124.37 * mult + up in
  let E23 := (lit 78.7 - lit 0.32) * mult in
  let E6 := (lit 21.78 - lit 0.32) * mult in
  let E0 := lit 0 * mult in
  let BE0 := lit 0 * mult in
  let edges_gfloor :=
    [zip3 [NLon; E_1; E_2; WLon; SLon; E_5; E_6; ELon]
          [NLat; N_1; N_2; WLat; SLat; N_5; N_6; ELat]
          [lit 0; lit 0; lit 0; lit 0; lit 0; lit 0; lit 0; lit 0]] in
  let edges_roof :=
    [zip3 [NLon; E_1; E_2; WLon; SLon; E_5; E_6; ELon]
          [NLat; N_1; N_2; WLat; SLat; N_5; N_6; ELat]
          [ER; ER; ER; ER; ER; ER; ER; ER]] in
  mkRoof3D edges_gfloor edges_roof ER E23 E6 E0 BE0 ELon ELat Lon1 Lat1.

(** [H_array2D(mult=1, Lat=0, Lon=0)]: the centre and the four corners
  N, E, S, W. *)
Definition H_array2D (mult Lat Lon : R) : list (R * R) :=
  let offsetLon := lit 681437.8 - Lon in
  let offsetLat := lit 248919.2 - Lat in
  let NLon := (lit 681443.103 - offsetLon) * mult in
  let NLat := (lit 248954.576 - offsetLat) * mult in
  let ELon := (lit 681462.783 - offsetLon) * mult in
  let ELat := (lit 248942.503 - offsetLat) * mult in
  let WLon := (lit 681426.233 - offsetLon) * mult in
  let WLat := (lit 248895.830 - offsetLat) * mult in
  let SLon := (lit 681447.497 - offsetLon) * mult in
  let SLat := (lit 248889.417 - offsetLat) * mult in
  let Lon1 := lit 0 * mult in
  let Lat1 := lit 0 * mult in
  [(Lon1, Lat1); (NLon, NLat); (ELon, ELat); (SLon, SLat); (WLon, WLat)].

(** Every vertex moved by [(dx, dy)], and every coordinate times [k]. *)
Definition translate (dx dy : R) (l : list (R * R)) : list (R * R) :=
  map (fun p => (p.1 + dx, p.2 + dy)) l.
Definition scale (k : R) (l : list (R * R)) : list (R * R) :=
  map (fun p => (k * p.1, k * p.2)) l.
End Geometry.
Arguments Axes3D R : clear implicits.
Arguments Roof3D R : clear implicits.
End Geometry.

(** * custom_util.py *)

Module DAS.
Section DAS.
Context {R : Type} `{Number R}.
(** The samples one channel holds (a column of the data). *)
Context {T : Type}.

(** ** numpy *)

(** A numpy array of numbers of at most two axes. *)
Inductive ndarray : Type :=
  | Arr0 (x : R)
  | Arr1 (v : list R)
  | Arr2 (rows : list (list R)).

(** The directory is a map from the name of a text file to the numbers of
  its lines.  [all_same_length]: the lines of a table have as many numbers
  as the first. *)
Definition all_same_length (rows : list (list R)) : bool :=
  match rows with
  | [] => true
  | r :: rows => forallb (fun r' => Nat.eqb (length r') (length r)) rows
  end.

(** [np.loadtxt(fname)] with its defaults: blank lines are skipped, lines
  of different lengths are a [ValueError], and, [ndmin] being 0, axes of
  length one are squeezed away: a file of one line is a 1-D array. *)
Definition loadtxt (fs : gmap string (list (list R))) (fname : string)
  : result ndarray :=
  match fs !! fname with
  | None => Raise FileNotFoundError
  | Some lines =>
      let rows := filter (fun r => r <> []) lines in
      if negb (all_same_length rows) then Raise ValueError
      else match rows with
           | [] => Ret (Arr1 [])
           | [[x]] => Ret (Arr0 x)
           | [r] => Ret (Arr1 r)
           | r :: _ =>
               if Nat.eqb (length r) 1 then Ret (Arr1 (concat rows))
               else Ret (Arr2 rows)
           end
  end.

(** [tmp[:,k]]: too many indices for an array of fewer than two axes. *)
Definition column (tmp : ndarray) (k : nat) : result (list R) :=
  match tmp with
  | Arr2 rows => mapM (fun r => getitem r k) rows
  | _ => Raise IndexError
  end.

(** [np.argmin] of a 1-D array: the first index of the least item, a NaN
  counting as least; an empty array is a [ValueError]. *)
Fixpoint argmin_loop (mp : R) (min_ind i : nat) (ip : list R) : nat :=
  match ip with
  | [] => min_ind
  | x :: ip =>
      if negb (mp <=? x)%num
      then if isnan x then i else argmin_loop x i (S i) ip
      else argmin_loop mp min_ind (S i) ip
  end.

Definition argmin (a : list R) : result nat :=
  match a with
  | [] => Raise ValueError
  | x :: ip => Ret (if isnan x then 0 else argmin_loop x 0 1 ip)
  end.

(** [np.argmin(np.abs(channels_dd_original - d))] *)
Definition nearest (channels_dd_original : list R) (d : R) : result nat :=
  argmin (map (fun c => nabs (c - d)%num) channels_dd_original).

(** [l[i0:i1]] for [0 <= i0], [0 <= i1]. *)
Definition py_slice {A} (l : list A) (i0 i1 : nat) : list A :=
  take (i1 - i0) (drop i0 l).

(** [for i in range(n)] over a body that may raise. *)
Fixpoint for_range {S} (body : S -> nat -> result S) (range : list nat)
    (st : S) : result S :=
  match range with
  | [] => Ret st
  | i :: range => st' ← body st i; for_range body range st'
  end.

(** ** xdas *)

(** xdas is a library the file imports.  Of an array the model keeps the
  values of its [distance] coordinate and, along the same axis, its
  channels; of the library, the slicing and the concatenation of channels
  and the checks of [xd.Coordinate] and [assign_coords]. *)
Record DataArray : Type := mkDataArray {
  da_distance : list R;
  da_data : list T
}.

(** An interpolated coordinate: its tie points. *)
Record Coordinate : Type := mkCoordinate {
  tie_indices : list Z;
  tie_values : list R
}.

(** The array [apply_mapping] returns: the stitched channels and the
  three coordinates assigned to them. *)
Record MappedArray : Type := mkMappedArray {
  data : list T;
  distance : Coordinate;
  latitude : Coordinate;
  longitude : Coordinate
}.

(** [np.diff(x)] and xdas's [is_strictly_increasing(x)], which is
  [np.all(np.diff(x) > 0)]. *)
Fixpoint diff (x : list Z) : list Z :=
  match x with
  | a :: (b :: _) as rest => (b - a)%Z :: diff rest
  | _ => []
  end.

Definition is_strictly_increasing (x : list Z) : bool :=
  forallb (fun d => (0 <? d)%Z) (diff x).

(** [xd.Coordinate({"tie_indices": indices, "tie_values": values})].  xdas
  checks what it is given and raises [ValueError] when there are not as
  many indices as values, when the first index is not zero, and when the
  indices are not strictly increasing.  The ties of [apply_mapping] come in
  equal numbers and start at the index 0, so that only the last of these
  checks can fail there. *)
Definition xd_Coordinate (indices : list Z) (values : list R)
  : result Coordinate :=
  if negb (Nat.eqb (length indices) (length values)) then Raise ValueError
  else match indices with
       | [] => Ret (mkCoordinate indices values)
       | first :: _ =>
           if negb (first =? 0)%Z then Raise ValueError
           else if negb (is_strictly_increasing indices) then Raise ValueError
           else Ret (mkCoordinate indices values)
       end.

(** [len(coord)] of an interpolated coordinate: the number of indices from
  its first to its last tie. *)
Definition coord_len (coord : Coordinate) : Z :=
  match tie_indices coord, last (tie_indices coord) with
  | first :: _, Some l => (l - first + 1)%Z
  | _, _ => 0%Z
  end.

(** [da2.assign_coords(...)] of a coordinate along the axis of the
  channels: [ValueError] (conflicting sizes) unless the coordinate is as
  long as the axis.  The channels themselves are not touched. *)
Definition assign_coords (da2 : list T) (coord : Coordinate) : result unit :=
  if (coord_len coord =? Z.of_nat (length da2))%Z then Ret tt
  else Raise ValueError.

(** ** apply_mapping *)

(** The dict [segment]. *)
Record Segment : Type := mkSegment {
  x1 : list R; y1 : list R; d1 : list R;
  x2 : list R; y2 : list R; d2 : list R
}.

(** The variables of the first loop. *)
Record Ties : Type := mkTies {
  icount : Z;
  t_indices : list Z;
  t_distances : list R;
  t_lat : list R;
  t_lon : list R;
  mapped_ranges : list (nat * nat)
}.

Definition no_ties : Ties := mkTies 0 [] [] [] [] [].

(** The four [append]s of a tie at the running counter. *)
Definition push_tie (st : Ties) (d lat lon : R) : Ties :=
  {| icount := icount st;
     t_indices := t_indices st ++ [icount st];
     t_distances := t_distances st ++ [d];
     t_lat := t_lat st ++ [lat];
     t_lon := t_lon st ++ [lon];
     mapped_ranges := mapped_ranges st |}.

Definition advance (st : Ties) (n : Z) : Ties :=
  {| icount := (icount st + n)%Z;
     t_indices := t_indices st;
     t_distances := t_distances st;
     t_lat := t_lat st;
     t_lon := t_lon st;
     mapped_ranges := mapped_ranges st |}.

Definition push_range (st : Ties) (r : nat * nat) : Ties :=
  {| icount := icount st;
     t_indices := t_indices st;
     t_distances := t_distances st;
     t_lat := t_lat st;
     t_lon := t_lon st;
     mapped_ranges := mapped_ranges st ++ [r] |}.

(** The body of [for i in range(len(segment['x1']))]. *)
Definition tie_step (segment : Segment) (channels_dd_original : list R)
    (st : Ties) (i : nat) : result Ties :=
  d1_i ← getitem (d1 segment) i;
  i1 ← nearest channels_dd_original d1_i;
  d2_i ← getitem (d2 segment) i;
  i2 ← nearest channels_dd_original d2_i;
  let nchan := (Z.of_nat i2 - Z.of_nat i1)%Z in
  y1_i ← getitem (y1 segment) i;
  x1_i ← getitem (x1 segment) i;
  let st := advance (push_tie st d1_i y1_i x1_i) nchan in
  st ← (if (Z.of_nat i <? Z.of_nat (length (x1 segment)) - 1)%Z then
          d1_next ← getitem (d1 segment) (i + 1);
          if negb (d2_i ==? d1_next)%num then
            y2_i ← getitem (y2 segment) i;
            x2_i ← getitem (x2 segment) i;
            Ret (advance (push_tie st d2_i y2_i x2_i) 1)
          else Ret st
        else
          y2_i ← getitem (y2 segment) i;
          x2_i ← getitem (x2 segment) i;
          Ret (push_tie st d2_i y2_i x2_i));
  Ret (push_range st (i1, i2)).

(** The bounds [i0:i1] of the slice taken for range [i]. *)
Definition slice_bounds (mapped_ranges : list (nat * nat)) (i : nat)
  : result (nat * nat) :=
  r ← getitem mapped_ranges i;
  let i0 := r.1 in
  let i1 := r.2 in
  if (Z.of_nat i <? Z.of_nat (length mapped_ranges) - 1)%Z then
    r' ← getitem mapped_ranges (i + 1);
    Ret (i0, if negb (Nat.eqb r.2 r'.1) then i1 + 1 else i1)
  else Ret (i0, i1 + 1).

(** The body of [for i in range(len(mapped_ranges))]; [da2] is unbound
  until the first iteration has run, and [xd.concatenate] along
  ["distance"] puts the channels of its arguments one after the other. *)
Definition slice_step (da : DataArray) (mapped_ranges : list (nat * nat))
    (da2 : option (list T)) (i : nat) : result (option (list T)) :=
  b ← slice_bounds mapped_ranges i;
  let chunk := py_slice (da_data da) b.1 b.2 in
  if Nat.eqb i 0 then Ret (Some chunk)
  else match da2 with
       | Some da2 => Ret (Some (da2 ++ chunk))
       | None => Raise UnboundLocalError
       end.

(** Lines 77 to 101: the three coordinates are made of the ties, and
  assigned to the collected channels, one after the other. *)
Definition with_coordinates (st : Ties) (da2 : option (list T))
  : result MappedArray :=
  distance_mapped ← xd_Coordinate (t_indices st) (t_distances st);
  lat_mapped ← xd_Coordinate (t_indices st) (t_lat st);
  lon_mapped ← xd_Coordinate (t_indices st) (t_lon st);
  match da2 with
  | None => Raise UnboundLocalError
  | Some da2 =>
      _ ← assign_coords da2 distance_mapped;
      _ ← assign_coords da2 lat_mapped;
      _ ← assign_coords da2 lon_mapped;
      Ret (mkMappedArray da2 distance_mapped lat_mapped lon_mapped)
  end.

(** Lines 11 to 101: what [apply_mapping] does with the table it loaded. *)
Definition map_segments (tmp : ndarray) (da : DataArray) : result MappedArray :=
  x1 ← column tmp 0;
  y1 ← column tmp 1;
  d1 ← column tmp 2;
  x2 ← column tmp 3;
  y2 ← column tmp 4;
  d2 ← column tmp 5;
  let segment := mkSegment x1 y1 d1 x2 y2 d2 in
  let channels_dd_original := da_distance da in
  st ← for_range (tie_step segment channels_dd_original)
         (seq 0 (length x1)) no_ties;
  da2 ← for_range (slice_step da (mapped_ranges st))
          (seq 0 (length (mapped_ranges st))) None;
  with_coordinates st da2.

(** [apply_mapping(da, segments_filename="good_segments.txt")].  The table
  is loaded from the literal name; the argument is not read. *)
Definition apply_mapping (fs : gmap string (list (list R))) (da : DataArray)
    (segments_filename : string) : result MappedArray :=
  tmp ← loadtxt fs "good_segments.txt";
  map_segments tmp da.

(** What section 4.2 of the specification asks for instead: the table is
  loaded from the file the argument names. *)
Definition apply_mapping_as_specified (fs : gmap string (list (list R)))
    (da : DataArray) (segments_filename : string) : result MappedArray :=
  tmp ← loadtxt fs segments_filename;
  map_segments tmp da.

(** The number of adjacent lines [i], [i+1] of a table with
  [d2[i] != d1[i+1]]. *)
Definition is_gap (r r' : list R) : bool :=
  match r !! 5, r' !! 2 with
  | Some d2_i, Some d1_next => negb (d2_i ==? d1_next)%num
  | _, _ => false
  end.

Fixpoint gaps (rows : list (list R)) : nat :=
  match rows with
  | r :: (r' :: _) as rest => (if is_gap r r' then 1 else 0) + gaps rest
  | _ => 0
  end.

(** The nearest channels of the start and of the end of a line. *)
Definition row_range (channels : list R) (r : list R) : option (nat * nat) :=
  match r !! 2, r !! 5 with
  | Some d1_i, Some d2_i =>
      match nearest channels d1_i, nearest channels d2_i with
      | Ret i1, Ret i2 => Some (i1, i2)
      | _, _ => None
      end
  | _, _ => None
  end.

(** ** The first loop, line by line of the table *)

(** Column [k] of a table whose lines have more than [k] numbers. *)
Definition cells (k : nat) (rows : list (list R)) : list R :=
  omap (fun r => r !! k) rows.

(** The ties the first loop adds for a table, as the specification tells
    it: by recursion on the lines, the line after the current one deciding
    whether there is a gap. *)
Fixpoint ties_of_rows (channels : list R) (rows : list (list R)) (st : Ties)
  : result Ties :=
  match rows with
  | [] => Ret st
  | r :: rest =>
      match r !! 0, r !! 1, r !! 2, r !! 3, r !! 4, r !! 5 with
      | Some x1_i, Some y1_i, Some d1_i, Some x2_i, Some y2_i, Some d2_i =>
          i1 ← nearest channels d1_i;
          i2 ← nearest channels d2_i;
          let st := advance (push_tie st d1_i y1_i x1_i)
                      (Z.of_nat i2 - Z.of_nat i1) in
          let st := match rest with
                    | r' :: _ =>
                        if is_gap r r' then advance (push_tie st d2_i y2_i x2_i) 1
                        else st
                    | [] => push_tie st d2_i y2_i x2_i
                    end in
          ties_of_rows channels rest (push_range st (i1, i2))
      | _, _, _, _, _, _ => Raise IndexError
      end
  end.

(** A list of channel indices goes up: strictly, or without going down. *)
Definition goes_up (strict : bool) (a b : Z) : bool :=
  if strict then (a <? b)%Z else (a <=? b)%Z.

Fixpoint ascending_from (strict : bool) (prev : Z) (l : list Z) : bool :=
  match l with
  | [] => true
  | x :: l => goes_up strict prev x && ascending_from strict x l
  end.

Definition ascending (strict : bool) (l : list Z) : bool :=
  match l with
  | [] => true
  | x :: l => ascending_from strict x l
  end.

(** The end of a line is the given number of channels or more after its
    start. *)
Definition spans (channels : list R) (least : nat) (r : list R) : bool :=
  match row_range channels r with
  | Some (i1, i2) => Nat.leb (i1 + least) i2
  | None => false
  end.

(** ** What the statements about apply_mapping speak of *)

(** Every line of the table has the six numbers of a segment. *)
Definition wide (rows : list (list R)) : Prop :=
  Forall (fun r => 6 <= length r) rows.

(** The dict [segment] of a table. *)
Definition segment_of (rows : list (list R)) : Segment :=
  mkSegment (cells 0 rows) (cells 1 rows) (cells 2 rows)
            (cells 3 rows) (cells 4 rows) (cells 5 rows).

(** The four lists of the ties have one entry per tie. *)
Definition aligned (st : Ties) : Prop :=
  length (t_distances st) = length (t_indices st)
  /\ length (t_lat st) = length (t_indices st)
  /\ length (t_lon st) = length (t_indices st).

(** What the first loop keeps true between two lines: the tie indices go up,
    and the counter is beyond the last of them. *)
Definition counter_ahead (strict : bool) (st : Ties) : Prop :=
  ascending strict (t_indices st) = true
  /\ forall y, last (t_indices st) = Some y -> goes_up strict y (icount st) = true.

(** The upper bound of range [i] is extended by one channel: the range is
    the last one, or the next range does not start where it ends. *)
Definition extended (mapped_ranges : list (nat * nat)) (i : nat) : bool :=
  match mapped_ranges !! i, mapped_ranges !! (i + 1) with
  | Some r, Some r' => negb (Nat.eqb r.2 r'.1)
  | Some _, None => true
  | None, _ => false
  end.

(** The channels taken for range [i], and all of them in order. *)
Definition chunk (da : DataArray) (mapped_ranges : list (nat * nat))
    (i : nat) : list T :=
  match mapped_ranges !! i with
  | Some r =>
      py_slice (da_data da) r.1 (if extended mapped_ranges i then r.2 + 1 else r.2)
  | None => []
  end.

Definition stitched (da : DataArray) (mapped_ranges : list (nat * nat))
  : list T :=
  concat (map (chunk da mapped_ranges) (seq 0 (length mapped_ranges))).

(** The variables of the first loop after its last turn. *)
Definition ties_of (channels : list R) (rows : list (list R)) : Ties :=
  match ties_of_rows channels rows no_ties with
  | Ret st => st
  | Raise _ => no_ties
  end.

(** Tie indices that xdas accepts for a run of collected channels: they
    are strictly increasing, and the last of them is the index of the last
    channel. *)
Definition accepted (indices : list Z) (da2 : list T) : bool :=
  is_strictly_increasing indices
  && match last indices with
     | Some l => (l + 1 =? Z.of_nat (length da2))%Z
     | None => false
     end.

End DAS.
Arguments DataArray R T : clear implicits.
Arguments MappedArray R T : clear implicits.
Arguments ndarray R : clear implicits.
Arguments Coordinate R : clear implicits.
Arguments Segment R : clear implicits.
Arguments Ties R : clear implicits.

(** ** apply_scaling *)

Section Scaling.
Context {R : Type} `{Number R}.
Open Scope num_scope.

(** [x * 116.0 / 8192.0 * 400.0 / 10.0 * 1e-9], from left to right as
  Python reads it. *)
Definition scaled (x : R) : R :=
  x * lit 116.0 / lit 8192.0 * lit 400.0 / lit 10.0 * lit 1e-9.

(** [apply_scaling(da)]: the arithmetic of an array is that of each of its
  samples, and leaves its coordinates alone.  A channel holds its samples
  in time. *)
Definition apply_scaling (da : DataArray R (list R)) : DataArray R (list R) :=
  {| da_distance := da_distance da;
     da_data := map (map scaled) (da_data da) |}.
End Scaling.
End DAS.

(** * Auto_process_HV.py *)

Module HVSR.

(** ** Strings *)

Definition nl : string := String (ascii_of_nat 10) EmptyString.

(** A text of the given lines, each ended by a newline. *)
Definition unlines (ls : list string) : string :=
  fold_right (fun l r => l +:+ nl +:+ r) EmptyString ls.

(** The lines of a text: the runs of characters between newlines. *)
Fixpoint lines_from (cur : string) (s : string) : list string :=
  match s with
  | EmptyString => [cur]
  | String c s =>
      if Ascii.eqb c (ascii_of_nat 10) then cur :: lines_from EmptyString s
      else lines_from (cur +:+ String c EmptyString) s
  end.
Definition lines (s : string) : list string := lines_from EmptyString s.

(** [s.split(sep)] for a separator of one character. *)
Fixpoint split_from (sep : ascii) (cur : string) (s : string) : list string :=
  match s with
  | EmptyString => [cur]
  | String c s =>
      if Ascii.eqb c sep then cur :: split_from sep EmptyString s
      else split_from sep (cur +:+ String c EmptyString) s
  end.
Definition split (sep : ascii) (s : string) : list string :=
  split_from sep EmptyString s.

Fixpoint contains (c : ascii) (s : string) : bool :=
  match s with
  | EmptyString => false
  | String c' s => Ascii.eqb c c' || contains c s
  end.

(** ** Values that are formatted into text *)

(** An [int], a [float] (given by the text [repr] prints for it: printing
    floats is not modelled) or a [str]. *)
Inductive pyval : Type :=
| PyInt (z : Z)
| PyFloat (repr : string)
| PyStr (s : string).

Definition str_int (z : Z) : string := NilZero.string_of_int (Z.to_int z).

(** [str(v)], which is also [format(v, '')]. *)
Definition str (v : pyval) : string :=
  match v with
  | PyInt z => str_int z
  | PyFloat r => r
  | PyStr s => s
  end.

(** ** str.format with keyword arguments only *)

Fixpoint all_digits (s : string) : bool :=
  match s with
  | EmptyString => true
  | String c s =>
      (Nat.leb 48 (nat_of_ascii c) && Nat.leb (nat_of_ascii c) 57) && all_digits s
  end.

(** The value of the replacement field [{name}]: an empty or numeric name
    is a positional index, and there are no positional arguments. *)
Definition get_field (kwargs : gmap string pyval) (name : string) : result pyval :=
  if all_digits name then Raise IndexError
  else match kwargs !! name with
       | Some v => Ret v
       | None => Raise (KeyError name)
       end.

(** Attribute and index lookups, conversions and format specifications
    inside a field are outside the model. *)
Definition beyond_simple_field (c : ascii) : bool :=
  contains c ".[!:".

(** [s.format] with keyword arguments [kwargs], read from left to right; [field] holds the name
    read so far inside an open brace. *)
Fixpoint format_from (s : string) (field : option string)
    (kwargs : gmap string pyval) : result string :=
  match s, field with
  | EmptyString, None => Ret EmptyString
  | EmptyString, Some _ => Raise ValueError
  | String c s', None =>
      if Ascii.eqb c "{" then
        match s' with
        | String c' s'' =>
            if Ascii.eqb c' "{" then String "{" <$> format_from s'' None kwargs
            else format_from s' (Some EmptyString) kwargs
        | EmptyString => format_from s' (Some EmptyString) kwargs
        end
      else if Ascii.eqb c "}" then
        match s' with
        | String c' s'' =>
            if Ascii.eqb c' "}" then String "}" <$> format_from s'' None kwargs
            else Raise ValueError
        | EmptyString => Raise ValueError
        end
      else String c <$> format_from s' None kwargs
  | String c s', Some name =>
      if Ascii.eqb c "}" then
        v ← get_field kwargs name;
        rest ← format_from s' None kwargs;
        Ret (str v +:+ rest)
      else if Ascii.eqb c "{" then Raise ValueError
      else if beyond_simple_field c then Raise NotModelled
      else format_from s' (Some (name +:+ String c EmptyString)) kwargs
  end.

Definition format (s : string) (kwargs : gmap string pyval) : result string :=
  format_from s None kwargs.

(** ** get_paramString *)

Definition paramsString_lines : list string :=
  [
   "PARAMETERS_VERSION=1    ";
   "FROM_TIME_TYPE=Absolute";
   "FROM_TIME_TEXT={tStart}";
   "TO_TIME_TYPE=Absolute";
   "TO_TIME_TEXT={tEnd}";
   "REFERENCE=";
   "COMMON_TIME_WINDOWS=false";
   "WINDOW_LENGTH_TYPE=Exactly";
   "WINDOW_MIN_LENGTH(s)={winLen}";
   "WINDOW_MAX_LENGTH(s)={winLen}";
   "WINDOW_MAX_COUNT=0";
   "WINDOW_MAXIMUM_PRIME_FACTOR=11";
   "BAD_SAMPLE_TOLERANCE (s)=0";
   "BAD_SAMPLE_GAP (s)=0";
   "WINDOW_OVERLAP (%)={overlap}";
   "BAD_SAMPLE_THRESHOLD_TYPE={threshold}";
   "BAD_SAMPLE_THRESHOLD_VALUE (%)={threshold_pct}";
   "ANTI-TRIGGERING_ON_RAW_SIGNAL (y/n)=n";
   "ANTI-TRIGGERING_ON_FILTERED_SIGNAL (y/n)=n";
   "SEISMIC_EVENT_TRIGGER (y/n)=n";
   "SEISMIC_EVENT_DELAY (s)=-0.1";
   "WINDOW_TYPE=Tukey";
   "WINDOW_REVERSED=n";
   "WINDOW_ALPHA=0.1";
   "SMOOTHING_METHOD=Function";
   "SMOOTHING_WIDTH_TYPE=Log";
   "SMOOTHING_WIDTH={KO}";
   "SMOOTHING_SCALE_TYPE=Log";
   "SMOOTHING_WINDOW_TYPE=KonnoOhmachi";
   "SMOOTHING_WINDOW_REVERSED=n";
   "MINIMUM_FREQUENCY={minFreq}";
   "MAXIMUM_FREQUENCY={maxFreq}";
   "SCALE_TYPE_FREQUENCY=Log";
   "STEP_TYPE_FREQUENCY=Count";
   "SAMPLES_NUMBER_FREQUENCY={N_samples}";
   "#STEP_FREQUENCY=1.00231";
   "HIGH_PASS_FREQUENCY=0";
   "HORIZONTAL_COMPONENTS={horizontals}";
   "HORIZONTAL_AZIMUTH={azimuth}";
   "ROTATION_STEP={rotSteps}";
   "FREQUENCY_WINDOW_REJECTION_MINIMUM_FREQUENCY={rej_min_freq}";
   "FREQUENCY_WINDOW_REJECTION_MAXIMUM_FREQUENCY={rej_max_freq}";
   "FREQUENCY_WINDOW_REJECTION_STDDEV_FACTOR={rej_stdev}";
   "FREQUENCY_WINDOW_REJECTION_MAXIMUM_ITERATIONS={rej_it}"
  ].

(** The literal of the source, whose every line ends in a newline. *)
Definition get_paramString : string := unlines paramsString_lines.

(** The names [format] looks up in a template, in the order it does: the
    walk of [format_from] without the text. *)
Fixpoint fields_from (s : string) (field : option string) : list string :=
  match s, field with
  | EmptyString, _ => []
  | String c s', None =>
      if Ascii.eqb c "{" then
        match s' with
        | String c' s'' =>
            if Ascii.eqb c' "{" then fields_from s'' None
            else fields_from s' (Some EmptyString)
        | EmptyString => []
        end
      else if Ascii.eqb c "}" then
        match s' with
        | String c' s'' =>
            if Ascii.eqb c' "}" then fields_from s'' None else []
        | EmptyString => []
        end
      else fields_from s' None
  | String c s', Some name =>
      if Ascii.eqb c "}" then name :: fields_from s' None
      else if Ascii.eqb c "{" then []
      else if beyond_simple_field c then []
      else fields_from s' (Some (name +:+ String c EmptyString))
  end.
Definition fields (s : string) : list string := fields_from s None.

(** ** os.path (POSIX) *)

Definition starts_with_slash (s : string) : bool :=
  match s with
  | String c _ => Ascii.eqb c "/"
  | EmptyString => false
  end.

Fixpoint ends_with_slash (s : string) : bool :=
  match s with
  | EmptyString => false
  | String c EmptyString => Ascii.eqb c "/"
  | String _ s => ends_with_slash s
  end.

(** [os.path.join(a, b)] *)
Definition path_join (a b : string) : string :=
  if starts_with_slash b then b
  else if String.eqb a EmptyString || ends_with_slash a then a +:+ b
  else a +:+ "/" +:+ b.

(** [(p[:i], p[i:])] for [i = p.rfind('/') + 1] *)
Fixpoint split_at_last_slash (p : string) : string * string :=
  match p with
  | EmptyString => (EmptyString, EmptyString)
  | String c p' =>
      if contains "/" p' then
        let (head, tail) := split_at_last_slash p' in (String c head, tail)
      else if Ascii.eqb c "/" then (String c EmptyString, p')
      else (EmptyString, p)
  end.

(** [s.rstrip('/')] *)
Fixpoint rstrip_slash (s : string) : string :=
  match s with
  | EmptyString => EmptyString
  | String c s' =>
      let r := rstrip_slash s' in
      if Ascii.eqb c "/" && String.eqb r EmptyString then EmptyString
      else String c r
  end.

(** [os.path.split(p)]: the head loses its trailing slashes unless it is
    made of slashes only. *)
Definition path_split (p : string) : string * string :=
  let (head, tail) := split_at_last_slash p in
  (if String.eqb (rstrip_slash head) EmptyString then head
   else rstrip_slash head, tail).

(** ** repr and str of strings and pairs (ASCII) *)

Definition dquote : ascii := ascii_of_nat 34.
Definition backslash : ascii := ascii_of_nat 92.

Definition hex_digit (n : nat) : ascii :=
  match String.get n "0123456789abcdef" with
  | Some c => c
  | None => "0"%char
  end.

Definition repr_char (quote c : ascii) : string :=
  let n := nat_of_ascii c in
  if Ascii.eqb c quote || Ascii.eqb c backslash then
    String backslash (String c EmptyString)
  else if Nat.eqb n 9 then String backslash "t"
  else if Nat.eqb n 10 then String backslash "n"
  else if Nat.eqb n 13 then String backslash "r"
  else if Nat.ltb n 32 || Nat.eqb n 127 then
    String backslash
      (String "x" (String (hex_digit (n / 16)) (String (hex_digit (n mod 16)) EmptyString)))
  else String c EmptyString.

Fixpoint repr_chars (quote : ascii) (s : string) : string :=
  match s with
  | EmptyString => EmptyString
  | String c s => repr_char quote c +:+ repr_chars quote s
  end.

(** [repr(s)]: single quotes, unless [s] has a single and no double
    quote. *)
Definition repr_str (s : string) : string :=
  let quote := if contains "'" s && negb (contains dquote s) then dquote
               else "'"%char in
  String quote (repr_chars quote s +:+ String quote EmptyString).

(** [str((a, b))] *)
Definition str_pair (a b : string) : string :=
  "(" +:+ repr_str a +:+ ", " +:+ repr_str b +:+ ")".

(** [str(os.path.split(file)).split('.')[1]] *)
Definition node_ID_of (file : string) : result string :=
  let (head, tail) := path_split file in
  getitem (split "." (str_pair head tail)) 1.

(** ** UTCDateTime and its formats *)

(** The calendar fields of a [UTCDateTime]. *)
Record Date : Type := mkDate {
  year : nat; month : nat; day : nat;
  hour : nat; minute : nat; second : nat
}.

Definition str_nat (n : nat) : string := str_int (Z.of_nat n).

(** [%02d] *)
Definition pad2 (n : nat) : string :=
  if Nat.ltb n 10 then "0" +:+ str_nat n else str_nat n.

(** ['%s%02d%02d%02d%02d%#05.2f' % (year, month, day, hour, minute,
    second)], the second being an [int]. *)
Definition fmt_param (d : Date) : string :=
  str_nat (year d) +:+ pad2 (month d) +:+ pad2 (day d) +:+ pad2 (hour d)
    +:+ pad2 (minute d) +:+ pad2 (second d) +:+ ".00".

(** ['%s%02d%02d%02d%02d%#02d' % (...)] *)
Definition fmt_hv (d : Date) : string :=
  str_nat (year d) +:+ pad2 (month d) +:+ pad2 (day d) +:+ pad2 (hour d)
    +:+ pad2 (minute d) +:+ pad2 (second d).

(** ** np.arange on objects *)

(** The items from the third on: each is the one before plus [delta]. *)
Fixpoint fill (prev delta : Q) (n : nat) : list Q :=
  match n with
  | O => []
  | S n => (prev + delta)%Q :: fill (prev + delta)%Q delta n
  end.

(** [np.arange(start, stop, step)]: [ceil((stop - start) / step)] items (none
    when that is not positive), the first [start], the second
    [start + step], the others filled in steps of their difference.  Times
    are seconds, taken exactly. *)
Definition arange (start stop : Q) (step : Z) : result (list Q) :=
  if (step =? 0)%Z then Raise ZeroDivisionError
  else
    let next := (start + inject_Z step)%Q in
    let length := Z.to_nat (Qceiling ((stop - start) / inject_Z step)) in
    Ret match length with
        | O => []
        | S O => [start]
        | S (S n) => start :: next :: fill next (next - start)%Q n
        end.

(** [int(x / n)]: the quotient cut towards zero. *)
Definition int_of_quotient (x : Q) (n : Z) : result Z :=
  if (n =? 0)%Z then Raise ZeroDivisionError
  else
    let q := (x / inject_Z n)%Q in
    Ret (if Qle_bool 0 q then Qfloor q else Qceiling q).

(** ** The world outside *)

(** What the driver does to the world, in the order it does it. *)
Inductive event : Type :=
| Print (line : string)
| WriteFile (path text : string)
| MakeDirs (path : string)
| Call (argv : list string)
| Renames (old new : string).

(** The statistics of a trace that [run_HV] reads. *)
Record Trace : Type := mkTrace {
  network : string;
  station : string;
  starttime : Q;
  endtime : Q
}.

(** The libraries and the operating system: what [obspy.read] returns and
    whether an operation raises, both depending on what has happened so
    far, and the calendar fields and the text of a time. *)
Record Externals : Type := mkExternals {
  obspy_read : string -> list event -> result (list Trace);
  raises : event -> list event -> option exn;
  utc_date : Q -> Date;
  utc_str : Q -> string
}.

(** A command: from what has happened so far to a result and what has
    happened then.  An exception leaves the events before it in place. *)
Definition M (A : Type) : Type := list event -> result A * list event.

#[global] Instance M_ret : MRet M := fun A a log => (Ret a, log).
#[global] Instance M_bind : MBind M := fun A B f m log =>
  match m log with
  | (Ret a, log') => f a log'
  | (Raise e, log') => (Raise e, log')
  end.

Definition lift {A} (r : result A) : M A := fun log => (r, log).

Definition print (line : string) : M unit :=
  fun log => (Ret tt, log ++ [Print line]).

Definition perform (ext : Externals) (e : event) : M unit :=
  fun log =>
    match raises ext e log with
    | Some x => (Raise x, log)
    | None => (Ret tt, log ++ [e])
    end.

Definition read (ext : Externals) (wf : string) : M (list Trace) :=
  fun log => (obspy_read ext wf log, log).

(** [for x in xs: body(x)] *)
Fixpoint for_each {A} (xs : list A) (body : A -> M unit) : M unit :=
  match xs with
  | [] => mret tt
  | x :: xs => _ ← body x; for_each xs body
  end.

(** [try: m] followed by [except: continue] (or [pass]). *)
Definition try_except (m : M unit) : M unit :=
  fun log => (Ret tt, (m log).2).

(** ** The options and the fixed parameters *)

(** The command-line options.  Only [process_len] is declared with a type;
    the others are what their defaults are, or the text given on the
    command line, and are only ever formatted. *)
Record Options : Type := mkOptions {
  process_len : Z;
  time_window_len : pyval;
  threshold_pct : pyval;
  win_overlap : pyval;
  KO : pyval;
  min_freq : pyval;
  max_freq : pyval;
  N_samples : pyval;
  want_rotation : bool;
  rotation_steps : pyval
}.

Definition default_options : Options :=
  {| process_len := 3600;
     time_window_len := PyInt 60;
     threshold_pct := PyFloat "0.5";
     win_overlap := PyInt 50;
     KO := PyFloat "0.2";
     min_freq := PyFloat "0.2";
     max_freq := PyInt 50;
     N_samples := PyInt 500;
     want_rotation := false;
     rotation_steps := PyInt 10 |}.

Definition threshold : pyval := PyStr "RelativeSampleThreshold".
Definition horizontals_method : pyval := PyStr "Squared".
Definition azimuth : pyval := PyInt 0.
Definition rej_min_freq : pyval := PyFloat "0.5".
Definition rej_max_freq : pyval := PyInt 50.
Definition rej_stdev : pyval := PyFloat "1.8".
Definition rej_it : pyval := PyInt 500.

Definition directory : string := "Raw_Data".

(** The keyword arguments of the call of [format] in [run_HV]. *)
Definition format_kwargs (o : Options) (tStart tEnd : string)
  : gmap string pyval :=
  list_to_map
    [("tStart", PyStr tStart);
     ("tEnd", PyStr tEnd);
     ("threshold", threshold);
     ("threshold_pct", threshold_pct o);
     ("KO", KO o);
     ("winLen", time_window_len o);
     ("overlap", win_overlap o);
     ("N_samples", N_samples o);
     ("minFreq", min_freq o);
     ("maxFreq", max_freq o);
     ("horizontals", horizontals_method);
     ("azimuth", azimuth);
     ("rotSteps", rotation_steps o);
     ("rej_min_freq", rej_min_freq);
     ("rej_max_freq", rej_max_freq);
     ("rej_stdev", rej_stdev);
     ("rej_it", rej_it)].

(** ** read_files (the second definition, which is the one in effect) *)

(** [l[i] = x] for a list and [i >= 0]. *)
Definition setitem {A} (l : list A) (i : nat) (x : A) : result (list A) :=
  if decide (i < length l) then Ret (<[i:=x]> l) else Raise IndexError.

(** [l = list(filename); l[13] = '*'; basefile = ''.join(l)] *)
Definition basefile_of (filename : string) : result string :=
  l ← setitem (list_ascii_of_string filename) 13 "*"%char;
  Ret (string_of_list_ascii l).

(** [str(l)] for a list of characters. *)
Definition str_chars (l : list ascii) : string :=
  "[" +:+ String.concat ", " (map (fun c => repr_str (String c EmptyString)) l)
    +:+ "]".

(** [ar[1:] != ar[:-1]] on a sorted array: the first item of every run of
    equal items. *)
Fixpoint drop_repeats (ar : list string) : list string :=
  match ar with
  | x :: (y :: _) as rest =>
      if String.eqb x y then drop_repeats rest else x :: drop_repeats rest
  | _ => ar
  end.

(** [np.unique(files)] for strings: sorted by code points, every item
    once. *)
Definition unique (files : list string) : list string :=
  drop_repeats (merge_sort String.le files).

(** The loop of [read_files] over the names [os.listdir] gave.  For a name
    too short to have a fourteenth character the characters of the name are
    printed; the traceback that follows goes to the standard error stream,
    which the log does not hold. *)
Fixpoint read_files_loop (names : list string) (files : list string)
  : M (list string) :=
  match names with
  | [] => mret files
  | filename :: names =>
      match basefile_of filename with
      | Ret basefile =>
          _ ← print filename;
          read_files_loop names (files ++ [basefile])
      | Raise _ =>
          _ ← print (str_chars (list_ascii_of_string filename));
          read_files_loop names files
      end
  end.

(** [read_files(directory)]; [listing] is what [os.listdir(directory)]
    does: the names it returns, or the exception it raises. *)
Definition read_files (listing : result (list string)) : M (list string) :=
  names ← lift listing;
  files ← read_files_loop names [];
  mret (unique files).

(** ** run_HV *)

Section Driver.
Variable ext : Externals.
Variable o : Options.
Variable output_folder : string.

(** The body of [for i in np.arange(start, end, process_len)].  Opening the
    parameter file and writing the formatted text to it is one step. *)
Definition process_window (node_ID wf station : string) (i : Q) : M unit :=
  let time := i in
  _ ← print (utc_str ext time);
  let tStart := fmt_param (utc_date ext time) in
  let tStart_hv := fmt_hv (utc_date ext time) in
  let endtime := (time + inject_Z (process_len o))%Q in
  let tEnd := fmt_param (utc_date ext endtime) in
  let paramsString := get_paramString in
  text ← lift (format paramsString (format_kwargs o tStart tEnd));
  _ ← perform ext (WriteFile "geopsy-hv-auto.params" text);
  _ ← perform ext (MakeDirs (output_folder +:+ node_ID));
  _ ← perform ext
        (Call ["geopsy-hv"; "-hv"; wf; "-param"; "geopsy-hv-auto.params";
               "-o"; path_join output_folder node_ID]);
  _ ← print (node_ID +:+ " " +:+ station);
  _ ← perform ext
        (Renames
           (path_join output_folder (node_ID +:+ "/" +:+ station +:+ ".hv"))
           (path_join output_folder
              (node_ID +:+ "/" +:+ station +:+ "." +:+ tStart_hv +:+ ".hv")));
  _ ← perform ext
        (Renames
           (path_join output_folder (node_ID +:+ "/" +:+ station +:+ ".log"))
           (path_join output_folder
              (node_ID +:+ "/" +:+ station +:+ "." +:+ tStart_hv +:+ ".log")));
  _ ← (if want_rotation o then
         _ ← perform ext
               (Call ["geopsy-hv"; "-rotate"; wf; "-param";
                      "geopsy-hv-auto.params"; "-o";
                      path_join output_folder node_ID]);
         perform ext
           (Renames
              (path_join output_folder (node_ID +:+ "/" +:+ station +:+ ".hv"))
              (path_join output_folder
                 (node_ID +:+ "/" +:+ station +:+ "." +:+ tStart_hv
                    +:+ ".hv.grid")))
       else mret tt);
  print "**********************************".

(** The times [run_HV] iterates over for a trace. *)
Definition windows (tr : Trace) : result (list Q) :=
  arange (starttime tr) (endtime tr) (process_len o).

(** [run_HV(wf)]; [node_ID] is the global the main loop has set. *)
Definition run_HV (node_ID wf : string) : M unit :=
  st ← read ext wf;
  tr ← lift (getitem st 0);
  let start := starttime tr in
  let end_ := endtime tr in
  let station := network tr +:+ "_" +:+ station tr in
  _ ← print ("station: " +:+ station);
  let delta := (end_ - start)%Q in
  _ ← print ("start: " +:+ utc_str ext start);
  _ ← print ("end: " +:+ utc_str ext end_);
  n ← lift (int_of_quotient delta (process_len o));
  _ ← print ("We get " +:+ str_int n +:+ " .hv files of "
               +:+ str_int (process_len o) +:+ "s length out of stream");
  ws ← lift (windows tr);
  for_each ws (process_window node_ID wf station).

(** ** The main loop *)

(** The body of [for file in files]. *)
Definition process_file (file : string) : M unit :=
  node_ID ← lift (node_ID_of file);
  let wf := path_join directory file in
  _ ← print wf;
  try_except (run_HV node_ID wf).

(** The loop over the discovered base patterns and the last line of the
    script. *)
Definition main_loop (files : list string) : M unit :=
  _ ← for_each files process_file;
  print "Job Done".

(** What the specification says of the loop: every file is attempted in
    turn from where the attempt before it left the world, whatever its
    outcome was. *)
Definition attempt (log : list event) (file : string) : list event :=
  match node_ID_of file with
  | Ret node_ID =>
      let wf := path_join directory file in
      (run_HV node_ID wf (log ++ [Print wf])).2
  | Raise _ => log
  end.

Definition attempts (files : list string) (log : list event) : list event :=
  fold_left attempt files log.
End Driver.

(** ** The script from the folders on *)

(** Lines 256 to 277: [current_folder] is what [os.getcwd()] returned, [o]
    the options as parsed. *)
Definition script (ext : Externals) (o : Options) (current_folder : string)
    (listing : result (list string)) : M unit :=
  let output_folder := path_join current_folder "Analysed_Skience25/" in
  files ← read_files listing;
  main_loop ext o output_folder files.
End HVSR.

(** * What the statements speak of, and data for examples *)

Local Open Scope Q_scope.

(** Equality of two lists of vertices in exact arithmetic. *)
Definition same_vertices (l m : list (Q * Q)) : Prop :=
  Forall2 (fun p q => p.1 == q.1 /\ p.2 == q.2) l m.

(** Equality of two pairs of limits in exact arithmetic. *)
Definition same_limits (l m : Q * Q) : Prop := l.1 == m.1 /\ l.2 == m.2.

(** The radius [set_axes_equal] computes for an axis. *)
Definition plot_radius (ax : Geometry.Axes3D Q) : Q :=
  0.5 * Geometry.py_max (Qabs ((Geometry.xlim ax).2 - (Geometry.xlim ax).1))
          [Qabs ((Geometry.ylim ax).2 - (Geometry.ylim ax).1)].

(** The parameter set of section 8 of the specification. *)
Definition documented_kwargs : gmap string HVSR.pyval :=
  list_to_map
    [("tStart", HVSR.PyStr "20230101120000.00");
     ("tEnd", HVSR.PyStr "20230101130000.00");
     ("winLen", HVSR.PyInt 60);
     ("overlap", HVSR.PyInt 50);
     ("threshold", HVSR.PyStr "RelativeSampleThreshold");
     ("threshold_pct", HVSR.PyFloat "0.5");
     ("KO", HVSR.PyFloat "0.2");
     ("minFreq", HVSR.PyFloat "0.2");
     ("maxFreq", HVSR.PyInt 50);
     ("N_samples", HVSR.PyInt 500);
     ("horizontals", HVSR.PyStr "Squared");
     ("azimuth", HVSR.PyInt 0);
     ("rotSteps", HVSR.PyInt 10);
     ("rej_min_freq", HVSR.PyFloat "0.5");
     ("rej_max_freq", HVSR.PyInt 50);
     ("rej_stdev", HVSR.PyFloat "1.8");
     ("rej_it", HVSR.PyInt 500)].

(** A world for examples: every recording spans two hours from midnight of
    1 March 2025, reading a pattern of station BAD raises, and nothing else
    does. *)
Definition example_externals : HVSR.Externals :=
  {| HVSR.obspy_read wf log :=
       if String.eqb wf "Raw_Data/BE.BAD.00.HH.*.2025.060"
       then Raise (OtherError "Exception")
       else Ret [HVSR.mkTrace "BE" "UCCS" 0 7200];
     HVSR.raises e log := None;
     HVSR.utc_date t := HVSR.mkDate 2025 3 1 (Z.to_nat (Qfloor (t / 3600))) 0 0;
     HVSR.utc_str t := "2025-03-01T+" +:+ HVSR.str_int (Qfloor t) |}.

Definition example_files : list string :=
  ["BE.AAA.00.HH.*.2025.060"; "BE.BAD.00.HH.*.2025.060"; "BE.CCC.00.HH.*.2025.060"].

(** The waveform paths given to the calls of the external tool in HV mode. *)
Definition hv_calls (log : list HVSR.event) : list string :=
  omap (fun e => match e with
                 | HVSR.Call (_ :: "-hv" :: wf :: _) => Some wf
                 | _ => None
                 end) log.

(** Sixty channels one metre apart, each holding its own number. *)
Definition example_da : DAS.DataArray Q nat :=
  DAS.mkDataArray (map (fun i => inject_Z (Z.of_nat i)) (seq 0 60)) (seq 0 60).

(** Three segments end to end, from 0 to 10, 20 and 30 metres. *)
Definition table_without_gaps : list (list Q) :=
  [[1; 2; 0; 3; 4; 10]; [3; 4; 10; 5; 6; 20]; [5; 6; 20; 7; 8; 30]].

(** One segment, from 10 to 50 metres. *)
Definition table_of_one_segment : list (list Q) :=
  [[1; 2; 10; 3; 4; 50]].

Definition only_file (rows : list (list Q)) : gmap string (list (list Q)) :=
  {[ "good_segments.txt" := rows ]}.

(** Three segments end to end, from 5 to 15, 25 and 35 metres. *)
Definition table_of_the_caller : list (list Q) :=
  [[1; 2; 5; 3; 4; 15]; [3; 4; 15; 5; 6; 25]; [5; 6; 25; 7; 8; 35]].

(** Both tables, the caller's under a name of its own. *)
Definition two_files : gmap string (list (list Q)) :=
  {[ "good_segments.txt" := table_without_gaps;
     "my_segments.txt" := table_of_the_caller ]}.

(** The distance coordinate does not go down along the channels. *)
Definition nondecreasing (cs : list Q) : Prop :=
  forall i j a b, (i <= j)%nat -> cs !! i = Some a -> cs !! j = Some b -> a <= b.

Local Close Scope Q_scope.

(** ** What the further statements speak of *)

(** The width of a pair of limits. *)
Definition range_of (l : Q * Q) : Q := Qabs (l.2 - l.1)%Q.

(** The place and the height of a vertex in space. *)
Definition plan {R} (p : R * R * R) : R * R := p.1.
Definition height {R} (p : R * R * R) : R := p.2.

(** The same function of every channel of an array, and of a mapped
    array. *)
Definition on_channels {R T T'} (f : T -> T') (da : DAS.DataArray R T)
  : DAS.DataArray R T' :=
  DAS.mkDataArray (DAS.da_distance da) (map f (DAS.da_data da)).

Definition on_mapped {R T T'} (f : T -> T') (out : DAS.MappedArray R T)
  : DAS.MappedArray R T' :=
  DAS.mkMappedArray (map f (DAS.data out)) (DAS.distance out)
    (DAS.latitude out) (DAS.longitude out).

(** The nearest channels of the ends of the lines of a table. *)
Definition ranges_of {R} `{Number R} (channels : list R)
    (rows : list (list R)) : list (nat * nat) :=
  omap (DAS.row_range channels) rows.

(** The channels the second loop collects, by recursion on the ranges: a
    range gives its channels up to its end, and its end too when it is the
    last one or the next range starts at another channel. *)
Fixpoint stitch {T} (data : list T) (ranges : list (nat * nat)) : list T :=
  match ranges with
  | [] => []
  | r :: rest =>
      DAS.py_slice data r.1
        (match rest with
         | r' :: _ => if Nat.eqb r.2 r'.1 then r.2 else r.2 + 1
         | [] => r.2 + 1
         end)
        ++ stitch data rest
  end.

(** Of two lines one after the other, the second starts at another
    distance than the first ends at exactly when it starts at another
    channel: the two loops see the same gaps. *)
Fixpoint gaps_between_channels {R} `{Number R} (channels : list R)
    (rows : list (list R)) : bool :=
  match rows with
  | r :: (r' :: _) as rest =>
      match DAS.row_range channels r, DAS.row_range channels r' with
      | Some (_, i2), Some (i1', _) =>
          Bool.eqb (DAS.is_gap r r') (negb (Nat.eqb i2 i1'))
      | _, _ => false
      end && gaps_between_channels channels rest
  | _ => true
  end.

(** The gaps of a table that are no gaps between channels: a line starts
    at another distance than the line before ends at, and at the same
    channel. *)
Fixpoint hidden_gaps {R} `{Number R} (channels : list R)
    (rows : list (list R)) : nat :=
  match rows with
  | r :: (r' :: _) as rest =>
      match DAS.row_range channels r, DAS.row_range channels r' with
      | Some (_, i2), Some (i1', _) =>
          if DAS.is_gap r r' && Nat.eqb i2 i1' then 1 else 0
      | _, _ => 0
      end + hidden_gaps channels rest
  | _ => 0
  end.

(** A line that starts at another channel than the line before ends at
    starts at another distance too. *)
Fixpoint jumps_are_gaps {R} `{Number R} (channels : list R)
    (rows : list (list R)) : bool :=
  match rows with
  | r :: (r' :: _) as rest =>
      match DAS.row_range channels r, DAS.row_range channels r' with
      | Some (_, i2), Some (i1', _) => DAS.is_gap r r' || Nat.eqb i2 i1'
      | _, _ => false
      end && jumps_are_gaps channels rest
  | _ => true
  end.

(** A tie of index [idx] and distance [d], counted from [base], lies on
    the collected channel that is the raw channel nearest to [d]. *)
Definition on_nearest {R} `{Number R} {T} (channels : list R)
    (data out : list T) (base : Z) (idx : Z) (d : R) : Prop :=
  exists c, DAS.nearest channels d = Ret c
            /\ (base <= idx)%Z
            /\ c < length data
            /\ out !! Z.to_nat (idx - base) = data !! c.

(** The pattern of a listed name, when the name is long enough to have
    one, and the line [read_files] prints for the name. *)
Definition pattern_of (filename : string) : option string :=
  match HVSR.basefile_of filename with
  | Ret basefile => Some basefile
  | Raise _ => None
  end.

Definition listed_line (filename : string) : HVSR.event :=
  match HVSR.basefile_of filename with
  | Ret _ => HVSR.Print filename
  | Raise _ => HVSR.Print (HVSR.str_chars (list_ascii_of_string filename))
  end.

(** A listed name gives no pattern, or one with a dot. *)
Definition dotted_pattern (filename : string) : bool :=
  match HVSR.basefile_of filename with
  | Ret basefile => HVSR.contains "." basefile
  | Raise _ => true
  end.

(** A character that [repr] prints as itself inside either kind of quotes:
    printable ASCII other than the quotes and the backslash. *)
Definition plain_char (c : ascii) : bool :=
  let n := nat_of_ascii c in
  Nat.leb 32 n && Nat.ltb n 127
  && negb (Ascii.eqb c "'") && negb (Ascii.eqb c HVSR.dquote)
  && negb (Ascii.eqb c HVSR.backslash).

Fixpoint plain (s : string) : bool :=
  match s with
  | EmptyString => true
  | String c s => plain_char c && plain s
  end.

(** What the script may do to the world, for the options [o] and the
    output folder [out]. *)
Definition allowed (o : HVSR.Options) (out : string) (e : HVSR.event) : Prop :=
  match e with
  | HVSR.Print _ => True
  | HVSR.WriteFile path _ => path = "geopsy-hv-auto.params"
  | HVSR.MakeDirs path => exists node_ID, path = out +:+ node_ID
  | HVSR.Call argv =>
      exists mode wf node_ID,
        argv = ["geopsy-hv"; mode; wf; "-param"; "geopsy-hv-auto.params"; "-o";
                HVSR.path_join out node_ID]
        /\ (mode = "-hv" \/ (mode = "-rotate" /\ HVSR.want_rotation o = true))
  | HVSR.Renames old new =>
      exists node_ID station stamp ext ext',
        old = HVSR.path_join out (node_ID +:+ "/" +:+ station +:+ ext)
        /\ new = HVSR.path_join out
                   (node_ID +:+ "/" +:+ station +:+ "." +:+ stamp +:+ ext')
        /\ ((ext = ".hv" /\ ext' = ".hv") \/ (ext = ".log" /\ ext' = ".log")
            \/ (ext = ".hv" /\ ext' = ".hv.grid"
                /\ HVSR.want_rotation o = true))
  end.

(** A command adds to the log only events that [P] holds of. *)
Definition only (P : HVSR.event -> Prop) {A} (m : HVSR.M A) : Prop :=
  forall log, exists new, (m log).2 = log ++ new /\ Forall P new.

(** The line [run_HV] prints before its loop. *)
Definition announced (n process_len : Z) : string :=
  "We get " +:+ HVSR.str_int n +:+ " .hv files of "
    +:+ HVSR.str_int process_len +:+ "s length out of stream".

(** What is done to the world apart from printing. *)
Definition effects (log : list HVSR.event) : list HVSR.event :=
  omap (fun e => match e with HVSR.Print _ => None | _ => Some e end) log.

(** The events of a window in a world where nothing raises, in their
    order; [folder] is the folder of the node. *)
Definition window_events (o : HVSR.Options) (folder wf node_ID station : string)
    (now stamp text : string) : list HVSR.event :=
  [HVSR.Print now;
   HVSR.WriteFile "geopsy-hv-auto.params" text;
   HVSR.MakeDirs folder;
   HVSR.Call ["geopsy-hv"; "-hv"; wf; "-param"; "geopsy-hv-auto.params";
              "-o"; folder];
   HVSR.Print (node_ID +:+ " " +:+ station);
   HVSR.Renames (folder +:+ "/" +:+ station +:+ ".hv")
     (folder +:+ "/" +:+ station +:+ "." +:+ stamp +:+ ".hv");
   HVSR.Renames (folder +:+ "/" +:+ station +:+ ".log")
     (folder +:+ "/" +:+ station +:+ "." +:+ stamp +:+ ".log")]
  ++ (if HVSR.want_rotation o then
        [HVSR.Call ["geopsy-hv"; "-rotate"; wf; "-param";
                    "geopsy-hv-auto.params"; "-o"; folder];
         HVSR.Renames (folder +:+ "/" +:+ station +:+ ".hv")
           (folder +:+ "/" +:+ station +:+ "." +:+ stamp +:+ ".hv.grid")]
      else [])
  ++ [HVSR.Print "**********************************"].

(** The fields of a date that are printed with two digits have no more. *)
Definition two_digits (d : HVSR.Date) : bool :=
  Nat.ltb (HVSR.month d) 100 && Nat.ltb (HVSR.day d) 100
  && Nat.ltb (HVSR.hour d) 100 && Nat.ltb (HVSR.minute d) 100
  && Nat.ltb (HVSR.second d) 100.

(** ** More data for examples *)

(** Three segments, the second starting five metres after the end of the
    first. *)
Definition table_with_a_gap : list (list Q) :=
  [[1; 2; 0; 3; 4; 10]; [3; 4; 15; 5; 6; 25]; [5; 6; 25; 7; 8; 30]]%Q.


(** Two segments with a gap of 0.2 m between them, which is less than the
    spacing of the channels. *)
Definition table_with_a_hidden_gap : list (list Q) :=
  [[1; 2; 0; 3; 4; 10.2]; [3; 4; 10.4; 5; 6; 20]]%Q.

(** The three components of one recording. *)
Definition component_files : list string :=
  ["BE.UCCS.00.HHE.2025.060"; "BE.UCCS.00.HHN.2025.060";
   "BE.UCCS.00.HHZ.2025.060"].

(** A world in which nothing raises and every recording runs from 0 s to
    [length] s. *)
Definition quiet_world (length : Q) : HVSR.Externals :=
  {| HVSR.obspy_read wf log := Ret [HVSR.mkTrace "BE" "UCCS" 0 length];
     HVSR.raises e log := None;
     HVSR.utc_date t :=
       HVSR.mkDate 2025 3 1 (Z.to_nat (Qfloor (t / 3600))) 0 0;
     HVSR.utc_str t := "2025-03-01T+" +:+ HVSR.str_int (Qfloor t) |}.

(** The default options with another [process_len]. *)
Definition options_with (process_len : Z) : HVSR.Options :=
  {| HVSR.process_len := process_len;
     HVSR.time_window_len := HVSR.time_window_len HVSR.default_options;
     HVSR.threshold_pct := HVSR.threshold_pct HVSR.default_options;
     HVSR.win_overlap := HVSR.win_overlap HVSR.default_options;
     HVSR.KO := HVSR.KO HVSR.default_options;
     HVSR.min_freq := HVSR.min_freq HVSR.default_options;
     HVSR.max_freq := HVSR.max_freq HVSR.default_options;
     HVSR.N_samples := HVSR.N_samples HVSR.default_options;
     HVSR.want_rotation := HVSR.want_rotation HVSR.default_options;
     HVSR.rotation_steps := HVSR.rotation_steps HVSR.default_options |}.

(** * Properties of functions_MA.py *)

Section GeometryFacts.
Import Geometry.
Local Open Scope Q_scope.

Lemma pairs_eqb_same_vertices (l m : list (Q * Q)) :
  pairs_eqb l m = true -> same_vertices l m.
Proof.
  revert m; induction l as [|p l IH]; intros [|q m] E; simpl in E;
    try discriminate; constructor.
  - apply andb_prop in E as [E _]. apply andb_prop in E as [E1 E2].
    split; apply Qeq_bool_iff; assumption.
  - apply IH. apply andb_prop in E as [_ E]. exact E.
Qed.

(** The binary64 literals of the model are the doubles a parser of decimal
    text reads: the quotient taken by [lit] rounds as the parser does. *)
Remark binary64_literals :
  survey_vertices
  = [(681443.103, 248954.576); (681429.922, 248934.161);
     (681431.376, 248912.610); (681426.233, 248895.830);
     (681447.497, 248889.417); (681460.536, 248909.601);
     (681459.040, 248927.087); (681462.783, 248942.503)]%float
  /\ (lit 681437.8, lit 248919.2) = (681437.8, 248919.2)%float
  /\ (lit 0.5, lit 0.1, lit 0.3) = (0.5, 0.1, 0.3)%float.
Proof. vm_compute. repeat split; reflexivity. Qed.

(** C7.  With the origin at the survey's own origin and [mult = 1],
    [roof_edges2D] returns the eight survey vertices as written in the
    source, in the order N, E_1, E_2, W, S, E_5, E_6, E: bit for bit in
    binary64, and as rationals in exact arithmetic; the first vertex is
    (681443.103, 248954.576). *)
Theorem roof_edges2D_at_survey_origin :
  roof_edges2D (R:=float) (lit 1) (lit 248919.2) (lit 681437.8) = survey_vertices
  /\ same_vertices
       (roof_edges2D (R:=Q) (lit 1) (lit 248919.2) (lit 681437.8)) survey_vertices
  /\ head (roof_edges2D (R:=float) (lit 1) (lit 248919.2) (lit 681437.8))
     = Some (lit 681443.103, lit 248954.576)
  /\ length (roof_edges2D (R:=float) (lit 1) (lit 248919.2) (lit 681437.8)) = 8%nat.
Proof.
  split; [vm_compute; reflexivity|].
  split; [apply pairs_eqb_same_vertices; vm_compute; reflexivity|].
  split; vm_compute; reflexivity.
Qed.

(** C8.  With [Lat = Lon = 0], every coordinate of every vertex of
    [roof_edges2D(mult=2)] is twice the coordinate of
    [roof_edges2D(mult=1)], in binary64 and in exact arithmetic. *)
Theorem roof_edges2D_mult_2_doubles :
  roof_edges2D (R:=float) (lit 2) (lit 0) (lit 0)
  = scale (lit 2) (roof_edges2D (R:=float) (lit 1) (lit 0) (lit 0))
  /\ same_vertices (roof_edges2D (R:=Q) (lit 2) (lit 0) (lit 0))
       (scale (lit 2) (roof_edges2D (R:=Q) (lit 1) (lit 0) (lit 0))).
Proof.
  split; [vm_compute; reflexivity|].
  apply pairs_eqb_same_vertices; vm_compute; reflexivity.
Qed.

(** C10.  In exact arithmetic and with [mult = 1], the vertices for an
    origin [(Lat, Lon)] are the vertices for the origin [(0, 0)] moved by
    [(Lon, Lat)]. *)
Theorem roof_edges2D_translates (Lat Lon : Q) :
  same_vertices (roof_edges2D (lit 1) Lat Lon)
    (translate Lon Lat (roof_edges2D (lit 1) (lit 0) (lit 0))).
Proof.
  unfold same_vertices, roof_edges2D, translate; simpl.
  repeat (constructor; [split; simpl; ring|]).
  constructor.
Qed.

(** In binary64 the same translation is exact only up to rounding. *)
Remark roof_edges2D_translation_rounds_in_binary64 :
  pairs_eqb (roof_edges2D (R:=float) (lit 1) (lit 0.1) (lit 0.1))
    (translate (lit 0.1) (lit 0.1) (roof_edges2D (lit 1) (lit 0) (lit 0)))
  = false.
Proof. vm_compute. reflexivity. Qed.

(** [set_axes_equal] never writes the Z limits, whatever the arithmetic. *)
Lemma set_axes_equal_zlim {R} `{Number R} (ax : Axes3D R) :
  zlim (set_axes_equal ax) = zlim ax.
Proof. reflexivity. Qed.

(** The radius of the plot is not negative. *)
Lemma py_max_abs_nonneg (a b : Q) : 0 <= py_max (Qabs a) [Qabs b].
Proof.
  unfold py_max; simpl.
  destruct (negb (Qle_bool (Qabs b) (Qabs a))); apply Qabs_nonneg.
Qed.

(** The largest of two equal ranges is that range. *)
Lemma py_max_same (a b c : Q) : a == c -> b == c -> py_max a [b] == c.
Proof.
  intros Ha Hb. unfold py_max; simpl.
  destruct (negb (Qle_bool b a)); assumption.
Qed.

Lemma range_of_centred (m r : Q) : 0 <= r -> Qabs ((m + r) - (m - r)) == 2 * r.
Proof.
  intros Hr.
  assert (E : (m + r) - (m - r) == 2 * r) by ring.
  rewrite E. apply Qabs_pos. apply Qmult_le_0_compat; [discriminate | exact Hr].
Qed.

Lemma middle_of_centred (m r : Q) : ((m - r) + (m + r)) / 2 == m.
Proof. field. Qed.

Lemma set_axes_equal_limits (ax : Axes3D Q) :
  set_axes_equal ax
  = {| xlim := (mean2 (xlim ax) - plot_radius ax, mean2 (xlim ax) + plot_radius ax);
       ylim := (mean2 (ylim ax) - plot_radius ax, mean2 (ylim ax) + plot_radius ax);
       zlim := zlim ax |}.
Proof. reflexivity. Qed.

Lemma plot_radius_nonneg (ax : Axes3D Q) : 0 <= plot_radius ax.
Proof.
  apply Qmult_le_0_compat; [discriminate | apply py_max_abs_nonneg].
Qed.

(** After one application both ranges are twice the radius, so the radius
    computed by a second application is the same. *)
Lemma plot_radius_idempotent (ax : Axes3D Q) :
  plot_radius (set_axes_equal ax) == plot_radius ax.
Proof.
  rewrite set_axes_equal_limits. unfold plot_radius at 1. cbn [xlim ylim fst snd].
  assert (H : py_max (Qabs (mean2 (xlim ax) + plot_radius ax
                            - (mean2 (xlim ax) - plot_radius ax)))
                [Qabs (mean2 (ylim ax) + plot_radius ax
                       - (mean2 (ylim ax) - plot_radius ax))]
              == 2 * plot_radius ax).
  { apply py_max_same; apply range_of_centred; apply plot_radius_nonneg. }
  rewrite H. field.
Qed.

(** One application keeps the middles of both pairs of limits. *)
Lemma middle_idempotent (ax : Axes3D Q) :
  mean2 (xlim (set_axes_equal ax)) == mean2 (xlim ax)
  /\ mean2 (ylim (set_axes_equal ax)) == mean2 (ylim ax).
Proof.
  rewrite set_axes_equal_limits; cbn [xlim ylim].
  split; apply middle_of_centred.
Qed.

(** C9 (amended).  In exact arithmetic [set_axes_equal] is idempotent: a
    second application leaves the X and Y limits the first one set; and in
    any arithmetic neither application changes the Z limits. *)
Theorem set_axes_equal_idempotent_exact :
  (forall ax : Axes3D Q,
      same_limits (xlim (set_axes_equal (set_axes_equal ax)))
                  (xlim (set_axes_equal ax))
      /\ same_limits (ylim (set_axes_equal (set_axes_equal ax)))
                     (ylim (set_axes_equal ax)))
  /\ (forall (R : Type) (N : Number R) (ax : Axes3D R),
         zlim (set_axes_equal ax) = zlim ax
         /\ zlim (set_axes_equal (set_axes_equal ax)) = zlim ax).
Proof.
  split; [|intros R N ax; split; reflexivity].
  intros ax.
  pose proof (plot_radius_idempotent ax) as Hr.
  pose proof (middle_idempotent ax) as [Hx Hy].
  rewrite (set_axes_equal_limits (set_axes_equal ax)).
  unfold same_limits; cbn [xlim ylim fst snd nsub nadd exact].
  rewrite Hr, Hx, Hy.
  repeat split; reflexivity.
Qed.

(** C9 as stated fails in binary64, the arithmetic of the code: for the
    limits X = (1, 2) and Y = (0.1, 0.3) the first application sets the
    lower Y limit to -0.3 and the second moves it to
    -0.30000000000000004. *)
Lemma set_axes_equal_twice_differs_in_binary64 :
  let ax : Axes3D float := mkAxes3D (lit 1, lit 2) (lit 0.1, lit 0.3) (lit 0, lit 1) in
  ylim (set_axes_equal ax) = ((-0.3)%float, 0.7%float)
  /\ ylim (set_axes_equal (set_axes_equal ax))
     = ((-0.30000000000000004)%float, 0.7%float)
  /\ pair_eqb (ylim (set_axes_equal (set_axes_equal ax)))
              (ylim (set_axes_equal ax)) = false.
Proof. vm_compute. repeat split; reflexivity. Qed.
End GeometryFacts.

(** * Properties of Auto_process_HV.py *)

Section ParamStringFacts.
Import HVSR.

Lemma get_field_ext (kw1 kw2 : gmap string pyval) (name : string) :
  kw1 !! name = kw2 !! name -> get_field kw1 name = get_field kw2 name.
Proof. unfold get_field. intros ->. reflexivity. Qed.

(** [format] reads its keyword arguments only at the fields of the
    template. *)
Lemma format_from_ext (n : nat) :
  forall (s : string) (field : option string) (kw1 kw2 : gmap string pyval),
    String.length s <= n ->
    (forall f, In f (fields_from s field) -> kw1 !! f = kw2 !! f) ->
    format_from s field kw1 = format_from s field kw2.
Proof.
  induction n as [|n IH]; intros s field kw1 kw2 Hn H.
  - destruct s; [|simpl in Hn; lia]. destruct field; reflexivity.
  - destruct s as [|c s']; [destruct field; reflexivity|].
    simpl in Hn. destruct field as [name|]; simpl in *.
    + destruct (Ascii.eqb c "}").
      * rewrite (get_field_ext kw1 kw2 name) by (apply H; left; reflexivity).
        rewrite (IH s' None kw1 kw2) by (try lia; intros; apply H; right; assumption).
        reflexivity.
      * destruct (Ascii.eqb c "{"); [reflexivity|].
        destruct (beyond_simple_field c); [reflexivity|].
        apply IH; [lia | assumption].
    + destruct (Ascii.eqb c "{").
      * destruct s' as [|c' s'']; [reflexivity|].
        simpl in Hn. destruct (Ascii.eqb c' "{").
        -- rewrite (IH s'' None kw1 kw2) by (try lia; assumption). reflexivity.
        -- apply IH; [simpl; lia | assumption].
      * destruct (Ascii.eqb c "}").
        -- destruct s' as [|c' s'']; [reflexivity|].
           simpl in Hn. destruct (Ascii.eqb c' "}"); [|reflexivity].
           rewrite (IH s'' None kw1 kw2) by (try lia; assumption). reflexivity.
        -- rewrite (IH s' None kw1 kw2) by (try lia; assumption). reflexivity.
Qed.

(** C5.  Formatting the template is a function of the values given to
    its seventeen fields: two assignments that agree on them give the same
    text.  For the documented assignment ([winLen = 60], [KO = 0.2]) the
    text has the lines [WINDOW_MIN_LENGTH(s)=60], [WINDOW_MAX_LENGTH(s)=60]
    and [SMOOTHING_WIDTH=0.2], and the first line of the template is
    [PARAMETERS_VERSION=1] followed by four spaces. *)
Theorem get_paramString_format :
  (forall kw1 kw2 : gmap string pyval,
      (forall f, In f (fields get_paramString) -> kw1 !! f = kw2 !! f) ->
      format get_paramString kw1 = format get_paramString kw2)
  /\ (exists text,
         format get_paramString documented_kwargs = Ret text
         /\ In "WINDOW_MIN_LENGTH(s)=60" (lines text)
         /\ In "WINDOW_MAX_LENGTH(s)=60" (lines text)
         /\ In "SMOOTHING_WIDTH=0.2" (lines text)
         /\ head (lines text) = Some "PARAMETERS_VERSION=1    ")
  /\ head (lines get_paramString) = Some "PARAMETERS_VERSION=1    "
  /\ fields get_paramString
     = ["tStart"; "tEnd"; "winLen"; "winLen"; "overlap"; "threshold";
        "threshold_pct"; "KO"; "minFreq"; "maxFreq"; "N_samples";
        "horizontals"; "azimuth"; "rotSteps"; "rej_min_freq";
        "rej_max_freq"; "rej_stdev"; "rej_it"].
Proof.
  split.
  { intros kw1 kw2 H. unfold format.
    apply (format_from_ext (String.length get_paramString)); [lia | exact H]. }
  split.
  { eexists. split; [vm_compute; reflexivity|].
    repeat split; vm_compute; tauto. }
  split; vm_compute; reflexivity.
Qed.
End ParamStringFacts.

Section QuietRunFacts.
Import HVSR.

Variable ext : Externals.
Variable o : Options.
Variable output_folder : string.

(** Nothing the driver does to the world raises. *)
Hypothesis quiet : forall e log, raises ext e log = None.

Lemma M_bind_ret {A B} (m : M A) (f : A -> M B) (log log' : list event) (a : A) :
  m log = (Ret a, log') -> (m ≫= f) log = f a log'.
Proof. intros E. unfold mbind, M_bind. rewrite E. reflexivity. Qed.

Lemma perform_quiet (e : event) (log : list event) :
  perform ext e log = (Ret tt, log ++ [e]).
Proof. unfold perform. rewrite quiet. reflexivity. Qed.

Ltac run_quiet :=
  first [ apply perform_quiet
        | erewrite M_bind_ret; [|run_quiet]; run_quiet
        | reflexivity ].

(** The call of [format] in [run_HV] gives every field of the template a
    value: it returns. *)
Lemma format_kwargs_total (tStart tEnd : string) :
  exists text, format get_paramString (format_kwargs o tStart tEnd) = Ret text.
Proof. eexists. vm_compute. reflexivity. Qed.

Lemma hv_calls_app (l1 l2 : list event) :
  hv_calls (l1 ++ l2) = hv_calls l1 ++ hv_calls l2.
Proof. apply omap_app. Qed.

(** A window in a quiet world: the external tool is called once in HV
    mode. *)
Lemma process_window_quiet (node_ID wf station : string) (i : Q)
    (log : list event) :
  exists log',
    process_window ext o output_folder node_ID wf station i log = (Ret tt, log')
    /\ hv_calls log' = hv_calls log ++ [wf].
Proof.
  unfold process_window.
  destruct (format_kwargs_total
              (fmt_param (utc_date ext i))
              (fmt_param (utc_date ext (i + inject_Z (process_len o))%Q)))
    as [text E].
  cbn zeta. rewrite E.
  destruct (want_rotation o).
  - eexists. split.
    + run_quiet.
    + rewrite !hv_calls_app. cbn. rewrite !app_nil_r. reflexivity.
  - eexists. split.
    + run_quiet.
    + rewrite !hv_calls_app. cbn. rewrite !app_nil_r. reflexivity.
Qed.

Lemma for_each_windows_quiet (node_ID wf station : string) (ws : list Q) :
  forall log,
  exists log',
    for_each ws (process_window ext o output_folder node_ID wf station) log
    = (Ret tt, log')
    /\ hv_calls log' = hv_calls log ++ replicate (length ws) wf.
Proof.
  induction ws as [|w ws IH]; intros log.
  - exists log. split; [reflexivity|]. cbn. rewrite app_nil_r. reflexivity.
  - destruct (process_window_quiet node_ID wf station w log) as (log1 & E1 & H1).
    destruct (IH log1) as (log2 & E2 & H2).
    exists log2. split.
    + cbn [for_each]. erewrite M_bind_ret; [|exact E1]. exact E2.
    + rewrite H2, H1, <- app_assoc. reflexivity.
Qed.

(** In a quiet world [run_HV] returns, having called the external tool in
    HV mode once for each of the windows of the first trace. *)
Lemma run_HV_quiet (node_ID wf : string) (log : list event) (tr : Trace)
    (others : list Trace) :
  obspy_read ext wf log = Ret (tr :: others) ->
  process_len o <> 0%Z ->
  exists ws log',
    windows o tr = Ret ws
    /\ run_HV ext o output_folder node_ID wf log = (Ret tt, log')
    /\ hv_calls log' = hv_calls log ++ replicate (length ws) wf.
Proof.
  intros Hread Hp.
  assert (Hw : exists ws, windows o tr = Ret ws).
  { unfold windows, arange. destruct (Z.eqb_spec (process_len o) 0); [contradiction|].
    eexists; reflexivity. }
  destruct Hw as [ws Hw].
  set (log0 := log ++ [Print ("station: " +:+ (network tr +:+ "_" +:+ station tr))]
                 ++ [Print ("start: " +:+ utc_str ext (starttime tr))]
                 ++ [Print ("end: " +:+ utc_str ext (endtime tr))]).
  assert (Hq : exists n, int_of_quotient (endtime tr - starttime tr) (process_len o) = Ret n).
  { unfold int_of_quotient. destruct (Z.eqb_spec (process_len o) 0); [contradiction|].
    eexists; reflexivity. }
  destruct Hq as [n Hq].
  destruct (for_each_windows_quiet node_ID wf (network tr +:+ "_" +:+ station tr) ws
              (log0 ++ [Print ("We get " +:+ str_int n +:+ " .hv files of "
                                 +:+ str_int (process_len o)
                                 +:+ "s length out of stream")]))
    as (log' & E & H).
  exists ws, log'. split; [exact Hw|]. split.
  - unfold run_HV.
    erewrite M_bind_ret; [|unfold read; rewrite Hread; reflexivity].
    erewrite M_bind_ret; [|reflexivity]. cbn zeta.
    erewrite M_bind_ret; [|reflexivity].
    erewrite M_bind_ret; [|reflexivity].
    erewrite M_bind_ret; [|reflexivity].
    erewrite M_bind_ret; [|unfold lift; rewrite Hq; reflexivity].
    erewrite M_bind_ret; [|reflexivity].
    erewrite M_bind_ret; [|unfold lift; rewrite Hw; reflexivity].
    rewrite <- E. unfold log0. rewrite <- !app_assoc. reflexivity.
  - rewrite H. unfold log0. rewrite !hv_calls_app. cbn. rewrite !app_nil_r. reflexivity.
Qed.
End QuietRunFacts.

Section WindowFacts.
Import HVSR.
Local Open Scope Q_scope.

Lemma fill_length (prev delta : Q) (n : nat) : length (fill prev delta n) = n.
Proof. revert prev; induction n as [|n IH]; intros prev; simpl; [|rewrite IH]; reflexivity. Qed.

(** Item [k] of [fill prev delta n] is [prev] plus [k + 1] times [delta]. *)
Lemma fill_lookup (n : nat) :
  forall (prev delta : Q) (k : nat) (w : Q),
    fill prev delta n !! k = Some w ->
    w == prev + inject_Z (Z.of_nat (S k)) * delta.
Proof.
  induction n as [|n IH]; intros prev delta k w H; [discriminate|].
  destruct k as [|k]; simpl in H.
  - injection H as <-. change (inject_Z (Z.of_nat 1)) with 1. ring.
  - apply IH in H. rewrite H.
    rewrite !Nat2Z.inj_succ. unfold Z.succ. rewrite !inject_Z_plus.
    change (inject_Z 1) with 1. ring.
Qed.

(** What [np.arange] returns for a step that is not zero. *)
Lemma arange_items (start stop : Q) (step : Z) :
  step <> 0%Z ->
  exists ws,
    arange start stop step = Ret ws
    /\ length ws = Z.to_nat (Qceiling ((stop - start) / inject_Z step))
    /\ forall k w, ws !! k = Some w ->
                   w == start + inject_Z (Z.of_nat k) * inject_Z step.
Proof.
  intros Hstep. unfold arange.
  destruct (Z.eqb_spec step 0) as [E|_]; [contradiction|].
  eexists; split; [reflexivity|].
  destruct (Z.to_nat (Qceiling ((stop - start) / inject_Z step))) as [|[|n]].
  - split; [reflexivity|]. intros k w H; discriminate.
  - split; [reflexivity|]. intros [|k] w H; [|discriminate].
    injection H as <-. change (inject_Z (Z.of_nat 0)) with 0. ring.
  - split; [simpl; rewrite fill_length; reflexivity|].
    intros [|[|k]] w H; simpl in H.
    + injection H as <-. change (inject_Z (Z.of_nat 0)) with 0. ring.
    + injection H as <-. change (inject_Z (Z.of_nat 1)) with 1. ring.
    + apply fill_lookup in H. rewrite H.
      rewrite !Nat2Z.inj_succ. unfold Z.succ. rewrite !inject_Z_plus.
      change (inject_Z 1) with 1. ring.
Qed.

Lemma Qceiling_nonneg (q : Q) : 0 <= q -> (0 <= Qceiling q)%Z.
Proof.
  intros H. change 0%Z with (Qceiling 0). apply Qceiling_resp_le. exact H.
Qed.

(** C4.  For a trace that does not end before it starts and a positive
    [process_len], [run_HV] iterates over [ceil((end - start) / process_len)]
    windows, window [k] starting at [start + k * process_len]; a trace of
    exactly 7200 s with [process_len = 3600] gives two windows, starting at
    [start] and at [start + 3600].  When nothing raises, [run_HV] returns
    having called the external tool in HV mode once for each of them.  Times
    are taken exactly. *)
Theorem run_HV_windows (ext : Externals) (o : Options)
    (output_folder node_ID wf : string) (log : list event)
    (tr : Trace) (others : list Trace) :
  (0 < process_len o)%Z ->
  starttime tr <= endtime tr ->
  exists ws,
    windows o tr = Ret ws
    /\ Z.of_nat (length ws)
       = Qceiling ((endtime tr - starttime tr) / inject_Z (process_len o))
    /\ (forall k w, ws !! k = Some w ->
                    w == starttime tr + inject_Z (Z.of_nat k) * inject_Z (process_len o))
    /\ (process_len o = 3600%Z -> endtime tr - starttime tr == 7200 ->
        exists w0 w1, ws = [w0; w1] /\ w0 == starttime tr
                      /\ w1 == starttime tr + 3600)
    /\ ((forall e l, raises ext e l = None) ->
        obspy_read ext wf log = Ret (tr :: others) ->
        exists log',
          run_HV ext o output_folder node_ID wf log = (Ret tt, log')
          /\ hv_calls log' = hv_calls log ++ replicate (length ws) wf).
Proof.
  intros Hp Hse. unfold windows.
  destruct (arange_items (starttime tr) (endtime tr) (process_len o))
    as (ws & E & Hlen & Hk); [lia|].
  exists ws. split; [exact E|]. split; [|split; [exact Hk|split]].
  - rewrite Hlen. apply Z2Nat.id. apply Qceiling_nonneg.
    apply Qle_shift_div_l.
    + change 0 with (inject_Z 0). rewrite <- Zlt_Qlt. exact Hp.
    + rewrite Qmult_0_l. unfold Qminus. rewrite <- Qle_minus_iff. exact Hse.
  - intros E36 E72. rewrite E36 in *.
    assert (Hc : Qceiling ((endtime tr - starttime tr) / inject_Z 3600) = 2%Z).
    { rewrite E72. reflexivity. }
    rewrite Hc in Hlen. change (Z.to_nat 2) with 2%nat in Hlen.
    destruct ws as [|w0 [|w1 [|w2 ws]]]; try discriminate.
    exists w0, w1. split; [reflexivity|]. split.
    + rewrite (Hk 0%nat w0 eq_refl). change (inject_Z (Z.of_nat 0)) with 0. ring.
    + rewrite (Hk 1%nat w1 eq_refl). change (inject_Z (Z.of_nat 1)) with 1. ring.
  - intros Hquiet Hread.
    destruct (run_HV_quiet ext o output_folder Hquiet node_ID wf log tr others Hread)
      as (ws' & log' & Ew & Er & Hc); [lia|].
    unfold windows in Ew. rewrite E in Ew. injection Ew as <-.
    exists log'. split; assumption.
Qed.

(** The first example pattern, recorded from 0 s to 7200 s, with the default
    options: two windows, and two calls of the external tool. *)
Lemma run_HV_windows_witness :
  exists ws,
    windows default_options (mkTrace "BE" "UCCS" 0 7200) = Ret ws
    /\ Z.of_nat (length ws) = 2%Z
    /\ hv_calls (run_HV example_externals default_options
                   "/data/Analysed_Skience25/" "AAA"
                   "Raw_Data/BE.AAA.00.HH.*.2025.060" []).2
       = ["Raw_Data/BE.AAA.00.HH.*.2025.060"; "Raw_Data/BE.AAA.00.HH.*.2025.060"].
Proof.
  destruct (run_HV_windows example_externals default_options
              "/data/Analysed_Skience25/" "AAA"
              "Raw_Data/BE.AAA.00.HH.*.2025.060" []
              (mkTrace "BE" "UCCS" 0 7200) [])
    as (ws & E & Hlen & _ & _ & Hrun).
  - reflexivity.
  - discriminate.
  - exists ws. split; [exact E|].
    assert (H2 : Z.of_nat (length ws) = 2%Z) by (rewrite Hlen; reflexivity).
    split; [exact H2|].
    destruct Hrun as (log' & Er & Hc); [reflexivity | reflexivity |].
    rewrite Er. cbn [snd]. rewrite Hc.
    replace (length ws) with 2%nat by lia. reflexivity.
Defined.
End WindowFacts.

Section MainLoopFacts.
Import HVSR.

Variable ext : Externals.
Variable o : Options.
Variable output_folder : string.

(** A file whose node identifier can be derived is attempted, and the loop
    goes on whatever [run_HV] did. *)
Lemma process_file_attempt (file : string) (log : list event) :
  returned (node_ID_of file) = true ->
  process_file ext o output_folder file log
  = (Ret tt, attempt ext o output_folder log file).
Proof.
  unfold process_file, attempt. intros H.
  destruct (node_ID_of file) as [node_ID|e]; [|discriminate].
  reflexivity.
Qed.

Lemma for_each_attempts (files : list string) :
  forall log,
    Forall (fun f => returned (node_ID_of f) = true) files ->
    for_each files (process_file ext o output_folder) log
    = (Ret tt, attempts ext o output_folder files log).
Proof.
  induction files as [|f files IH]; intros log H; [reflexivity|].
  inversion H as [|? ? Hf Hfs]; subst.
  change (for_each (f :: files) (process_file ext o output_folder) log)
    with (match process_file ext o output_folder f log with
          | (Ret _, log') => for_each files (process_file ext o output_folder) log'
          | (Raise e, log') => (Raise e, log')
          end).
  rewrite (process_file_attempt f log Hf).
  rewrite (IH _ Hfs). reflexivity.
Qed.

(** C6.  When the node identifier of every discovered base pattern can be
    derived, the main loop attempts every pattern in turn, each from the
    state the attempt before it left, whatever [run_HV] raised, and then
    prints [Job Done].  With three patterns of which the second raises
    inside [run_HV], the first has been run to its end before, the third is
    run to its end after, and [Job Done] is the last line. *)
Theorem main_loop_best_effort (files : list string) (log : list event) :
  Forall (fun f => returned (node_ID_of f) = true) files ->
  main_loop ext o output_folder files log
  = (Ret tt, attempts ext o output_folder files log ++ [Print "Job Done"])
  /\ (forall f1 f2 f3 id1 id2 id3 e,
         files = [f1; f2; f3] ->
         node_ID_of f1 = Ret id1 -> node_ID_of f2 = Ret id2 ->
         node_ID_of f3 = Ret id3 ->
         let run id f l :=
           run_HV ext o output_folder id (path_join directory f)
             (l ++ [Print (path_join directory f)]) in
         (run id2 f2 (run id1 f1 log).2).1 = Raise e ->
         main_loop ext o output_folder files log
         = (Ret tt,
            (run id3 f3 (run id2 f2 (run id1 f1 log).2).2).2
              ++ [Print "Job Done"])).
Proof.
  intros H.
  assert (E : main_loop ext o output_folder files log
              = (Ret tt, attempts ext o output_folder files log ++ [Print "Job Done"])).
  { unfold main_loop.
    change ((for_each files (process_file ext o output_folder)
               ≫= (fun _ => print "Job Done")) log)
      with (match for_each files (process_file ext o output_folder) log with
            | (Ret _, log') => print "Job Done" log'
            | (Raise e, log') => (Raise e, log')
            end).
    rewrite (for_each_attempts files log H). reflexivity. }
  split; [exact E|].
  intros f1 f2 f3 id1 id2 id3 e -> E1 E2 E3 run _.
  rewrite E. unfold attempts, attempt; simpl.
  rewrite E1, E2, E3. reflexivity.
Qed.
End MainLoopFacts.

(** Three patterns, the second of which cannot be read: both windows of the
    first and of the third are computed, none of the second, and the last
    line printed is [Job Done]. *)
Lemma main_loop_best_effort_witness :
  let out := HVSR.main_loop example_externals HVSR.default_options
               "/data/Analysed_Skience25/" example_files [] in
  out.1 = Ret tt
  /\ hv_calls out.2
     = ["Raw_Data/BE.AAA.00.HH.*.2025.060"; "Raw_Data/BE.AAA.00.HH.*.2025.060";
        "Raw_Data/BE.CCC.00.HH.*.2025.060"; "Raw_Data/BE.CCC.00.HH.*.2025.060"]
  /\ last out.2 = Some (HVSR.Print "Job Done").
Proof.
  cbv zeta.
  destruct (main_loop_best_effort example_externals HVSR.default_options
              "/data/Analysed_Skience25/" example_files []) as [E _].
  - repeat constructor.
  - rewrite E. vm_compute. repeat split; reflexivity.
Defined.

(** The derivation of the node identifier is outside the [try]: a listed
    name of fourteen characters or more without a dot stops the driver with
    an [IndexError] before [Job Done]. *)
Remark main_loop_stops_at_a_name_without_dot :
  let out := HVSR.main_loop example_externals HVSR.default_options
               "/data/Analysed_Skience25/"
               ["BE.BAD.00.HH.*.2025.060"; "old_recording*_2024"] [] in
  out.1 = Raise IndexError
  /\ out.2 = [HVSR.Print "Raw_Data/BE.BAD.00.HH.*.2025.060"].
Proof. vm_compute. split; reflexivity. Qed.

(** * Properties of custom_util.py *)

Section DASFacts.
Import DAS.
Context {R : Type} `{Number R} {T : Type}.

Lemma bind_ret {A B} (a : A) (f : A -> result B) : (Ret a ≫= f) = f a.
Proof. reflexivity. Qed.

Lemma wide_lookup (r : list R) (k : nat) :
  6 <= length r -> k < 6 -> is_Some (r !! k).
Proof. intros Hr Hk. apply lookup_lt_is_Some. lia. Qed.

Lemma cells_lookup (k : nat) (rows : list (list R)) :
  wide rows -> k < 6 ->
  forall i r, rows !! i = Some r -> cells k rows !! i = r !! k.
Proof.
  intros W Hk. induction W as [|r0 rows Hr0 W IH]; intros i r Hi; [discriminate|].
  unfold cells; simpl.
  destruct (wide_lookup r0 k Hr0 Hk) as [x Hx]. rewrite Hx. simpl.
  destruct i as [|i]; simpl in *.
  - injection Hi as <-. symmetry; exact Hx.
  - apply IH. exact Hi.
Qed.

Lemma cells_length (k : nat) (rows : list (list R)) :
  wide rows -> k < 6 -> length (cells k rows) = length rows.
Proof.
  intros W Hk. induction W as [|r0 rows Hr0 W IH]; [reflexivity|].
  unfold cells; simpl.
  destruct (wide_lookup r0 k Hr0 Hk) as [x Hx]. rewrite Hx. simpl.
  f_equal. exact IH.
Qed.

Lemma column_cells (k : nat) (rows : list (list R)) :
  wide rows -> k < 6 -> column (Arr2 rows) k = Ret (cells k rows).
Proof.
  intros W Hk. unfold column. induction W as [|r0 rows Hr0 W IH]; [reflexivity|].
  destruct (wide_lookup r0 k Hr0 Hk) as [x Hx].
  assert (G : getitem r0 k = Ret x) by (unfold getitem; rewrite Hx; reflexivity).
  cbn [mapM]. rewrite G. cbn [mbind result_bind]. rewrite IH.
  unfold cells; simpl. rewrite Hx. reflexivity.
Qed.

Lemma getitem_cells (k : nat) (prefix : list (list R)) (r : list R)
    (rest : list (list R)) (x : R) :
  wide (prefix ++ r :: rest) -> k < 6 -> r !! k = Some x ->
  getitem (cells k (prefix ++ r :: rest)) (length prefix) = Ret x.
Proof.
  intros W Hk Hx. unfold getitem.
  rewrite (cells_lookup k _ W Hk (length prefix) r).
  - rewrite Hx. reflexivity.
  - apply list_lookup_middle. reflexivity.
Qed.

(** One turn of the loop, at the line that follows [prefix]. *)
Lemma tie_step_at (channels : list R) (prefix rest : list (list R))
    (x1_i y1_i d1_i x2_i y2_i d2_i : R) (more : list R) (st : Ties R) :
  let r := x1_i :: y1_i :: d1_i :: x2_i :: y2_i :: d2_i :: more in
  wide (prefix ++ r :: rest) ->
  tie_step (segment_of (prefix ++ r :: rest)) channels st (length prefix)
  = (i1 ← nearest channels d1_i;
     i2 ← nearest channels d2_i;
     let st := advance (push_tie st d1_i y1_i x1_i)
                 (Z.of_nat i2 - Z.of_nat i1) in
     let st := match rest with
               | r' :: _ =>
                   if is_gap r r' then advance (push_tie st d2_i y2_i x2_i) 1
                   else st
               | [] => push_tie st d2_i y2_i x2_i
               end in
     Ret (push_range st (i1, i2))).
Proof.
  intros r W. unfold tie_step. cbn [d1 d2 x1 x2 y1 y2 segment_of].
  rewrite (getitem_cells 2 prefix r rest d1_i W) by (reflexivity || lia).
  rewrite (getitem_cells 5 prefix r rest d2_i W) by (reflexivity || lia).
  rewrite (getitem_cells 1 prefix r rest y1_i W) by (reflexivity || lia).
  rewrite (getitem_cells 0 prefix r rest x1_i W) by (reflexivity || lia).
  rewrite (getitem_cells 4 prefix r rest y2_i W) by (reflexivity || lia).
  rewrite (getitem_cells 3 prefix r rest x2_i W) by (reflexivity || lia).
  rewrite (cells_length 0 _ W) by lia.
  rewrite length_app. cbn [length].
  assert (C : (Z.of_nat (length prefix)
               <? Z.of_nat (length prefix + S (length rest)) - 1)%Z
              = match rest with [] => false | _ :: _ => true end).
  { destruct rest; cbn [length]; [apply Z.ltb_ge | apply Z.ltb_lt]; lia. }
  rewrite C, bind_ret.
  destruct (nearest channels d1_i) as [i1|e]; [|reflexivity].
  rewrite !bind_ret.
  destruct (nearest channels d2_i) as [i2|e]; [|reflexivity].
  rewrite !bind_ret. cbn zeta.
  destruct rest as [|r' rest']; [reflexivity|].
  assert (Wr' : 6 <= length r').
  { apply Forall_app in W as [_ W]. inversion W as [|? ? _ W2]; subst.
    inversion W2; assumption. }
  destruct (wide_lookup r' 2 Wr') as [d1_next Hn]; [lia|].
  assert (G : getitem (cells 2 (prefix ++ r :: r' :: rest'))
                (length prefix + 1) = Ret d1_next).
  { replace (length prefix + 1) with (length (prefix ++ [r]))
      by (rewrite length_app; reflexivity).
    replace (prefix ++ r :: r' :: rest') with ((prefix ++ [r]) ++ r' :: rest')
      by (rewrite <- app_assoc; reflexivity).
    apply getitem_cells; [rewrite <- app_assoc; exact W | lia | exact Hn]. }
  rewrite G, bind_ret.
  unfold is_gap. change (r !! 5) with (Some d2_i). rewrite Hn.
  destruct (negb (d2_i ==? d1_next)%num); reflexivity.
Qed.

(** The loop over the indices of the table does what the recursion over its
    lines does. *)
Lemma tie_loop_refines (channels : list R) (suffix : list (list R)) :
  forall (prefix : list (list R)) (st : Ties R),
    wide (prefix ++ suffix) ->
    for_range (tie_step (segment_of (prefix ++ suffix)) channels)
      (seq (length prefix) (length suffix)) st
    = ties_of_rows channels suffix st.
Proof.
  induction suffix as [|r rest IH]; intros prefix st W; [reflexivity|].
  assert (Wr : 6 <= length r).
  { apply Forall_app in W as [_ W]. inversion W; assumption. }
  destruct r as [|x1_i [|y1_i [|d1_i [|x2_i [|y2_i [|d2_i more]]]]]];
    simpl in Wr; try lia.
  cbn [length seq for_range].
  rewrite (tie_step_at channels prefix rest x1_i y1_i d1_i x2_i y2_i d2_i more st W).
  cbn [ties_of_rows].
  set (r := x1_i :: y1_i :: d1_i :: x2_i :: y2_i :: d2_i :: more) in *.
  change (r !! 0) with (Some x1_i). change (r !! 1) with (Some y1_i).
  change (r !! 2) with (Some d1_i). change (r !! 3) with (Some x2_i).
  change (r !! 4) with (Some y2_i). change (r !! 5) with (Some d2_i).
  cbn iota.
  destruct (nearest channels d1_i) as [i1|e]; [|reflexivity].
  destruct (nearest channels d2_i) as [i2|e]; [|reflexivity].
  rewrite !bind_ret. cbn zeta.
  assert (IH' := IH (prefix ++ [r])).
  rewrite length_app in IH'. cbn [length] in IH'.
  replace (length prefix + 1) with (S (length prefix)) in IH' by lia.
  rewrite <- app_assoc in IH'. cbn [app] in IH'.
  apply IH'. exact W.
Qed.

(** ** numpy's argmin *)

Lemma argmin_loop_bound (ip : list R) :
  forall mp min_ind i,
    min_ind < i -> argmin_loop mp min_ind i ip < i + length ip \/ ip = [] .
Proof.
  induction ip as [|x ip IH]; intros mp min_ind i Hi; [right; reflexivity|].
  left. cbn [argmin_loop length].
  destruct (negb (mp <=? x)%num).
  - destruct (isnan x); [lia|].
    destruct (IH x i (S i)) as [Hb| ->]; [lia | lia | simpl; lia].
  - destruct (IH mp min_ind (S i)) as [Hb| ->]; [lia | lia | simpl; lia].
Qed.

(** The nearest channel exists when there is a channel, and is one of the
    channels. *)
Lemma nearest_total (channels : list R) (d : R) :
  channels <> [] -> exists i, nearest channels d = Ret i.
Proof.
  destruct channels as [|c cs]; [congruence|]. intros _.
  unfold nearest; cbn [map argmin]. eexists; reflexivity.
Qed.

Lemma nearest_lt_length (channels : list R) (d : R) (i : nat) :
  nearest channels d = Ret i -> i < length channels.
Proof.
  destruct channels as [|c cs]; [discriminate|].
  unfold nearest; cbn [map argmin length]. intros E; injection E as <-.
  destruct (isnan _); [lia|].
  destruct (argmin_loop_bound (map (fun c0 => nabs (c0 - d)%num) cs)
              (nabs (c - d)%num) 0 1) as [Hb|E]; [lia| |].
  - rewrite length_map in Hb. lia.
  - rewrite E. simpl. lia.
Qed.

(** ** The ties of a table *)

Lemma aligned_push_tie (st : Ties R) (d lat lon : R) :
  aligned st -> aligned (push_tie st d lat lon).
Proof.
  unfold aligned, push_tie; cbn. rewrite !length_app; cbn. lia.
Qed.

Lemma ties_of_rows_total (channels : list R) (rows : list (list R)) :
  channels <> [] -> wide rows ->
  forall st, exists st', ties_of_rows channels rows st = Ret st'.
Proof.
  intros Hc W. induction W as [|r rows Wr W IH]; intros st; [eexists; reflexivity|].
  destruct r as [|x1_i [|y1_i [|d1_i [|x2_i [|y2_i [|d2_i more]]]]]];
    simpl in Wr; try lia.
  cbn [ties_of_rows].
  set (r := x1_i :: y1_i :: d1_i :: x2_i :: y2_i :: d2_i :: more) in *.
  change (r !! 0) with (Some x1_i). change (r !! 1) with (Some y1_i).
  change (r !! 2) with (Some d1_i). change (r !! 3) with (Some x2_i).
  change (r !! 4) with (Some y2_i). change (r !! 5) with (Some d2_i).
  cbn iota.
  destruct (nearest_total channels d1_i Hc) as [i1 ->].
  destruct (nearest_total channels d2_i Hc) as [i2 ->].
  rewrite !bind_ret. cbn zeta. apply IH.
Qed.

(** One tie per line, one more per gap, and the closing tie; one range per
    line. *)
Lemma ties_of_rows_count (channels : list R) (rows : list (list R)) :
  forall st st',
    ties_of_rows channels rows st = Ret st' ->
    length (t_indices st')
    = length (t_indices st) + length rows + gaps rows
      + (match rows with [] => 0 | _ :: _ => 1 end)
    /\ length (mapped_ranges st') = length (mapped_ranges st) + length rows
    /\ (aligned st -> aligned st').
Proof.
  induction rows as [|r rest IH]; intros st st' E.
  - injection E as <-. cbn. split; [lia|]. split; [lia|]. tauto.
  - cbn [ties_of_rows] in E.
    destruct (r !! 0) as [x1_i|]; [|discriminate].
    destruct (r !! 1) as [y1_i|]; [|discriminate].
    destruct (r !! 2) as [d1_i|] eqn:E2; [|discriminate].
    destruct (r !! 3) as [x2_i|]; [|discriminate].
    destruct (r !! 4) as [y2_i|]; [|discriminate].
    destruct (r !! 5) as [d2_i|] eqn:E5; [|discriminate].
    destruct (nearest channels d1_i) as [i1|e]; [|discriminate].
    rewrite bind_ret in E.
    destruct (nearest channels d2_i) as [i2|e]; [|discriminate].
    rewrite bind_ret in E. cbn zeta in E.
    apply IH in E as (E1 & E3 & E4).
    destruct rest as [|r' rest'].
    + cbn in E1, E3 |- *. rewrite !length_app in E1. rewrite length_app in E3. cbn in E1, E3.
      split; [lia|]. split; [lia|].
      intros A. apply E4. unfold push_range; cbn.
      apply (aligned_push_tie (advance (push_tie st d1_i y1_i x1_i) _)).
      apply (aligned_push_tie st). exact A.
    + cbn [gaps length]. cbn [gaps length] in E1.
      destruct (is_gap r r'); cbn in E1, E3 |- *;
        rewrite ?length_app in E1; rewrite length_app in E3; cbn in E1, E3;
        (split; [lia|]); (split; [lia|]); intros A; apply E4; unfold push_range; cbn.
      * apply (aligned_push_tie (advance (push_tie st d1_i y1_i x1_i) _)).
        apply (aligned_push_tie st). exact A.
      * apply (aligned_push_tie st). exact A.
Qed.

(** ** Ascending tie indices *)

Lemma ascending_from_snoc (strict : bool) (l : list Z) :
  forall p x,
    ascending_from strict p (l ++ [x])
    = ascending_from strict p l && goes_up strict (default p (last l)) x.
Proof.
  induction l as [|y l IH]; intros p x; cbn [app ascending_from].
  - cbn. rewrite andb_true_r. reflexivity.
  - rewrite IH, andb_assoc. f_equal.
    destruct l as [|z l]; [reflexivity|].
    f_equal. change (last (y :: z :: l)) with (last (z :: l)).
    destruct (last (z :: l)) eqn:E; [reflexivity|].
    apply last_None in E. discriminate.
Qed.

Lemma ascending_snoc (strict : bool) (l : list Z) (x : Z) :
  ascending strict (l ++ [x])
  = ascending strict l
    && match last l with Some y => goes_up strict y x | None => true end.
Proof.
  destruct l as [|y l]; [reflexivity|].
  cbn [app ascending]. rewrite ascending_from_snoc. f_equal.
  destruct l as [|z l]; [reflexivity|].
  change (last (y :: z :: l)) with (last (z :: l)).
  destruct (last (z :: l)) eqn:E; [reflexivity|].
  apply last_None in E. discriminate.
Qed.

Lemma goes_up_add (strict : bool) (a : Z) (i1 i2 : nat) :
  i1 + (if strict then 1 else 0) <= i2 ->
  goes_up strict a (a + (Z.of_nat i2 - Z.of_nat i1)) = true.
Proof.
  destruct strict; cbn; intros Hi; [apply Z.ltb_lt | apply Z.leb_le]; lia.
Qed.

Lemma goes_up_succ (strict : bool) (a : Z) : goes_up strict a (a + 1) = true.
Proof. destruct strict; cbn; [apply Z.ltb_lt | apply Z.leb_le]; lia. Qed.

Lemma ties_of_rows_ascending (strict : bool) (channels : list R)
    (rows : list (list R)) :
  Forall (fun r => spans channels (if strict then 1 else 0) r = true) rows ->
  forall st st',
    counter_ahead strict st ->
    ties_of_rows channels rows st = Ret st' ->
    ascending strict (t_indices st') = true.
Proof.
  intros S. induction S as [|r rest Sr S IH]; intros st st' [A L] E.
  - injection E as <-. exact A.
  - cbn [ties_of_rows] in E. unfold spans, row_range in Sr.
    destruct (r !! 0) as [x1_i|]; [|discriminate].
    destruct (r !! 1) as [y1_i|]; [|discriminate].
    destruct (r !! 2) as [d1_i|]; [|discriminate].
    destruct (r !! 3) as [x2_i|]; [|discriminate].
    destruct (r !! 4) as [y2_i|]; [|discriminate].
    destruct (r !! 5) as [d2_i|]; [|discriminate].
    destruct (nearest channels d1_i) as [i1|e]; [|discriminate].
    rewrite bind_ret in E.
    destruct (nearest channels d2_i) as [i2|e]; [|discriminate].
    rewrite bind_ret in E. cbn zeta in E.
    apply Nat.leb_le in Sr.
    assert (A1 : ascending strict (t_indices st ++ [icount st]) = true).
    { rewrite ascending_snoc, A. cbn.
      destruct (last (t_indices st)) as [y|] eqn:Ey; [apply L; reflexivity | reflexivity]. }
    assert (A2 : ascending strict
                   ((t_indices st ++ [icount st])
                      ++ [(icount st + (Z.of_nat i2 - Z.of_nat i1))%Z]) = true).
    { rewrite ascending_snoc, A1, last_snoc. cbn. apply goes_up_add. exact Sr. }
    destruct rest as [|r' rest'].
    { cbn in E. injection E as <-. exact A2. }
    apply IH in E; [exact E|].
    destruct (is_gap r r'); split; cbn.
    + exact A2.
    + rewrite last_snoc. intros y Hy; injection Hy as <-. apply goes_up_succ.
    + exact A1.
    + rewrite last_snoc. intros y Hy; injection Hy as <-. apply goes_up_add. exact Sr.
Qed.

(** ** The second loop *)

Lemma slice_bounds_rule (mapped_ranges : list (nat * nat)) (i : nat)
    (r : nat * nat) :
  mapped_ranges !! i = Some r ->
  slice_bounds mapped_ranges i
  = Ret (r.1, if extended mapped_ranges i then r.2 + 1 else r.2).
Proof.
  intros Hr. unfold slice_bounds, extended, getitem. rewrite Hr, bind_ret.
  destruct (mapped_ranges !! (i + 1)) as [r'|] eqn:Hn.
  - apply lookup_lt_Some in Hn.
    destruct (Z.ltb_spec (Z.of_nat i) (Z.of_nat (length mapped_ranges) - 1)); [|lia].
    rewrite bind_ret. reflexivity.
  - apply lookup_ge_None in Hn.
    destruct (Z.ltb_spec (Z.of_nat i) (Z.of_nat (length mapped_ranges) - 1)); [lia|].
    reflexivity.
Qed.

Lemma slice_step_chunk (da : DataArray R T) (mapped_ranges : list (nat * nat))
    (i : nat) (acc : list T) :
  i < length mapped_ranges ->
  slice_step da mapped_ranges (if Nat.eqb i 0 then None else Some acc) i
  = Ret (Some ((if Nat.eqb i 0 then [] else acc) ++ chunk da mapped_ranges i)).
Proof.
  intros Hi. destruct (lookup_lt_is_Some_2 _ _ Hi) as [r Hr].
  unfold slice_step, chunk. rewrite (slice_bounds_rule _ _ _ Hr), bind_ret, Hr.
  cbn [fst snd]. destruct (Nat.eqb i 0); reflexivity.
Qed.

Lemma slice_loop_from (da : DataArray R T) (mapped_ranges : list (nat * nat))
    (n : nat) :
  forall k acc,
    0 < k -> k + n <= length mapped_ranges ->
    for_range (slice_step da mapped_ranges) (seq k n) (Some acc)
    = Ret (Some (acc ++ concat (map (chunk da mapped_ranges) (seq k n)))).
Proof.
  induction n as [|n IH]; intros k acc Hk Hn; cbn [seq for_range map concat].
  - rewrite app_nil_r. reflexivity.
  - pose proof (slice_step_chunk da mapped_ranges k acc) as E.
    destruct (Nat.eqb_spec k 0) as [->|_]; [lia|].
    rewrite E by lia. rewrite bind_ret, IH by lia.
    rewrite app_assoc. reflexivity.
Qed.

(** The second loop stitches the chunks of all ranges, in order. *)
Lemma slice_loop_stitches (da : DataArray R T) (mapped_ranges : list (nat * nat)) :
  mapped_ranges <> [] ->
  for_range (slice_step da mapped_ranges) (seq 0 (length mapped_ranges)) None
  = Ret (Some (stitched da mapped_ranges)).
Proof.
  intros Hne. unfold stitched.
  destruct (length mapped_ranges) as [|n] eqn:En.
  { destruct mapped_ranges; [congruence | discriminate]. }
  cbn [seq for_range map concat].
  pose proof (slice_step_chunk da mapped_ranges 0 []) as E. cbn [Nat.eqb] in E.
  rewrite E by lia. rewrite bind_ret, slice_loop_from by lia.
  reflexivity.
Qed.

(** ** The whole of apply_mapping *)

Lemma wide_not_blank (rows : list (list R)) :
  wide rows -> filter (fun r => r <> []) rows = rows.
Proof.
  intros W. induction W as [|r rows Wr W IH]; [reflexivity|].
  rewrite filter_cons_True; [rewrite IH; reflexivity|].
  destruct r; [simpl in Wr; lia | discriminate].
Qed.

(** A table of two lines or more, all of the same six numbers or more, is
    loaded as a 2-D array. *)
Lemma loadtxt_table (fs : gmap string (list (list R))) (fname : string)
    (rows : list (list R)) :
  fs !! fname = Some rows -> wide rows -> all_same_length rows = true ->
  2 <= length rows ->
  loadtxt fs fname = Ret (Arr2 rows).
Proof.
  intros Hf W Hs Hn. unfold loadtxt. rewrite Hf, (wide_not_blank rows W), Hs.
  cbn [negb].
  destruct rows as [|r [|r' rows]]; cbn [length] in Hn; try lia.
  inversion W as [|? ? Wr _]; subst.
  destruct (Nat.eqb_spec (length r) 1) as [E|_]; [lia|].
  destruct r as [|x [|y r]]; cbn [length] in Wr; try lia. reflexivity.
Qed.

(** A file of one line is loaded as an array of fewer than two axes, of
    which [tmp[:,0]] cannot be taken. *)
Lemma apply_mapping_one_line (fs : gmap string (list (list R)))
    (da : DataArray R T) (segments_filename : string) (r : list R) :
  fs !! "good_segments.txt" = Some [r] ->
  apply_mapping fs da segments_filename = Raise IndexError.
Proof.
  intros Hf. unfold apply_mapping, loadtxt. rewrite Hf.
  destruct r as [|x [|y r]].
  - rewrite filter_cons_False by (intros E; apply E; reflexivity). reflexivity.
  - rewrite filter_cons_True by discriminate. reflexivity.
  - rewrite filter_cons_True by discriminate. reflexivity.
Qed.

(** ** The checks of xdas *)

Lemma is_strictly_increasing_from (l : list Z) :
  forall x, is_strictly_increasing (x :: l) = ascending_from true x l.
Proof.
  induction l as [|y l IH]; intros x; [reflexivity|].
  change (is_strictly_increasing (x :: y :: l))
    with ((0 <? y - x)%Z && is_strictly_increasing (y :: l)).
  cbn [ascending_from goes_up]. rewrite IH. f_equal.
  destruct (Z.ltb_spec 0 (y - x)), (Z.ltb_spec x y); (reflexivity || lia).
Qed.

(** The check of xdas is that the indices go up strictly. *)
Lemma is_strictly_increasing_ascending (l : list Z) :
  is_strictly_increasing l = ascending true l.
Proof. destruct l as [|x l]; [reflexivity | apply is_strictly_increasing_from]. Qed.

Lemma ascending_from_adjacent (strict : bool) (l : list Z) :
  forall p a b m,
    ascending_from strict p (l ++ a :: b :: m) = true -> goes_up strict a b = true.
Proof.
  induction l as [|y l IH]; intros p a b m E; cbn [app ascending_from] in E.
  - apply andb_prop in E as [_ E]. apply andb_prop in E as [E _]. exact E.
  - apply andb_prop in E as [_ E]. exact (IH _ _ _ _ E).
Qed.

(** Two indices next to each other in a list that goes up. *)
Lemma ascending_adjacent (strict : bool) (l : list Z) (a b : Z) (m : list Z) :
  ascending strict (l ++ a :: b :: m) = true -> goes_up strict a b = true.
Proof.
  destruct l as [|x l]; cbn [app ascending]; intros E.
  - cbn [ascending_from] in E. apply andb_prop in E as [E _]. exact E.
  - exact (ascending_from_adjacent _ _ _ _ _ _ E).
Qed.

(** The first loop adds to the tie indices it has, and the first index a
    table adds is the running counter. *)
Lemma ties_of_rows_prefix (channels : list R) (rows : list (list R)) :
  forall st st',
    ties_of_rows channels rows st = Ret st' ->
    exists more,
      t_indices st' = t_indices st ++ more
      /\ (rows <> [] -> exists more', more = icount st :: more').
Proof.
  induction rows as [|r rest IH]; intros st st' E.
  - injection E as <-. exists []. rewrite app_nil_r. split; [reflexivity | congruence].
  - cbn [ties_of_rows] in E.
    destruct (r !! 0) as [x1_i|]; [|discriminate].
    destruct (r !! 1) as [y1_i|]; [|discriminate].
    destruct (r !! 2) as [d1_i|]; [|discriminate].
    destruct (r !! 3) as [x2_i|]; [|discriminate].
    destruct (r !! 4) as [y2_i|]; [|discriminate].
    destruct (r !! 5) as [d2_i|]; [|discriminate].
    destruct (nearest channels d1_i) as [i1|e]; [|discriminate].
    rewrite bind_ret in E.
    destruct (nearest channels d2_i) as [i2|e]; [|discriminate].
    rewrite bind_ret in E. cbn zeta in E.
    apply IH in E as (more & Em & _).
    destruct rest as [|r' rest']; [|destruct (is_gap r r')];
      cbn [t_indices push_range push_tie advance] in Em;
      rewrite <- ?app_assoc in Em; cbn [app] in Em;
      (eexists; split; [exact Em | intros _; eexists; reflexivity]).
Qed.

(** The first tie of a table has the index 0. *)
Lemma ties_of_rows_start (channels : list R) (rows : list (list R)) (st : Ties R) :
  rows <> [] -> ties_of_rows channels rows no_ties = Ret st ->
  exists more, t_indices st = 0%Z :: more.
Proof.
  intros Hne E. destruct (ties_of_rows_prefix _ _ _ _ E) as (more & Em & Hm).
  destruct (Hm Hne) as (more' & ->). exists more'. exact Em.
Qed.

(** Lines 77 to 101, for ties as the first loop makes them: the array is
    returned when xdas accepts the tie indices for the collected channels,
    and [ValueError] is raised when it does not. *)
Lemma with_coordinates_accepted (st : Ties R) (da2 : list T) (more : list Z) :
  aligned st -> t_indices st = 0%Z :: more ->
  with_coordinates st (Some da2)
  = if accepted (t_indices st) da2
    then Ret (mkMappedArray da2
                (mkCoordinate (t_indices st) (t_distances st))
                (mkCoordinate (t_indices st) (t_lat st))
                (mkCoordinate (t_indices st) (t_lon st)))
    else Raise ValueError.
Proof.
  intros (Hd & Hla & Hlo) Hi. unfold with_coordinates, xd_Coordinate, accepted.
  rewrite Hd, Hla, Hlo, Nat.eqb_refl. cbn [negb].
  destruct (t_indices st) as [|z idx] eqn:Ei; [discriminate|].
  injection Hi as -> ->. cbn [Z.eqb negb].
  destruct (is_strictly_increasing (0%Z :: more)); cbn [negb andb]; [|reflexivity].
  rewrite !bind_ret. unfold assign_coords, coord_len. cbn [tie_indices].
  destruct (last (0%Z :: more)) as [l|] eqn:El.
  - replace (l - 0 + 1)%Z with (l + 1)%Z by lia.
    destruct (l + 1 =? Z.of_nat (length da2))%Z; reflexivity.
  - apply last_None in El. discriminate.
Qed.

(** What [apply_mapping] makes of a 2-D table. *)
Lemma map_segments_table (rows : list (list R)) (da : DataArray R T) :
  wide rows -> rows <> [] -> da_distance da <> [] ->
  exists st,
    ties_of_rows (da_distance da) rows no_ties = Ret st
    /\ map_segments (Arr2 rows) da
       = if accepted (t_indices st) (stitched da (mapped_ranges st))
         then Ret (mkMappedArray (stitched da (mapped_ranges st))
                     (mkCoordinate (t_indices st) (t_distances st))
                     (mkCoordinate (t_indices st) (t_lat st))
                     (mkCoordinate (t_indices st) (t_lon st)))
         else Raise ValueError.
Proof.
  intros W Hne Hc.
  destruct (ties_of_rows_total (da_distance da) rows Hc W no_ties) as [st E].
  exists st. split; [exact E|].
  unfold map_segments.
  rewrite !column_cells by (assumption || lia). rewrite !bind_ret.
  rewrite (cells_length 0 rows W) by lia.
  pose proof (tie_loop_refines (da_distance da) rows [] no_ties W) as L.
  cbn [app length] in L. unfold segment_of in L.
  rewrite L, E, bind_ret.
  destruct (ties_of_rows_count _ _ _ _ E) as (_ & Hr & Hal).
  destruct (ties_of_rows_start _ _ _ Hne E) as (more & Hi).
  rewrite slice_loop_stitches, bind_ret.
  - apply (with_coordinates_accepted st _ more); [|exact Hi].
    apply Hal. repeat split; reflexivity.
  - intros Em. rewrite Em in Hr. cbn in Hr. destruct rows; [congruence | cbn in Hr; lia].
Qed.

(** The table of a file of two lines or more, as [apply_mapping] treats
    it. *)
Lemma apply_mapping_table (fs : gmap string (list (list R)))
    (da : DataArray R T) (segments_filename : string) (rows : list (list R)) :
  fs !! "good_segments.txt" = Some rows ->
  wide rows -> all_same_length rows = true -> 2 <= length rows ->
  da_distance da <> [] ->
  exists st,
    ties_of_rows (da_distance da) rows no_ties = Ret st
    /\ apply_mapping fs da segments_filename
       = if accepted (t_indices st) (stitched da (mapped_ranges st))
         then Ret (mkMappedArray (stitched da (mapped_ranges st))
                     (mkCoordinate (t_indices st) (t_distances st))
                     (mkCoordinate (t_indices st) (t_lat st))
                     (mkCoordinate (t_indices st) (t_lon st)))
         else Raise ValueError.
Proof.
  intros Hf W Hs Hn Hc.
  assert (Hne : rows <> []) by (destruct rows; [cbn in Hn; lia | discriminate]).
  destruct (map_segments_table rows da W Hne Hc) as (st & E & M).
  exists st. split; [exact E|].
  unfold apply_mapping. rewrite (loadtxt_table fs _ rows Hf W Hs Hn), bind_ret.
  exact M.
Qed.
End DASFacts.

(** ** Examples in exact arithmetic *)

(** The loops themselves treat a table of one line as the specification
    says: the slice of its range [[i1, i2]], the end being after the start,
    runs up to and including channel [i2]. *)
Lemma single_range_inclusive {R : Type} `{Number R} {T : Type}
    (da : DAS.DataArray R T) (r : list R) (i1 i2 : nat) :
  DAS.wide [r] ->
  DAS.row_range (DAS.da_distance da) r = Some (i1, i2) ->
  i1 < i2 ->
  length (DAS.da_data da) = length (DAS.da_distance da) ->
  exists out channel,
    DAS.map_segments (DAS.Arr2 [r]) da = Ret out
    /\ length (DAS.data out) = i2 - i1 + 1
    /\ DAS.da_data da !! i2 = Some channel
    /\ DAS.data out !! (i2 - i1) = Some channel
    /\ length (DAS.tie_indices (DAS.distance out)) = 2.
Proof.
  intros W Hr Hle Hlen.
  assert (Hc : DAS.da_distance da <> []).
  { intros E. unfold DAS.row_range in Hr. rewrite E in Hr.
    destruct (r !! 2); [|discriminate]. destruct (r !! 5); discriminate. }
  destruct (map_segments_table [r] da W) as (st & E & M); [discriminate | exact Hc |].
  assert (Hi2 : i2 < length (DAS.da_data da)).
  { rewrite Hlen. unfold DAS.row_range in Hr.
    destruct (r !! 2) as [a|]; [|discriminate].
    destruct (r !! 5) as [b|]; [|discriminate].
    destruct (DAS.nearest (DAS.da_distance da) a) as [j1|]; [|discriminate].
    destruct (DAS.nearest (DAS.da_distance da) b) as [j2|] eqn:E2; [|discriminate].
    injection Hr as _ <-. exact (nearest_lt_length _ _ _ E2). }
  destruct (lookup_lt_is_Some_2 _ _ Hi2) as [channel Hch].
  destruct (ties_of_rows_count _ _ _ _ E) as (Hcount & _ & _).
  cbn [DAS.ties_of_rows] in E. unfold DAS.row_range in Hr.
  destruct (r !! 0); [|discriminate]. destruct (r !! 1); [|discriminate].
  destruct (r !! 2) as [a|]; [|discriminate].
  destruct (r !! 3); [|discriminate]. destruct (r !! 4); [|discriminate].
  destruct (r !! 5) as [b|]; [|discriminate].
  destruct (DAS.nearest (DAS.da_distance da) a) as [j1|]; [|discriminate].
  destruct (DAS.nearest (DAS.da_distance da) b) as [j2|]; [|discriminate].
  injection Hr as -> ->. rewrite !bind_ret in E. cbn in E. injection E as <-.
  cbn [DAS.mapped_ranges DAS.t_indices DAS.t_distances DAS.t_lat DAS.t_lon
       DAS.push_range DAS.push_tie DAS.advance DAS.no_ties DAS.icount app] in M.
  assert (Hst : DAS.stitched da [(i1, i2)] = DAS.py_slice (DAS.da_data da) i1 (i2 + 1)).
  { unfold DAS.stitched, DAS.chunk, DAS.extended.
    cbn [length seq map concat lookup list_lookup fst snd].
    change ([(i1, i2)] !! (0 + 1)) with (@None (nat * nat)). cbn iota.
    apply app_nil_r. }
  rewrite Hst in M.
  assert (Hl : length (DAS.py_slice (DAS.da_data da) i1 (i2 + 1)) = i2 - i1 + 1).
  { unfold DAS.py_slice. rewrite length_take, length_drop. lia. }
  assert (Ha : DAS.accepted [0%Z; (0 + (Z.of_nat i2 - Z.of_nat i1))%Z]
                 (DAS.py_slice (DAS.da_data da) i1 (i2 + 1)) = true).
  { unfold DAS.accepted, DAS.is_strictly_increasing. cbn [DAS.diff forallb last].
    rewrite Hl. apply andb_true_intro. split.
    - rewrite andb_true_r. apply Z.ltb_lt. lia.
    - apply Z.eqb_eq. lia. }
  rewrite Ha in M.
  eexists _, channel. split; [exact M|].
  cbn [DAS.data DAS.distance DAS.tie_indices length].
  split; [exact Hl|].
  split; [exact Hch|].
  split; [|reflexivity].
  unfold DAS.py_slice. rewrite lookup_take_lt by lia. rewrite lookup_drop.
  replace (i1 + (i2 - i1)) with i2 by lia. exact Hch.
Qed.

(** C1.  [apply_mapping] reads the file named [good_segments.txt] whatever
    its argument is: called with the name of the caller's own table, it
    returns the ties of the other one.  The specification asks for the ties
    of the caller's table. *)
Lemma apply_mapping_ignores_segments_filename :
  (forall (R : Type) (N : Number R) (T : Type) fs (da : DAS.DataArray R T) name,
      DAS.apply_mapping fs da name
      = DAS.apply_mapping_as_specified fs da "good_segments.txt")
  /\ (DAS.tie_values ∘ DAS.distance)
       <$> DAS.apply_mapping two_files example_da "my_segments.txt"
     = Ret [0; 10; 20; 30]%Q
  /\ (DAS.tie_values ∘ DAS.distance)
       <$> DAS.apply_mapping_as_specified two_files example_da "my_segments.txt"
     = Ret [5; 15; 25; 35]%Q.
Proof.
  split; [reflexivity|]. vm_compute. split; reflexivity.
Qed.

(** C3.  A file of the single segment that maps to the raw channels 10 to
    50: [np.loadtxt] returns its line as a 1-D array, and [apply_mapping]
    raises [IndexError] at [tmp[:,0]] instead of returning 41 channels.
    The same line as a 2-D table gives the loops what the claim says:
    the channels 10 to 50, all 41 of them. *)
Lemma apply_mapping_single_segment_file :
  DAS.loadtxt (only_file table_of_one_segment) "good_segments.txt"
  = Ret (DAS.Arr1 [1; 2; 10; 3; 4; 50]%Q)
  /\ DAS.apply_mapping (only_file table_of_one_segment) example_da
       "good_segments.txt"
     = Raise IndexError
  /\ DAS.row_range (DAS.da_distance example_da) [1; 2; 10; 3; 4; 50]%Q
     = Some (10, 50)
  /\ DAS.data <$> DAS.map_segments (DAS.Arr2 table_of_one_segment) example_da
     = Ret (seq 10 41).
Proof. vm_compute. repeat split; reflexivity. Qed.

(** ** Exact arithmetic: the order of the nearest channels *)

Section NearestFacts.
Import DAS.
Local Open Scope Q_scope.

Lemma Qle_bool_false (x y : Q) : Qle_bool x y = false -> y < x.
Proof.
  intros E. apply Qnot_le_lt. intros L. apply Qle_bool_iff in L. congruence.
Qed.

Lemma isnan_exact (x : Q) : isnan x = false.
Proof.
  unfold isnan; cbn. rewrite (proj2 (Qeq_bool_iff x x)); [reflexivity|apply Qeq_refl].
Qed.

(** In exact arithmetic the loop of [np.argmin] returns the first index of
    the least item. *)
Lemma argmin_loop_first_least (ip : list Q) :
  forall (pre : list Q) (mp : Q) (min_ind : nat),
    pre !! min_ind = Some mp ->
    (forall j x, pre !! j = Some x -> mp <= x) ->
    (forall j x, (j < min_ind)%nat -> pre !! j = Some x -> mp < x) ->
    exists m,
      (pre ++ ip) !! argmin_loop mp min_ind (length pre) ip = Some m
      /\ (forall j x, (pre ++ ip) !! j = Some x -> m <= x)
      /\ (forall j x, (j < argmin_loop mp min_ind (length pre) ip)%nat ->
                      (pre ++ ip) !! j = Some x -> m < x).
Proof.
  induction ip as [|x ip IH]; intros pre mp min_ind Hm Hle Hlt.
  - rewrite app_nil_r. exists mp. cbn. auto.
  - cbn [argmin_loop]. cbn [nleb exact].
    replace (pre ++ x :: ip) with ((pre ++ [x]) ++ ip)
      by (rewrite <- app_assoc; reflexivity).
    replace (S (length pre)) with (length (pre ++ [x]))
      by (rewrite length_app; cbn; lia).
    pose proof (lookup_lt_Some _ _ _ Hm) as Hb.
    destruct (Qle_bool mp x) eqn:E; cbn [negb].
    + apply Qle_bool_iff in E. apply IH.
      * rewrite lookup_app_l by exact Hb. exact Hm.
      * intros j y Hy. apply lookup_app_Some in Hy as [Hy|[_ Hy]]; [eauto|].
        destruct (j - length pre)%nat; [|discriminate]. injection Hy as <-. exact E.
      * intros j y Hj Hy. rewrite lookup_app_l in Hy by lia. eauto.
    + apply Qle_bool_false in E. rewrite isnan_exact.
      replace (length pre) with (length pre + 0)%nat at 1 by lia.
      replace (length pre + 0)%nat with (length pre) by lia.
      apply IH.
      * rewrite lookup_app_r by lia. rewrite Nat.sub_diag. reflexivity.
      * intros j y Hy. apply lookup_app_Some in Hy as [Hy|[_ Hy]].
        -- apply Qlt_le_weak. eapply Qlt_le_trans; [exact E | eauto].
        -- destruct (j - length pre)%nat; [|discriminate]. injection Hy as <-.
           apply Qle_refl.
      * intros j y Hj Hy. rewrite lookup_app_l in Hy by lia.
        eapply Qlt_le_trans; [exact E | eauto].
Qed.

(** The nearest channel is the first of the channels closest to the
    distance. *)
Lemma nearest_first_closest (cs : list Q) (d : Q) (i : nat) :
  nearest cs d = Ret i ->
  exists c,
    cs !! i = Some c
    /\ (forall j x, cs !! j = Some x -> Qabs (c - d) <= Qabs (x - d))
    /\ (forall j x, (j < i)%nat -> cs !! j = Some x -> Qabs (c - d) < Qabs (x - d)).
Proof.
  destruct cs as [|c0 cs]; [discriminate|].
  unfold nearest; cbn [map argmin]. rewrite isnan_exact. intros E; injection E as <-.
  destruct (argmin_loop_first_least (map (fun c => Qabs (c - d)) cs)
              [Qabs (c0 - d)] (Qabs (c0 - d)) 0%nat) as (m & Hm & Hle & Hlt).
  - reflexivity.
  - intros [|j] x Hx; [|discriminate]. injection Hx as <-. apply Qle_refl.
  - intros j x Hj; lia.
  - cbn [length app] in Hm, Hle, Hlt.
    change (Qabs (c0 - d) :: map (fun c => Qabs (c - d)) cs)
      with (map (fun c => Qabs (c - d)) (c0 :: cs)) in Hm, Hle, Hlt.
    cbn [nabs nsub exact] in *.
    set (a := argmin_loop _ _ _ _) in *.
    rewrite list_lookup_fmap in Hm.
    destruct ((c0 :: cs) !! a) as [c|] eqn:Ec; [|discriminate].
    change (Some (Qabs (c - d)) = Some m) in Hm.
    assert (Em : m = Qabs (c - d)) by congruence.
    subst m. exists c. split; [reflexivity|]. split.
    + intros j x Hx. apply (Hle j). rewrite list_lookup_fmap, Hx. reflexivity.
    + intros j x Hj Hx. apply (Hlt j _ Hj). rewrite list_lookup_fmap, Hx. reflexivity.
Qed.

Lemma Qabs_cases (x : Q) : (0 <= x /\ Qabs x == x) \/ (x <= 0 /\ Qabs x == - x).
Proof.
  destruct (Qlt_le_dec x 0) as [L|L].
  - right. split; [apply Qlt_le_weak; exact L | apply Qabs_neg; apply Qlt_le_weak; exact L].
  - left. split; [exact L | apply Qabs_pos; exact L].
Qed.

(** Along a coordinate that does not go down, a farther distance has no
    earlier nearest channel. *)
Lemma nearest_monotone (cs : list Q) (d1 d2 : Q) (i1 i2 : nat) :
  nondecreasing cs -> d1 <= d2 ->
  nearest cs d1 = Ret i1 -> nearest cs d2 = Ret i2 ->
  (i1 <= i2)%nat.
Proof.
  intros Hs Hd E1 E2.
  destruct (nearest_first_closest cs d1 i1 E1) as (b & Hb & _ & Hlt1).
  destruct (nearest_first_closest cs d2 i2 E2) as (a & Ha & Hle2 & _).
  destruct (Nat.le_gt_cases i1 i2) as [Hi|Hi]; [exact Hi|exfalso].
  pose proof (Hs i2 i1 a b ltac:(lia) Ha Hb) as Hab.
  pose proof (Hlt1 i2 a Hi Ha) as H1.
  pose proof (Hle2 i1 b Hb) as H2.
  destruct (Qabs_cases (b - d1)) as [[? Eb1]|[? Eb1]];
    destruct (Qabs_cases (a - d1)) as [[? Ea1]|[? Ea1]];
    destruct (Qabs_cases (a - d2)) as [[? Ea2]|[? Ea2]];
    destruct (Qabs_cases (b - d2)) as [[? Eb2]|[? Eb2]];
    rewrite Eb1, Ea1 in H1; rewrite Ea2, Eb2 in H2; lra.
Qed.

End NearestFacts.

(** * Further properties of functions_MA.py *)

Section GeometryMore.
Import Geometry.
Local Open Scope Q_scope.

(** X1.  In exact arithmetic the vertices [roof_edges2D] returns for any
    magnification and origin are those for magnification 1 and the origin
    (0, 0), moved by [(Lon, Lat)] first and magnified after: the origin is
    given in the units of the survey, not of the magnified drawing. *)
Theorem roof_edges2D_shift_then_scale (mult Lat Lon : Q) :
  same_vertices (roof_edges2D mult Lat Lon)
    (scale mult (translate Lon Lat (roof_edges2D (lit 1) (lit 0) (lit 0)))).
Proof.
  unfold same_vertices, roof_edges2D, translate, scale; simpl.
  repeat (constructor; [split; simpl; ring|]).
  constructor.
Qed.

(** X2.  In any arithmetic, the floor and the roof [roof_edges3D] returns
    are one polygon each, with the eight vertices of [roof_edges2D] for the
    same magnification and origin (which [roof_edges2D] takes with the
    latitude first and [roof_edges3D] with the longitude first), in the same
    order; the floor lies at height 0 and the roof at the height [ER], which
    is 124.37 times the magnification plus [up]; the [ELon] and [ELat]
    returned are the last vertex. *)
Theorem roof_edges3D_polygons :
  forall (R : Type) (N : Number R) (mult Lon Lat up : R),
    let r := roof_edges3D mult Lon Lat up in
    exists floor roof,
      edges_gfloor r = [floor] /\ edges_roof r = [roof]
      /\ map plan floor = roof_edges2D mult Lat Lon
      /\ map plan roof = roof_edges2D mult Lat Lon
      /\ map height floor = replicate 8 (lit 0)
      /\ map height roof = replicate 8 (ER r)
      /\ ER r = (lit 124.37 * mult + up)%num
      /\ last (roof_edges2D mult Lat Lon) = Some (ELon r, ELat r).
Proof.
  intros R N mult Lon Lat up r. do 2 eexists.
  repeat split; reflexivity.
Qed.

(** X3.  In exact arithmetic the reference point [(Lon1, Lat1)] that
    [roof_edges3D] returns is the origin it was given, whatever the
    magnification (the vertices are magnified, the reference point is not),
    and the two ground levels are 0.  In binary64 the reference point of
    the origin (0, 0) is exactly (0, 0); that of another origin can be off
    by a rounding error, as for (0.1, 0.1). *)
Theorem roof_edges3D_reference_point :
  (forall mult Lon Lat up : Q,
      let r := roof_edges3D mult Lon Lat up in
      Lon1 r == Lon /\ Lat1 r == Lat /\ E0 r == 0 /\ BE0 r == 0)
  /\ (forall mult up : float,
         let r := roof_edges3D mult (lit 0) (lit 0) up in
         (Lon1 r, Lat1 r) = (0%float, 0%float))
  /\ (let r := roof_edges3D (R:=float) (lit 1) (lit 0.1) (lit 0.1) (lit 0) in
      PrimFloat.eqb (Lon1 r) (lit 0.1) = false).
Proof.
  split; [|split].
  - intros mult Lon Lat up r. unfold r, roof_edges3D; cbn.
    repeat split; ring.
  - intros mult up r. vm_compute. reflexivity.
  - vm_compute. reflexivity.
Qed.

(** X4.  In any arithmetic [H_array2D] returns the centre, computed as 0
    times the magnification, followed by the vertices N, E, S and W of
    [roof_edges2D] for the same arguments (its vertices 0, 7, 4 and 3).  In
    exact arithmetic the centre is (0, 0) whatever origin is given, while
    the four corners are moved by the origin and magnified. *)
Theorem H_array2D_corners :
  (forall (R : Type) (N : Number R) (mult Lat Lon : R),
      H_array2D mult Lat Lon
      = (lit 0 * mult, lit 0 * mult)%num
        :: omap (fun i => roof_edges2D mult Lat Lon !! i) [0; 7; 4; 3]%nat)
  /\ (forall mult Lat Lon : Q,
         exists centre corners,
           H_array2D mult Lat Lon = centre :: corners
           /\ centre.1 == 0 /\ centre.2 == 0
           /\ same_vertices corners
                (scale mult (translate Lon Lat
                   (omap (fun i => roof_edges2D (lit 1) (lit 0) (lit 0) !! i)
                      [0; 7; 4; 3]%nat)))).
Proof.
  split.
  - intros R N mult Lat Lon. reflexivity.
  - intros mult Lat Lon. do 2 eexists. split; [reflexivity|].
    cbn. split; [ring|]. split; [ring|].
    unfold same_vertices. repeat (constructor; [split; simpl; ring|]). constructor.
Qed.

Lemma py_max_pair (a b : Q) :
  a <= py_max a [b] /\ b <= py_max a [b] /\ (py_max a [b] = a \/ py_max a [b] = b).
Proof.
  unfold py_max; cbn.
  destruct (Qle_bool b a) eqn:E; cbn.
  - apply Qle_bool_iff in E. split; [apply Qle_refl|]. split; [exact E|]. left; reflexivity.
  - split.
    + apply Qlt_le_weak. apply Qnot_le_lt. intros L. apply Qle_bool_iff in L. congruence.
    + split; [apply Qle_refl|]. right; reflexivity.
Qed.

(** X5.  In exact arithmetic [set_axes_equal] leaves the X and the Y
    limits with the same width, which is the larger of the two widths it
    found (neither axis is narrowed), and keeps the middle of both. *)
Theorem set_axes_equal_equal_ranges (ax : Axes3D Q) :
  let ax' := set_axes_equal ax in
  range_of (xlim ax') == range_of (ylim ax')
  /\ range_of (xlim ax) <= range_of (xlim ax')
  /\ range_of (ylim ax) <= range_of (ylim ax')
  /\ (range_of (xlim ax') == range_of (xlim ax)
      \/ range_of (ylim ax') == range_of (ylim ax))
  /\ mean2 (xlim ax') == mean2 (xlim ax)
  /\ mean2 (ylim ax') == mean2 (ylim ax).
Proof.
  intros ax'. unfold ax'. rewrite set_axes_equal_limits.
  unfold range_of. cbn [xlim ylim fst snd].
  pose proof (plot_radius_nonneg ax) as Hr.
  rewrite !range_of_centred by exact Hr.
  unfold plot_radius in *.
  destruct (py_max_pair (Qabs ((xlim ax).2 - (xlim ax).1))
              (Qabs ((ylim ax).2 - (ylim ax).1))) as (Hx & Hy & Hm).
  set (m := py_max _ _) in *.
  split; [reflexivity|].
  split; [lra|]. split; [lra|].
  split.
  - destruct Hm as [Hm|Hm]; [left | right]; rewrite <- Hm; lra.
  - split; apply middle_of_centred.
Qed.

Lemma Qhalf (x : Q) : x / 2 == x * (1 # 2).
Proof. field. Qed.

(** X6.  In exact arithmetic the limits [set_axes_equal] sets are in
    ascending order and contain both of the limits it found, in whichever
    order those were: an inverted axis comes out upright, and nothing that
    was in view is cut off. *)
Theorem set_axes_equal_contains (ax : Axes3D Q) :
  let ax' := set_axes_equal ax in
  (xlim ax').1 <= (xlim ax').2
  /\ (ylim ax').1 <= (ylim ax').2
  /\ ((xlim ax').1 <= (xlim ax).1 <= (xlim ax').2)
  /\ ((xlim ax').1 <= (xlim ax).2 <= (xlim ax').2)
  /\ ((ylim ax').1 <= (ylim ax).1 <= (ylim ax').2)
  /\ ((ylim ax').1 <= (ylim ax).2 <= (ylim ax').2).
Proof.
  intros ax'. unfold ax'. rewrite set_axes_equal_limits.
  cbn [xlim ylim fst snd].
  unfold plot_radius, mean2. cbn [nadd ndiv lit exact].
  destruct (py_max_pair (Qabs ((xlim ax).2 - (xlim ax).1))
              (Qabs ((ylim ax).2 - (ylim ax).1))) as (Hx & Hy & _).
  set (m := py_max _ _) in *.
  destruct (xlim ax) as [a b], (ylim ax) as [c d]. cbn [fst snd] in *.
  destruct (Qabs_cases (b - a)) as [[? Ex]|[? Ex]];
    destruct (Qabs_cases (d - c)) as [[? Ey]|[? Ey]];
    rewrite Ex in Hx; rewrite Ey in Hy; rewrite !Qhalf;
    repeat split; lra.
Qed.
End GeometryMore.

(** * Further properties of custom_util.py *)

Section NaturalFacts.
Import DAS.
Context {R : Type} `{Number R}.

Lemma py_slice_map {T T'} (f : T -> T') (l : list T) (i0 i1 : nat) :
  py_slice (map f l) i0 i1 = map f (py_slice l i0 i1).
Proof. unfold py_slice. rewrite <- fmap_drop, <- fmap_take. reflexivity. Qed.

Lemma slice_step_natural {T T'} (f : T -> T') (da : DataArray R T)
    (mapped_ranges : list (nat * nat)) (acc : option (list T)) (i : nat) :
  slice_step (on_channels f da) mapped_ranges (fmap (M:=option) (map f) acc) i
  = fmap (M:=result) (fmap (M:=option) (map f))
      (slice_step da mapped_ranges acc i).
Proof.
  unfold slice_step.
  destruct (slice_bounds mapped_ranges i) as [b|e]; [|reflexivity].
  rewrite !bind_ret. cbn [on_channels da_data]. rewrite py_slice_map.
  destruct (Nat.eqb i 0); [reflexivity|].
  destruct acc as [acc|]; [|reflexivity].
  cbn. rewrite map_app. reflexivity.
Qed.

Lemma slice_loop_natural {T T'} (f : T -> T') (da : DataArray R T)
    (mapped_ranges : list (nat * nat)) (range : list nat) :
  forall acc : option (list T),
    for_range (slice_step (on_channels f da) mapped_ranges) range
      (fmap (M:=option) (map f) acc)
    = fmap (M:=result) (fmap (M:=option) (map f))
        (for_range (slice_step da mapped_ranges) range acc).
Proof.
  induction range as [|i range IH]; intros acc; [reflexivity|].
  cbn [for_range]. rewrite slice_step_natural.
  destruct (slice_step da mapped_ranges acc i) as [acc'|e]; [|reflexivity].
  cbn [fmap result_fmap]. rewrite !bind_ret. apply IH.
Qed.

Lemma with_coordinates_natural {T T'} (f : T -> T') (st : Ties R)
    (da2 : option (list T)) :
  with_coordinates st (fmap (M:=option) (map f) da2)
  = on_mapped f <$> with_coordinates st da2.
Proof.
  unfold with_coordinates.
  destruct (xd_Coordinate (t_indices st) (t_distances st)) as [cd|e]; [|reflexivity].
  destruct (xd_Coordinate (t_indices st) (t_lat st)) as [cla|e]; [|reflexivity].
  destruct (xd_Coordinate (t_indices st) (t_lon st)) as [clo|e]; [|reflexivity].
  rewrite !bind_ret.
  destruct da2 as [da2|]; [|reflexivity].
  cbn [fmap option_fmap option_map]. unfold assign_coords. rewrite length_map.
  destruct (coord_len cd =? Z.of_nat (length da2))%Z; [|reflexivity].
  destruct (coord_len cla =? Z.of_nat (length da2))%Z; [|reflexivity].
  destruct (coord_len clo =? Z.of_nat (length da2))%Z; reflexivity.
Qed.

Lemma map_segments_natural {T T'} (f : T -> T') (tmp : ndarray R)
    (da : DataArray R T) :
  map_segments tmp (on_channels f da) = on_mapped f <$> map_segments tmp da.
Proof.
  unfold map_segments.
  destruct (column tmp 0) as [c0|e]; [|reflexivity].
  destruct (column tmp 1) as [c1|e]; [|reflexivity].
  destruct (column tmp 2) as [c2|e]; [|reflexivity].
  destruct (column tmp 3) as [c3|e]; [|reflexivity].
  destruct (column tmp 4) as [c4|e]; [|reflexivity].
  destruct (column tmp 5) as [c5|e]; [|reflexivity].
  rewrite !bind_ret. cbn zeta. cbn [on_channels da_distance].
  destruct (for_range _ (seq 0 (length c0)) no_ties) as [st|e]; [|reflexivity].
  rewrite !bind_ret.
  pose proof (slice_loop_natural f da (mapped_ranges st)
                (seq 0 (length (mapped_ranges st))) None) as L.
  cbn [fmap option_fmap option_map] in L. unfold on_channels in L |- *.
  rewrite L.
  destruct (for_range (slice_step da _) _ None) as [da2|e]; [|reflexivity].
  cbn [fmap result_fmap]. rewrite !bind_ret.
  apply (with_coordinates_natural f st da2).
Qed.

(** X8.  [apply_mapping] never looks into a channel: it selects and
    orders channels by their distances only.  So mapping an array whose
    every channel went through a function gives what the same function
    makes of the channels of the mapped array, with the same coordinates and
    the same exception if there is one; in particular [apply_scaling] before
    [apply_mapping] gives the same as the scaling of the samples after
    it.  In any arithmetic. *)
Theorem apply_mapping_natural :
  (forall (T T' : Type) (f : T -> T') (fs : gmap string (list (list R)))
          (da : DataArray R T) (name : string),
      apply_mapping fs (on_channels f da) name
      = on_mapped f <$> apply_mapping fs da name)
  /\ (forall (fs : gmap string (list (list R))) (da : DataArray R (list R))
             (name : string),
         apply_mapping fs (apply_scaling da) name
         = on_mapped (map scaled) <$> apply_mapping fs da name).
Proof.
  assert (N : forall (T T' : Type) (f : T -> T')
                     (fs : gmap string (list (list R)))
                     (da : DataArray R T) (name : string),
             apply_mapping fs (on_channels f da) name
             = on_mapped f <$> apply_mapping fs da name).
  { intros T T' f fs da name. unfold apply_mapping.
    destruct (loadtxt fs "good_segments.txt") as [tmp|e]; [|reflexivity].
    rewrite !bind_ret. apply map_segments_natural. }
  split; [exact N|].
  intros fs da name. exact (N _ _ (map scaled) fs da name).
Qed.
End NaturalFacts.

Section OutcomeFacts.
Import DAS.
Context {R : Type} `{Number R} {T : Type}.

Lemma apply_scaling_shape (da : DataArray R (list R)) :
  da_distance (apply_scaling da) = da_distance da
  /\ length (da_data (apply_scaling da)) = length (da_data da)
  /\ (forall k ch, da_data da !! k = Some ch ->
        exists ch', da_data (apply_scaling da) !! k = Some ch'
                    /\ length ch' = length ch
                    /\ forall t x, ch !! t = Some x -> ch' !! t = Some (scaled x)).
Proof.
  split; [reflexivity|]. split; [apply length_map|].
  intros k ch Hk. exists (map scaled ch). cbn [apply_scaling da_data].
  rewrite list_lookup_fmap, Hk. split; [reflexivity|]. split; [apply length_map|].
  intros t x Ht. rewrite list_lookup_fmap, Ht. reflexivity.
Qed.

(** Every line of a table as long as its first one. *)
Lemma all_same_length_Forall (r : list R) (rows : list (list R)) :
  all_same_length (r :: rows) = true ->
  Forall (fun r' => length r' = length r) (r :: rows).
Proof.
  cbn [all_same_length]. intros E. constructor; [reflexivity|].
  apply Forall_forall. intros r' Hr'.
  rewrite forallb_forall in E. apply Nat.eqb_eq. apply E.
  apply list_elem_of_In. exact Hr'.
Qed.

Lemma column_short (r : list R) (rows : list (list R)) (k : nat) :
  length r <= k -> column (Arr2 (r :: rows)) k = Raise IndexError.
Proof.
  intros Hk. unfold column.
  assert (G : getitem r k = Raise IndexError).
  { unfold getitem. rewrite (lookup_ge_None_2 r k Hk). reflexivity. }
  cbn [mapM]. rewrite G. reflexivity.
Qed.

Lemma column_long (rows : list (list R)) (k : nat) :
  Forall (fun r => k < length r) rows ->
  exists v, column (Arr2 rows) k = Ret v.
Proof.
  unfold column. induction 1 as [|r rows Hr _ [v IH]]; [eexists; reflexivity|].
  destruct (lookup_lt_is_Some_2 r k Hr) as [x Hx].
  assert (G : getitem r k = Ret x) by (unfold getitem; rewrite Hx; reflexivity).
  cbn [mapM]. rewrite G. cbn [mbind result_bind]. rewrite IH. eexists; reflexivity.
Qed.

Lemma map_segments_narrow (r : list R) (rows : list (list R)) (da : DataArray R T) :
  Forall (fun r' => length r' = length r) (r :: rows) ->
  length r < 6 ->
  map_segments (Arr2 (r :: rows)) da = Raise IndexError.
Proof.
  intros Hs Hw. unfold map_segments.
  assert (L : forall k, k < length r -> exists v, column (Arr2 (r :: rows)) k = Ret v).
  { intros k Hk. apply column_long. eapply Forall_impl; [exact Hs|].
    intros r' E; simpl in E. lia. }
  assert (S : forall k, length r <= k -> column (Arr2 (r :: rows)) k = Raise IndexError).
  { intros k Hk. apply column_short. exact Hk. }
  destruct (le_lt_dec (length r) 0) as [H0|H0]; [rewrite (S 0 H0); reflexivity|].
  destruct (L 0 H0) as [v0 ->]. rewrite bind_ret.
  destruct (le_lt_dec (length r) 1) as [H1|H1]; [rewrite (S 1 H1); reflexivity|].
  destruct (L 1 H1) as [v1 ->]. rewrite bind_ret.
  destruct (le_lt_dec (length r) 2) as [H2|H2]; [rewrite (S 2 H2); reflexivity|].
  destruct (L 2 H2) as [v2 ->]. rewrite bind_ret.
  destruct (le_lt_dec (length r) 3) as [H3|H3]; [rewrite (S 3 H3); reflexivity|].
  destruct (L 3 H3) as [v3 ->]. rewrite bind_ret.
  destruct (le_lt_dec (length r) 4) as [H4|H4]; [rewrite (S 4 H4); reflexivity|].
  destruct (L 4 H4) as [v4 ->]. rewrite bind_ret.
  rewrite (S 5) by lia. reflexivity.
Qed.

Lemma map_segments_no_channel (rows : list (list R)) (da : DataArray R T) :
  wide rows -> rows <> [] -> da_distance da = [] ->
  map_segments (Arr2 rows) da = Raise ValueError.
Proof.
  intros W Hne Hc. unfold map_segments.
  rewrite !column_cells by (assumption || lia). rewrite !bind_ret.
  rewrite (cells_length 0 rows W) by lia.
  pose proof (tie_loop_refines (da_distance da) rows [] no_ties W) as L.
  cbn [app length] in L. unfold segment_of in L. rewrite L.
  destruct rows as [|r rest]; [congruence|].
  inversion W as [|? ? Wr _]; subst.
  destruct r as [|x1_i [|y1_i [|d1_i [|x2_i [|y2_i [|d2_i more]]]]]];
    simpl in Wr; try lia.
  rewrite Hc. reflexivity.
Qed.

(** X9.  What [apply_mapping] does with every directory and array, in any
    arithmetic.  Without a file [good_segments.txt] it raises
    [FileNotFoundError]; with lines of different lengths, [ValueError]; with
    fewer than two lines that are not blank, or fewer than six numbers a
    line, [IndexError]; with such a table and an array without a channel,
    [ValueError].  In every other case both loops run to their end, and
    what follows is up to xdas: [apply_mapping] returns when the tie
    indices of the first loop are strictly increasing and the last of them
    is the index of the last channel the second loop collected, and raises
    [ValueError] when they are not. *)
Theorem apply_mapping_outcome (fs : gmap string (list (list R)))
    (da : DataArray R T) (segments_filename : string) :
  match fs !! "good_segments.txt" with
  | None => apply_mapping fs da segments_filename = Raise FileNotFoundError
  | Some lines =>
      let rows := filter (fun r => r <> []) lines in
      if negb (all_same_length rows) then
        apply_mapping fs da segments_filename = Raise ValueError
      else if negb (Nat.leb 2 (length rows)
                    && forallb (fun r => Nat.leb 6 (length r)) rows) then
        apply_mapping fs da segments_filename = Raise IndexError
      else match da_distance da with
           | [] => apply_mapping fs da segments_filename = Raise ValueError
           | _ :: _ =>
               let st := ties_of (da_distance da) rows in
               if accepted (t_indices st) (stitched da (mapped_ranges st))
               then returned (apply_mapping fs da segments_filename) = true
               else apply_mapping fs da segments_filename = Raise ValueError
           end
  end.
Proof.
  unfold apply_mapping, loadtxt.
  destruct (fs !! "good_segments.txt") as [lines|] eqn:Hf; [|reflexivity].
  cbn zeta. set (rows := filter (fun r => r <> []) lines).
  assert (Hnb : Forall (fun r => r <> []) rows).
  { apply Forall_forall. intros r Hr. apply list_elem_of_filter in Hr as [Hr _]. exact Hr. }
  destruct (all_same_length rows) eqn:Hs; cbn [negb]; [|reflexivity].
  destruct (Nat.leb 2 (length rows) && forallb (fun r => Nat.leb 6 (length r)) rows)
    eqn:Hw; cbn [negb].
  - apply andb_prop in Hw as [Hn Hw]. apply Nat.leb_le in Hn.
    assert (W : wide rows).
    { apply Forall_forall. intros r Hr. rewrite forallb_forall in Hw.
      apply Nat.leb_le. apply Hw. apply list_elem_of_In. exact Hr. }
    assert (E : match rows with
                | [] => Ret (Arr1 [])
                | [[x]] => Ret (Arr0 x)
                | [r] => Ret (Arr1 r)
                | r :: _ => if Nat.eqb (length r) 1 then Ret (Arr1 (concat rows))
                            else Ret (Arr2 rows)
                end = Ret (Arr2 rows)).
    { destruct rows as [|r [|r' rest]]; cbn [length] in Hn; try lia.
      inversion W as [|? ? Wr _]; subst.
      destruct (Nat.eqb_spec (length r) 1) as [E1|_]; [lia|].
      destruct r as [|x [|y r]]; cbn [length] in Wr; try lia; reflexivity. }
    rewrite E, bind_ret.
    assert (Hne : rows <> []) by (destruct rows; [cbn in Hn; lia | discriminate]).
    destruct (da_distance da) as [|c cs] eqn:Hc.
    + apply map_segments_no_channel; assumption.
    + destruct (map_segments_table rows da W Hne) as (st & Et & M);
        [rewrite Hc; discriminate|].
      rewrite Hc in Et. cbn zeta. unfold ties_of. rewrite Et, M.
      destruct (accepted _ _); reflexivity.
  - destruct rows as [|r [|r' rest]] eqn:Er.
    + reflexivity.
    + destruct r as [|x [|y r]]; reflexivity.
    + pose proof (all_same_length_Forall _ _ Hs) as Hall.
      destruct (Nat.eqb_spec (length r) 1) as [E1|N1].
      * destruct r as [|x [|y r]]; try discriminate; reflexivity.
      * assert (Hlt : length r < 6).
        { apply andb_false_iff in Hw as [Hw|Hw]; [cbn in Hw; discriminate|].
          destruct (le_lt_dec 6 (length r)) as [H6|H6]; [|exact H6].
          exfalso. assert (Ht : forallb (fun r0 => 6 <=? length r0) (r :: r' :: rest) = true).
          { apply forallb_forall. intros r0 Hr0. apply Nat.leb_le.
            rewrite Forall_forall in Hall. rewrite (Hall r0); [exact H6|].
            apply list_elem_of_In. exact Hr0. }
          congruence. }
        assert (E : match r with
                    | [x] => match r' :: rest with
                             | [] => Ret (Arr0 x)
                             | _ :: _ => Ret (Arr2 (r :: r' :: rest))
                             end
                    | _ => Ret (Arr2 (r :: r' :: rest))
                    end = Ret (Arr2 (r :: r' :: rest))).
        { destruct r as [|x [|y r]]; reflexivity. }
        destruct r as [|x [|y r]].
        -- rewrite bind_ret. apply map_segments_narrow; assumption.
        -- cbn in N1; lia.
        -- rewrite bind_ret. apply map_segments_narrow; assumption.
Qed.
End OutcomeFacts.

Section ScaledExact.
Import DAS.
Local Open Scope Q_scope.
Lemma scaled_exact (x : Q) : scaled x == x * 5.6640625e-10.
Proof.
  unfold scaled. cbn [nmul ndiv lit exact].
  change 1e-9 with (1 # 1000000000).
  change 5.6640625e-10 with (56640625 # 100000000000000000).
  field.
Qed.

(** X7.  [apply_scaling] keeps the distance coordinate, the number of
    channels and the number of samples of every channel, and puts every
    sample through the same arithmetic; in exact arithmetic that is a
    multiplication by 5.6640625e-10.  In binary64 the five operations round
    one after the other: the sample 1.0 becomes 5.6640625000000006e-10,
    which is above the double nearest to 5.6640625e-10. *)
Theorem apply_scaling_factor :
  (forall (R : Type) (N : Number R) (da : DataArray R (list R)),
      da_distance (apply_scaling da) = da_distance da
      /\ length (da_data (apply_scaling da)) = length (da_data da)
      /\ (forall k ch, da_data da !! k = Some ch ->
            exists ch', da_data (apply_scaling da) !! k = Some ch'
                        /\ length ch' = length ch
                        /\ forall t x, ch !! t = Some x ->
                                       ch' !! t = Some (scaled x)))
  /\ (forall x : Q, scaled x == x * 5.6640625e-10)
  /\ scaled (R:=float) (lit 1) = 5.6640625000000006e-10%float
  /\ PrimFloat.ltb (lit 5.6640625e-10) (scaled (R:=float) (lit 1)) = true.
Proof.
  split; [intros R N da; apply apply_scaling_shape|].
  split; [exact scaled_exact|].
  split; vm_compute; reflexivity.
Qed.
End ScaledExact.

Section StitchFacts.
Import DAS.
Context {R : Type} `{Number R} {T : Type}.

Lemma extended_cons (r : nat * nat) (rs : list (nat * nat)) (i : nat) :
  extended (r :: rs) (S i) = extended rs i.
Proof. reflexivity. Qed.

Lemma chunk_cons (da : DataArray R T) (r : nat * nat) (rs : list (nat * nat))
    (i : nat) :
  chunk da (r :: rs) (S i) = chunk da rs i.
Proof. reflexivity. Qed.

Lemma stitched_stitch (da : DataArray R T) (rs : list (nat * nat)) :
  stitched da rs = stitch (da_data da) rs.
Proof.
  unfold stitched. induction rs as [|r rs IH]; [reflexivity|].
  cbn [length seq map concat stitch]. f_equal.
  - unfold chunk, extended. cbn [lookup list_lookup].
    destruct rs as [|r' rs]; cbn; [reflexivity|].
    destruct (Nat.eqb r.2 r'.1); reflexivity.
  - rewrite <- IH, <- fmap_S_seq.
    change (map ?f (S <$> ?l)) with (f <$> (S <$> l)).
    rewrite <- list_fmap_compose. reflexivity.
Qed.

Lemma py_slice_length (data : list T) (i0 i1 : nat) :
  i1 <= length data -> length (py_slice data i0 i1) = i1 - i0.
Proof. intros Hb. unfold py_slice. rewrite length_take, length_drop. lia. Qed.

Lemma py_slice_lookup (data : list T) (i0 i1 k : nat) :
  k < i1 - i0 -> py_slice data i0 i1 !! k = data !! (i0 + k).
Proof.
  intros Hk. unfold py_slice. rewrite lookup_take_lt by exact Hk.
  apply lookup_drop.
Qed.

Lemma py_slice_app (data : list T) (a b c : nat) :
  a <= b -> b <= c ->
  py_slice data a b ++ py_slice data b c = py_slice data a c.
Proof.
  intros Hab Hbc. unfold py_slice.
  replace (drop b data) with (drop (b - a) (drop a data))
    by (rewrite drop_drop; f_equal; lia).
  rewrite take_take_drop. f_equal. lia.
Qed.
End StitchFacts.

Section TieFacts.
Import DAS.
Context {R : Type} `{Number R} {T : Type}.

Lemma ranges_of_cons (channels : list R) (r : list R) (rest : list (list R))
    (i1 i2 : nat) :
  row_range channels r = Some (i1, i2) ->
  ranges_of channels (r :: rest) = (i1, i2) :: ranges_of channels rest.
Proof. intros E. unfold ranges_of. cbn [omap list_omap]. rewrite E. reflexivity. Qed.

Lemma gaps_between_channels_cons (channels : list R) (r r' : list R)
    (rest : list (list R)) :
  gaps_between_channels channels (r :: r' :: rest)
  = match row_range channels r, row_range channels r' with
    | Some (_, i2), Some (i1', _) =>
        Bool.eqb (is_gap r r') (negb (Nat.eqb i2 i1'))
    | _, _ => false
    end && gaps_between_channels channels (r' :: rest).
Proof. reflexivity. Qed.

Lemma stitch_cons (data : list T) (r r' : nat * nat) (rest : list (nat * nat)) :
  stitch data (r :: r' :: rest)
  = py_slice data r.1 (if Nat.eqb r.2 r'.1 then r.2 else r.2 + 1)
      ++ stitch data (r' :: rest).
Proof. reflexivity. Qed.

Lemma ties_on_channels (channels : list R) (data : list T)
    (rows : list (list R)) :
  length data = length channels ->
  Forall (fun r => spans channels 0 r = true) rows ->
  gaps_between_channels channels rows = true ->
  forall st st',
    ties_of_rows channels rows st = Ret st' ->
    exists new_idx new_d,
      t_indices st' = t_indices st ++ new_idx
      /\ t_distances st' = t_distances st ++ new_d
      /\ mapped_ranges st' = mapped_ranges st ++ ranges_of channels rows
      /\ Forall2 (on_nearest channels data
                    (stitch data (ranges_of channels rows)) (icount st))
           new_idx new_d
      /\ match rows with
         | [] => True
         | r :: _ =>
             icount st'
             = (icount st
                + Z.of_nat (length (stitch data (ranges_of channels rows))) - 1)%Z
             /\ last new_idx = Some (icount st')
             /\ exists i1 i2,
                 row_range channels r = Some (i1, i2)
                 /\ stitch data (ranges_of channels rows) !! 0 = data !! i1
         end.
Proof.
  intros Hlen S. induction S as [|r rest Sr S IH]; intros G st st' E.
  { injection E as <-. exists [], []. rewrite !app_nil_r.
    repeat split; constructor. }
  cbn [ties_of_rows] in E. unfold spans in Sr.
  destruct (row_range channels r) as [[i1 i2]|] eqn:Hrr; [|discriminate].
  apply Nat.leb_le in Sr. rewrite Nat.add_0_r in Sr.
  pose proof Hrr as Hrr'. unfold row_range in Hrr'.
  destruct (r !! 0) as [x1_i|]; [|discriminate].
  destruct (r !! 1) as [y1_i|]; [|discriminate].
  destruct (r !! 2) as [d1_i|]; [|discriminate].
  destruct (r !! 3) as [x2_i|]; [|discriminate].
  destruct (r !! 4) as [y2_i|]; [|discriminate].
  destruct (r !! 5) as [d2_i|]; [|discriminate].
  destruct (nearest channels d1_i) as [j1|e] eqn:N1; [|discriminate].
  destruct (nearest channels d2_i) as [j2|e] eqn:N2; [|discriminate].
  injection Hrr' as -> ->.
  rewrite !bind_ret in E. cbn zeta in E.
  pose proof (nearest_lt_length _ _ _ N1) as B1.
  pose proof (nearest_lt_length _ _ _ N2) as B2.
  rewrite <- Hlen in B1, B2.
  rewrite (ranges_of_cons channels r rest i1 i2 Hrr).
  destruct rest as [|r' rest'].
  - (* the last line *)
    cbn in E. injection E as <-. clear IH.
    exists [icount st; (icount st + (Z.of_nat i2 - Z.of_nat i1))%Z], [d1_i; d2_i].
    cbn [t_indices t_distances mapped_ranges icount push_range push_tie advance
         ranges_of omap list_omap stitch fst snd].
    rewrite app_nil_r, <- !app_assoc. cbn [app].
    rewrite py_slice_length by lia.
    split; [reflexivity|]. split; [reflexivity|]. split; [reflexivity|].
    split.
    + constructor; [|constructor; [|constructor]].
      * exists i1. split; [exact N1|]. split; [lia|]. split; [exact B1|].
        rewrite Z.sub_diag. change (Z.to_nat 0) with 0.
        rewrite py_slice_lookup by lia. f_equal. lia.
      * exists i2. split; [exact N2|]. split; [lia|]. split; [exact B2|].
        replace (Z.to_nat (icount st + (Z.of_nat i2 - Z.of_nat i1) - icount st))
          with (i2 - i1) by lia.
        rewrite py_slice_lookup by lia. f_equal. lia.
    + split; [lia|]. split; [reflexivity|].
      exists i1, i2. split; [reflexivity|].
      rewrite py_slice_lookup by lia. f_equal. lia.
  - (* a line with a line after it *)
    inversion S as [|? ? Sr' _]; subst. unfold spans in Sr'.
    destruct (row_range channels r') as [[i1' i2']|] eqn:Hrr2; [|discriminate].
    rewrite gaps_between_channels_cons, Hrr, Hrr2 in G.
    apply andb_prop in G as [Ga G].
    specialize (IH G).
    rewrite (ranges_of_cons channels r' rest' i1' i2' Hrr2) in *.
    rewrite stitch_cons. cbn [fst snd].
    set (rest_out := stitch data ((i1', i2') :: ranges_of channels rest')) in *.
    clearbody rest_out.
    destruct (is_gap r r') eqn:Eg.
    + (* a gap: the end of the line is a tie, and its channel is collected *)
      assert (Ne : Nat.eqb i2 i1' = false).
      { destruct (Nat.eqb i2 i1'); [discriminate | reflexivity]. }
      rewrite Ne.
      apply IH in E as (new_idx & new_d & Ei & Ed & Er & F & Hc & Hl & _).
      cbn [t_indices t_distances mapped_ranges icount push_range push_tie advance] in *.
      exists (icount st :: (icount st + (Z.of_nat i2 - Z.of_nat i1))%Z :: new_idx),
             (d1_i :: d2_i :: new_d).
      rewrite Ei, Ed, Er, <- !app_assoc. cbn [app].
      split; [reflexivity|]. split; [reflexivity|]. split; [reflexivity|].
      rewrite length_app, py_slice_length by lia.
      split.
      * constructor; [|constructor].
        -- exists i1. split; [exact N1|]. split; [lia|]. split; [exact B1|].
           rewrite Z.sub_diag. change (Z.to_nat 0) with 0.
           rewrite lookup_app_l by (rewrite py_slice_length; lia).
           rewrite py_slice_lookup by lia. f_equal. lia.
        -- exists i2. split; [exact N2|]. split; [lia|]. split; [exact B2|].
           replace (Z.to_nat (icount st + (Z.of_nat i2 - Z.of_nat i1) - icount st))
             with (i2 - i1) by lia.
           rewrite lookup_app_l by (rewrite py_slice_length; lia).
           rewrite py_slice_lookup by lia. f_equal. lia.
        -- eapply Forall2_impl; [exact F|].
           intros idx d (c & Nc & Hb & Bc & Hlook).
           exists c. split; [exact Nc|]. split; [lia|]. split; [exact Bc|].
           rewrite lookup_app_r by (rewrite py_slice_length; lia).
           rewrite py_slice_length by lia. rewrite <- Hlook. f_equal. lia.
      * split; [lia|]. split.
        -- destruct new_idx as [|z new_idx]; [discriminate|]. exact Hl.
        -- exists i1, i2. split; [reflexivity|].
           rewrite lookup_app_l by (rewrite py_slice_length; lia).
           rewrite py_slice_lookup by lia. f_equal. lia.
    + (* no gap: the next line starts at the channel this one ends at *)
      assert (Ee : Nat.eqb i2 i1' = true).
      { destruct (Nat.eqb i2 i1'); [reflexivity | discriminate]. }
      rewrite Ee. apply Nat.eqb_eq in Ee. subst i1'.
      apply IH in E as (new_idx & new_d & Ei & Ed & Er & F & Hc & Hl & Hfirst).
      cbn [t_indices t_distances mapped_ranges icount push_range push_tie advance] in *.
      exists (icount st :: new_idx), (d1_i :: new_d).
      rewrite Ei, Ed, Er, <- !app_assoc. cbn [app].
      split; [reflexivity|]. split; [reflexivity|]. split; [reflexivity|].
      rewrite length_app, py_slice_length by lia.
      destruct Hfirst as (k1 & k2 & Hk & Hfirst).
      assert (k1 = i2) by congruence. subst k1.
      assert (Hstart : (py_slice data i1 i2 ++ rest_out) !! 0 = data !! i1).
      { destruct (Nat.eq_dec i1 i2) as [->|Hne].
        - unfold py_slice at 1. rewrite Nat.sub_diag, take_0. exact Hfirst.
        - rewrite lookup_app_l by (rewrite py_slice_length; lia).
          rewrite py_slice_lookup by lia. f_equal. lia. }
      split.
      * constructor.
        -- exists i1. split; [exact N1|]. split; [lia|]. split; [exact B1|].
           rewrite Z.sub_diag. exact Hstart.
        -- eapply Forall2_impl; [exact F|].
           intros idx d (c & Nc & Hb & Bc & Hlook).
           exists c. split; [exact Nc|]. split; [lia|]. split; [exact Bc|].
           rewrite lookup_app_r by (rewrite py_slice_length; lia).
           rewrite py_slice_length by lia. rewrite <- Hlook. f_equal. lia.
      * split; [lia|]. split.
        -- destruct new_idx as [|z new_idx]; [discriminate|]. exact Hl.
        -- exists i1, i2. split; [reflexivity | exact Hstart].
Qed.
End TieFacts.

Section MappingFacts.
Import DAS.
Context {R : Type} `{Number R} {T : Type}.

Lemma spans_channels (channels : list R) (least : nat) (r : list R) :
  spans channels least r = true -> channels <> [].
Proof.
  unfold spans, row_range. intros E ->.
  destruct (r !! 2); [|discriminate]. destruct (r !! 5); discriminate.
Qed.

(** A line that ends after the channel it starts at does not end before
    it. *)
Lemma spans_weaken (channels : list R) (rows : list (list R)) :
  Forall (fun r => spans channels 1 r = true) rows ->
  Forall (fun r => spans channels 0 r = true) rows.
Proof.
  intros S. eapply Forall_impl; [exact S|]. intros r. unfold spans.
  destruct (row_range channels r) as [[i1 i2]|]; [|discriminate].
  intros E. apply Nat.leb_le in E. apply Nat.leb_le. lia.
Qed.

(** Tie indices that go up strictly come from lines that each end after the
    channel they start at. *)
Lemma ascending_ties_span (channels : list R) (rows : list (list R)) :
  forall st st',
    ties_of_rows channels rows st = Ret st' ->
    ascending true (t_indices st') = true ->
    Forall (fun r => spans channels 1 r = true) rows.
Proof.
  induction rows as [|r rest IH]; intros st st' E A; [constructor|].
  cbn [ties_of_rows] in E.
  destruct (r !! 0) as [x1_i|]; [|discriminate].
  destruct (r !! 1) as [y1_i|]; [|discriminate].
  destruct (r !! 2) as [d1_i|] eqn:E2; [|discriminate].
  destruct (r !! 3) as [x2_i|]; [|discriminate].
  destruct (r !! 4) as [y2_i|]; [|discriminate].
  destruct (r !! 5) as [d2_i|] eqn:E5; [|discriminate].
  destruct (nearest channels d1_i) as [i1|e] eqn:N1; [|discriminate].
  rewrite bind_ret in E.
  destruct (nearest channels d2_i) as [i2|e] eqn:N2; [|discriminate].
  rewrite bind_ret in E. cbn zeta in E.
  constructor; [|exact (IH _ _ E A)].
  unfold spans, row_range. rewrite E2, E5, N1, N2. apply Nat.leb_le.
  destruct (ties_of_rows_prefix _ _ _ _ E) as (more & Em & Hm).
  assert (Hadj : exists m,
             t_indices st'
             = t_indices st
                 ++ icount st :: (icount st + (Z.of_nat i2 - Z.of_nat i1))%Z :: m).
  { destruct rest as [|r' rest']; [|destruct (is_gap r r')];
      cbn [t_indices icount push_range push_tie advance] in Em, Hm.
    - exists more. rewrite Em, <- !app_assoc. reflexivity.
    - exists more. rewrite Em, <- !app_assoc. reflexivity.
    - destruct Hm as (more' & ->); [discriminate|].
      exists more'. rewrite Em, <- !app_assoc. reflexivity. }
  destruct Hadj as (m & Hadj). rewrite Hadj in A.
  apply ascending_adjacent in A. cbn [goes_up] in A. apply Z.ltb_lt in A. lia.
Qed.

(** Where the two loops see the same gaps and every line ends after the
    channel it starts at, xdas accepts the ties for the channels. *)
Lemma accepted_where_loops_agree (channels : list R) (data : list T)
    (rows : list (list R)) (st : Ties R) :
  length data = length channels ->
  Forall (fun r => spans channels 1 r = true) rows ->
  gaps_between_channels channels rows = true ->
  rows <> [] ->
  ties_of_rows channels rows no_ties = Ret st ->
  accepted (t_indices st) (stitch data (mapped_ranges st)) = true.
Proof.
  intros Hlen S G Hne E.
  destruct (ties_on_channels channels data rows Hlen (spans_weaken _ _ S) G no_ties st E)
    as (new_idx & new_d & Ei & _ & Er & _ & Hlast).
  cbn [no_ties t_indices mapped_ranges icount app] in Ei, Er, Hlast.
  destruct rows as [|r rest]; [congruence|].
  destruct Hlast as (Hcount & Hl & _).
  unfold accepted. rewrite is_strictly_increasing_ascending.
  rewrite (ties_of_rows_ascending true channels (r :: rest) S no_ties st);
    [|split; [reflexivity | intros y Hy; discriminate] | exact E].
  rewrite Ei, Hl, Er. cbn [andb]. apply Z.eqb_eq. lia.
Qed.

(** What [apply_mapping] returns where the loops agree. *)
Lemma apply_mapping_where_loops_agree (fs : gmap string (list (list R)))
    (da : DataArray R T) (segments_filename : string) (rows : list (list R)) :
  fs !! "good_segments.txt" = Some rows ->
  wide rows -> all_same_length rows = true -> 2 <= length rows ->
  length (da_data da) = length (da_distance da) ->
  Forall (fun r => spans (da_distance da) 1 r = true) rows ->
  gaps_between_channels (da_distance da) rows = true ->
  exists st,
    ties_of_rows (da_distance da) rows no_ties = Ret st
    /\ apply_mapping fs da segments_filename
       = Ret (mkMappedArray (stitched da (mapped_ranges st))
                (mkCoordinate (t_indices st) (t_distances st))
                (mkCoordinate (t_indices st) (t_lat st))
                (mkCoordinate (t_indices st) (t_lon st))).
Proof.
  intros Hf W Hs Hn Hlen S G.
  assert (Hne : rows <> []) by (destruct rows; [cbn in Hn; lia | discriminate]).
  assert (Hc : da_distance da <> []).
  { destruct rows as [|r rest]; [congruence|].
    inversion S as [|? ? Sr _]; subst. exact (spans_channels _ _ _ Sr). }
  destruct (apply_mapping_table fs da segments_filename rows Hf W Hs Hn Hc)
    as (st & E & M).
  exists st. split; [exact E|].
  rewrite M, stitched_stitch.
  rewrite (accepted_where_loops_agree _ _ rows st Hlen S G Hne E). reflexivity.
Qed.

(** X10.  Where the two loops see the same gaps (a line starts at another
    distance than the line before ends at exactly when it starts at another
    channel) and every line ends after the channel it starts at,
    [apply_mapping] returns, and every tie lies on the channel it is meant
    for: the collected channel at the index of the tie is the raw channel
    nearest to the distance of the tie; and the last tie lies on the last
    collected channel.  For a table of two lines or more and an array with
    as many channels as distances, in any arithmetic. *)
Theorem apply_mapping_ties_on_nearest_channels (fs : gmap string (list (list R)))
    (da : DataArray R T) (segments_filename : string) (rows : list (list R)) :
  fs !! "good_segments.txt" = Some rows ->
  wide rows -> all_same_length rows = true -> 2 <= length rows ->
  length (da_data da) = length (da_distance da) ->
  Forall (fun r => spans (da_distance da) 1 r = true) rows ->
  gaps_between_channels (da_distance da) rows = true ->
  exists out last_index,
    apply_mapping fs da segments_filename = Ret out
    /\ last (tie_indices (distance out)) = Some last_index
    /\ Z.of_nat (length (data out)) = (last_index + 1)%Z
    /\ forall j idx d,
         tie_indices (distance out) !! j = Some idx ->
         tie_values (distance out) !! j = Some d ->
         exists c channel,
           nearest (da_distance da) d = Ret c
           /\ (0 <= idx)%Z
           /\ da_data da !! c = Some channel
           /\ data out !! Z.to_nat idx = Some channel.
Proof.
  intros Hf W Hs Hn Hlen S G.
  destruct (apply_mapping_where_loops_agree fs da segments_filename rows
              Hf W Hs Hn Hlen S G) as (st & E & M).
  destruct (ties_on_channels (da_distance da) (da_data da) rows Hlen
              (spans_weaken _ _ S) G no_ties st E)
    as (new_idx & new_d & Ei & Ed & Er & F & Hlast).
  cbn [no_ties t_indices t_distances mapped_ranges icount app] in Ei, Ed, Er, F, Hlast.
  destruct rows as [|r rest]; [cbn in Hn; lia|].
  destruct Hlast as (Hcount & Hl & _).
  eexists _, (icount st). split; [exact M|].
  cbn [distance data tie_indices tie_values].
  rewrite Ei, Ed, Er, stitched_stitch.
  split; [exact Hl|]. split; [lia|].
  intros j idx d Hi Hd.
  destruct (Forall2_lookup_lr _ _ _ _ _ _ F Hi Hd) as (c & Nc & Hb & Bc & Hlook).
  destruct (lookup_lt_is_Some_2 _ _ Bc) as [channel Hch].
  exists c, channel. split; [exact Nc|]. split; [exact Hb|]. split; [exact Hch|].
  rewrite Z.sub_0_r in Hlook. rewrite Hlook. exact Hch.
Qed.

(** Without a gap the collected channels are one run of the raw ones. *)
Lemma stitch_gap_free (channels : list R) (data : list T)
    (rows : list (list R)) :
  length data = length channels ->
  Forall (fun r => spans channels 0 r = true) rows ->
  gaps_between_channels channels rows = true ->
  gaps rows = 0 ->
  match rows with
  | [] => True
  | r :: _ =>
      exists i1 a b i2,
        row_range channels r = Some (i1, a)
        /\ last rows ≫= row_range channels = Some (b, i2)
        /\ i1 <= i2 /\ i2 < length data
        /\ stitch data (ranges_of channels rows) = py_slice data i1 (i2 + 1)
  end.
Proof.
  intros Hlen S. induction S as [|r rest Sr S IH]; intros G Hg; [exact I|].
  unfold spans in Sr.
  destruct (row_range channels r) as [[i1 i2]|] eqn:Hrr; [|discriminate].
  apply Nat.leb_le in Sr. rewrite Nat.add_0_r in Sr.
  assert (B2 : i2 < length data).
  { rewrite Hlen. unfold row_range in Hrr.
    destruct (r !! 2) as [a|]; [|discriminate].
    destruct (r !! 5) as [b|]; [|discriminate].
    destruct (nearest channels a) as [j1|]; [|discriminate].
    destruct (nearest channels b) as [j2|] eqn:E2; [|discriminate].
    injection Hrr as _ <-. exact (nearest_lt_length _ _ _ E2). }
  rewrite (ranges_of_cons channels r rest i1 i2 Hrr).
  destruct rest as [|r' rest'].
  - exists i1, i2, i1, i2. cbn [last mbind option_bind]. rewrite Hrr.
    repeat split; try assumption. cbn [ranges_of omap list_omap stitch fst snd].
    apply app_nil_r.
  - inversion S as [|? ? Sr' _]; subst. unfold spans in Sr'.
    destruct (row_range channels r') as [[i1' i2']|] eqn:Hrr2; [|discriminate].
    rewrite gaps_between_channels_cons, Hrr, Hrr2 in G.
    apply andb_prop in G as [Ga G].
    change (gaps (r :: r' :: rest'))
      with ((if is_gap r r' then 1 else 0) + gaps (r' :: rest')) in Hg.
    destruct (is_gap r r'); [lia|]. cbn [negb] in Ga.
    destruct (Nat.eqb_spec i2 i1') as [<-|]; [|discriminate].
    destruct (IH G) as (k1 & a & b & k2 & Hk & Hla & Hle & Hb & Hst); [lia|].
    injection Hk as <- <-.
    exists i1, i2, b, k2.
    split; [reflexivity|]. split; [exact Hla|]. split; [lia|]. split; [exact Hb|].
    rewrite (ranges_of_cons channels r' rest' i2 i2' Hrr2) in *.
    rewrite stitch_cons. cbn [fst snd]. rewrite Nat.eqb_refl, Hst.
    apply py_slice_app; lia.
Qed.

(** X11.  For a table without a gap, whose lines each start at the channel
    the line before ends at and end after the channel they start at,
    [apply_mapping] returns the raw channels from the channel nearest to
    the start of the first line to the channel nearest to the end of the
    last line, both included, in their order and each once.  For a table of
    two lines or more and an array with as many channels as distances, in
    any arithmetic. *)
Theorem apply_mapping_gap_free_is_one_slice (fs : gmap string (list (list R)))
    (da : DataArray R T) (segments_filename : string) (rows : list (list R)) :
  fs !! "good_segments.txt" = Some rows ->
  wide rows -> all_same_length rows = true -> 2 <= length rows ->
  length (da_data da) = length (da_distance da) ->
  Forall (fun r => spans (da_distance da) 1 r = true) rows ->
  gaps_between_channels (da_distance da) rows = true ->
  gaps rows = 0 ->
  exists out i_first a b i_last,
    apply_mapping fs da segments_filename = Ret out
    /\ head rows ≫= row_range (da_distance da) = Some (i_first, a)
    /\ last rows ≫= row_range (da_distance da) = Some (b, i_last)
    /\ data out = py_slice (da_data da) i_first (i_last + 1)
    /\ length (data out) = i_last - i_first + 1.
Proof.
  intros Hf W Hs Hn Hlen S G Hg.
  destruct (apply_mapping_where_loops_agree fs da segments_filename rows
              Hf W Hs Hn Hlen S G) as (st & E & M).
  pose proof (spans_weaken _ _ S) as S0.
  destruct (ties_on_channels (da_distance da) (da_data da) rows Hlen S0 G no_ties st E)
    as (_ & _ & _ & _ & Er & _ & _).
  cbn [no_ties mapped_ranges app] in Er.
  pose proof (stitch_gap_free (da_distance da) (da_data da) rows Hlen S0 G Hg) as Hst.
  destruct rows as [|r rest]; [cbn in Hn; lia|].
  destruct Hst as (i1 & a & b & i2 & Hr & Hla & Hle & Hb & Hst).
  eexists _, i1, a, b, i2. split; [exact M|].
  cbn [data head mbind option_bind].
  rewrite Er, stitched_stitch, Hst.
  split; [exact Hr|]. split; [exact Hla|]. split; [reflexivity|].
  rewrite py_slice_length by lia. lia.
Qed.
End MappingFacts.

Section CountFacts.
Import DAS.
Context {R : Type} `{Number R} {T : Type}.

Lemma hidden_gaps_cons (channels : list R) (r r' : list R) (rest : list (list R)) :
  hidden_gaps channels (r :: r' :: rest)
  = match row_range channels r, row_range channels r' with
    | Some (_, i2), Some (i1', _) =>
        if is_gap r r' && Nat.eqb i2 i1' then 1 else 0
    | _, _ => 0
    end + hidden_gaps channels (r' :: rest).
Proof. reflexivity. Qed.

Lemma jumps_are_gaps_cons (channels : list R) (r r' : list R) (rest : list (list R)) :
  jumps_are_gaps channels (r :: r' :: rest)
  = match row_range channels r, row_range channels r' with
    | Some (_, i2), Some (i1', _) => is_gap r r' || Nat.eqb i2 i1'
    | _, _ => false
    end && jumps_are_gaps channels (r' :: rest).
Proof. reflexivity. Qed.

Lemma ties_count_channels (channels : list R) (data : list T)
    (rows : list (list R)) :
  length data = length channels ->
  Forall (fun r => spans channels 0 r = true) rows ->
  jumps_are_gaps channels rows = true ->
  forall st st',
    ties_of_rows channels rows st = Ret st' ->
    mapped_ranges st' = mapped_ranges st ++ ranges_of channels rows
    /\ match rows with
       | [] => True
       | _ :: _ =>
           (icount st' + 1
            = icount st
              + Z.of_nat (length (stitch data (ranges_of channels rows)))
              + Z.of_nat (hidden_gaps channels rows))%Z
           /\ last (t_indices st') = Some (icount st')
       end.
Proof.
  intros Hlen S. induction S as [|r rest Sr S IH]; intros G st st' E.
  { injection E as <-. rewrite app_nil_r. split; [reflexivity | exact I]. }
  cbn [ties_of_rows] in E. unfold spans in Sr.
  destruct (row_range channels r) as [[i1 i2]|] eqn:Hrr; [|discriminate].
  apply Nat.leb_le in Sr. rewrite Nat.add_0_r in Sr.
  pose proof Hrr as Hrr'. unfold row_range in Hrr'.
  destruct (r !! 0) as [x1_i|]; [|discriminate].
  destruct (r !! 1) as [y1_i|]; [|discriminate].
  destruct (r !! 2) as [d1_i|]; [|discriminate].
  destruct (r !! 3) as [x2_i|]; [|discriminate].
  destruct (r !! 4) as [y2_i|]; [|discriminate].
  destruct (r !! 5) as [d2_i|]; [|discriminate].
  destruct (nearest channels d1_i) as [j1|e] eqn:N1; [|discriminate].
  destruct (nearest channels d2_i) as [j2|e] eqn:N2; [|discriminate].
  injection Hrr' as -> ->.
  rewrite !bind_ret in E. cbn zeta in E.
  pose proof (nearest_lt_length _ _ _ N2) as B2. rewrite <- Hlen in B2.
  rewrite (ranges_of_cons channels r rest i1 i2 Hrr).
  destruct rest as [|r' rest'].
  - cbn in E. injection E as <-. clear IH.
    cbn [t_indices mapped_ranges icount push_range push_tie advance
         ranges_of omap list_omap stitch fst snd hidden_gaps].
    rewrite app_nil_r, py_slice_length by lia.
    split; [reflexivity|]. split; [lia|]. rewrite last_snoc. reflexivity.
  - inversion S as [|? ? Sr' _]; subst. unfold spans in Sr'.
    destruct (row_range channels r') as [[i1' i2']|] eqn:Hrr2; [|discriminate].
    rewrite jumps_are_gaps_cons, Hrr, Hrr2 in G.
    apply andb_prop in G as [Ga G].
    specialize (IH G).
    rewrite hidden_gaps_cons, Hrr, Hrr2.
    rewrite (ranges_of_cons channels r' rest' i1' i2' Hrr2) in *.
    rewrite stitch_cons. cbn [fst snd].
    set (rest_out := stitch data ((i1', i2') :: ranges_of channels rest')) in *.
    clearbody rest_out.
    set (hidden := hidden_gaps channels (r' :: rest')) in *. clearbody hidden.
    destruct (is_gap r r') eqn:Eg; destruct (Nat.eqb i2 i1') eqn:Ee;
      cbn [andb orb] in Ga |- *; try discriminate;
      apply IH in E as (Er & Hc & Hl);
      cbn [t_indices mapped_ranges icount push_range push_tie advance] in *;
      rewrite Er, <- app_assoc; cbn [app]; (split; [reflexivity|]);
      (split; [|exact Hl]);
      rewrite length_app, py_slice_length by lia; lia.
Qed.

(** Where every jump between channels is a gap in distance, xdas accepts
    the ties exactly when every line ends after the channel it starts at
    and no gap in distance lies between two lines that meet at one
    channel. *)
Lemma accepted_without_hidden_gaps (channels : list R) (data : list T)
    (rows : list (list R)) (st : Ties R) :
  length data = length channels ->
  jumps_are_gaps channels rows = true ->
  rows <> [] ->
  ties_of_rows channels rows no_ties = Ret st ->
  accepted (t_indices st) (stitch data (mapped_ranges st)) = true
  <-> Forall (fun r => spans channels 1 r = true) rows
      /\ hidden_gaps channels rows = 0.
Proof.
  intros Hlen G Hne E.
  assert (Count : Forall (fun r => spans channels 1 r = true) rows ->
                  mapped_ranges st = ranges_of channels rows
                  /\ (icount st + 1
                      = Z.of_nat (length (stitch data (ranges_of channels rows)))
                        + Z.of_nat (hidden_gaps channels rows))%Z
                  /\ last (t_indices st) = Some (icount st)).
  { intros S.
    destruct (ties_count_channels channels data rows Hlen (spans_weaken _ _ S) G
                no_ties st E) as (Er & Hlast).
    cbn [no_ties mapped_ranges icount app] in Er, Hlast.
    destruct rows as [|r rest]; [congruence|].
    destruct Hlast as (Hcount & Hl). repeat split; [exact Er | lia | exact Hl]. }
  unfold accepted. rewrite is_strictly_increasing_ascending. split.
  - intros A. apply andb_prop in A as [A L].
    pose proof (ascending_ties_span channels rows no_ties st E A) as S.
    split; [exact S|].
    destruct (Count S) as (Er & Hcount & Hl).
    rewrite Hl, Er in L. apply Z.eqb_eq in L. lia.
  - intros [S Hh]. destruct (Count S) as (Er & Hcount & Hl).
    rewrite (ties_of_rows_ascending true channels rows S no_ties st);
      [|split; [reflexivity | intros y Hy; discriminate] | exact E].
    rewrite Hl, Er. cbn [andb]. apply Z.eqb_eq. lia.
Qed.

Lemma jumps_are_gaps_channels (channels : list R) (rows : list (list R)) :
  2 <= length rows -> jumps_are_gaps channels rows = true -> channels <> [].
Proof.
  destruct rows as [|r [|r' rest]]; cbn [length]; try lia. intros _.
  rewrite jumps_are_gaps_cons. unfold row_range. intros E ->.
  destruct (r !! 2); [|discriminate]. destruct (r !! 5); discriminate.
Qed.

(** X12.  The first loop tells a gap by the distances, the second by the
    channels.  Where every line that starts at another channel than the
    line before ends at starts at another distance too, [apply_mapping]
    returns exactly when every line ends after the channel it starts at and
    no gap in distance lies between two lines that meet at one channel; it
    raises [ValueError] otherwise.  A gap narrower than the spacing of the
    channels, or a segment shorter than it, makes the whole mapping
    fail.  For a table of two lines or more and an array with as many
    channels as distances, in any arithmetic. *)
Theorem apply_mapping_hidden_gaps (fs : gmap string (list (list R)))
    (da : DataArray R T) (segments_filename : string) (rows : list (list R)) :
  fs !! "good_segments.txt" = Some rows ->
  wide rows -> all_same_length rows = true -> 2 <= length rows ->
  length (da_data da) = length (da_distance da) ->
  jumps_are_gaps (da_distance da) rows = true ->
  (returned (apply_mapping fs da segments_filename) = true
   <-> Forall (fun r => spans (da_distance da) 1 r = true) rows
       /\ hidden_gaps (da_distance da) rows = 0)
  /\ (returned (apply_mapping fs da segments_filename) = false ->
      apply_mapping fs da segments_filename = Raise ValueError).
Proof.
  intros Hf W Hs Hn Hlen G.
  assert (Hne : rows <> []) by (destruct rows; [cbn in Hn; lia | discriminate]).
  pose proof (jumps_are_gaps_channels _ _ Hn G) as Hc.
  destruct (apply_mapping_table fs da segments_filename rows Hf W Hs Hn Hc)
    as (st & E & M).
  pose proof (accepted_without_hidden_gaps (da_distance da) (da_data da) rows st
                Hlen G Hne E) as A.
  rewrite M, stitched_stitch.
  destruct (accepted (t_indices st) (stitch (da_data da) (mapped_ranges st))).
  - split; [|discriminate]. split; [intros _; apply A; reflexivity | reflexivity].
  - split; [|reflexivity]. split; [discriminate|].
    intros S. apply A in S. discriminate.
Qed.
End CountFacts.

Section TiePointFacts.
Import DAS.
Context {R : Type} `{Number R} {T : Type}.

End TiePointFacts.

(** ** Examples in exact arithmetic *)



(** Three segments with a gap after the first: the ties are at 0, 10, 11, 21
    and 26, on 27 channels, and the tie at 11 lies on raw channel 15. *)
Lemma apply_mapping_ties_on_nearest_channels_witness :
  exists out,
    DAS.apply_mapping (only_file table_with_a_gap) example_da "good_segments.txt"
    = Ret out
    /\ DAS.tie_indices (DAS.distance out) = [0; 10; 11; 21; 26]%Z
    /\ length (DAS.data out) = 27
    /\ DAS.data out !! 11 = Some 15.
Proof.
  destruct (apply_mapping_ties_on_nearest_channels (only_file table_with_a_gap)
              example_da "good_segments.txt" table_with_a_gap)
    as (out & last_index & E & _).
  - reflexivity.
  - repeat constructor.
  - reflexivity.
  - simpl; lia.
  - reflexivity.
  - repeat constructor.
  - vm_compute; reflexivity.
  - exists out. split; [exact E|].
    vm_compute in E. injection E as <-. vm_compute. repeat split; reflexivity.
Defined.

(** Three segments end to end from 0 m to 30 m: the raw channels 0 to 30. *)
Lemma apply_mapping_gap_free_is_one_slice_witness :
  exists out,
    DAS.apply_mapping (only_file table_without_gaps) example_da "good_segments.txt"
    = Ret out
    /\ DAS.data out = seq 0 31.
Proof.
  destruct (apply_mapping_gap_free_is_one_slice (only_file table_without_gaps)
              example_da "good_segments.txt" table_without_gaps)
    as (out & i_first & a & b & i_last & E & Hf & Hl & Hd & _).
  - reflexivity.
  - repeat constructor.
  - reflexivity.
  - simpl; lia.
  - reflexivity.
  - repeat constructor.
  - vm_compute; reflexivity.
  - reflexivity.
  - exists out. split; [exact E|]. rewrite Hd.
    vm_compute in Hf. vm_compute in Hl.
    injection Hf as <- _. injection Hl as _ <-. reflexivity.
Defined.

(** Two segments 0.2 m apart, both ends nearest to channel 10: the first
    loop counts a gap, the second collects no channel for it, and xdas
    refuses the ties, the last of which would have the index 21 on 21
    channels. *)
Lemma apply_mapping_hidden_gaps_witness :
  hidden_gaps (DAS.da_distance example_da) table_with_a_hidden_gap = 1
  /\ DAS.apply_mapping (only_file table_with_a_hidden_gap) example_da
       "good_segments.txt"
     = Raise ValueError
  /\ last (DAS.t_indices (DAS.ties_of (DAS.da_distance example_da)
                            table_with_a_hidden_gap)) = Some 21%Z
  /\ length (DAS.stitched example_da
               (DAS.mapped_ranges (DAS.ties_of (DAS.da_distance example_da)
                                     table_with_a_hidden_gap))) = 21.
Proof.
  assert (Hh : hidden_gaps (DAS.da_distance example_da) table_with_a_hidden_gap = 1)
    by (vm_compute; reflexivity).
  split; [exact Hh|]. split; [|split; vm_compute; reflexivity].
  destruct (apply_mapping_hidden_gaps (only_file table_with_a_hidden_gap)
              example_da "good_segments.txt" table_with_a_hidden_gap)
    as (Hiff & Hraise).
  - reflexivity.
  - repeat constructor.
  - reflexivity.
  - simpl; lia.
  - reflexivity.
  - vm_compute; reflexivity.
  - apply Hraise.
    destruct (returned (DAS.apply_mapping (only_file table_with_a_hidden_gap)
                          example_da "good_segments.txt")); [|reflexivity].
    destruct (proj1 Hiff eq_refl) as [_ H0]. rewrite Hh in H0. discriminate.
Defined.

Section NearestMore.
Import DAS.
Local Open Scope Q_scope.

(** X13.  Without a channel there is no nearest channel: [ValueError], in
    any arithmetic.  With one, in exact arithmetic, the channel
    [apply_mapping] takes for a distance is one of the channels, none is
    closer to the distance, and every channel before it is farther: of two
    channels as close, the first is taken. *)
Theorem nearest_is_first_closest :
  (forall (R : Type) (N : Number R) (d : R), nearest [] d = Raise ValueError)
  /\ (forall (c0 : Q) (cs : list Q) (d : Q),
         exists i c,
           nearest (c0 :: cs) d = Ret i
           /\ (c0 :: cs) !! i = Some c
           /\ (forall j x, (c0 :: cs) !! j = Some x ->
                           Qabs (c - d) <= Qabs (x - d))
           /\ (forall j x, (j < i)%nat -> (c0 :: cs) !! j = Some x ->
                           Qabs (c - d) < Qabs (x - d))).
Proof.
  split; [reflexivity|]. intros c0 cs d.
  destruct (nearest_total (c0 :: cs) d) as [i E]; [discriminate|].
  destruct (nearest_first_closest (c0 :: cs) d i E) as (c & Hc & Hle & Hlt).
  exists i, c. repeat split; assumption.
Qed.

(** X14.  In exact arithmetic, over distances that do not go down along the
    channels, the nearest channel of a distance is not before the nearest
    channel of a smaller distance. *)
Theorem nearest_is_monotone (cs : list Q) (d1 d2 : Q) (i1 i2 : nat) :
  nondecreasing cs -> d1 <= d2 ->
  nearest cs d1 = Ret i1 -> nearest cs d2 = Ret i2 ->
  (i1 <= i2)%nat.
Proof. exact (nearest_monotone cs d1 d2 i1 i2). Qed.

(** Channels at 0, 1 and 2 m: 0.4 m is nearest to the first and 1.6 m to the
    last. *)
Lemma nearest_is_monotone_witness :
  nearest [0; 1; 2] 0.4 = Ret 0%nat /\ nearest [0; 1; 2] 1.6 = Ret 2%nat
  /\ (0 <= 2)%nat.
Proof.
  split; [reflexivity|]. split; [reflexivity|].
  apply (nearest_is_monotone [0; 1; 2] 0.4 1.6 0 2).
  - intros [|[|[|i]]] [|[|[|j]]] a b Hij Ha Hb; cbn in Ha, Hb;
      try discriminate; try lia;
      injection Ha as <-; injection Hb as <-; discriminate.
  - discriminate.
  - reflexivity.
  - reflexivity.
Defined.
End NearestMore.

(** * Further properties of Auto_process_HV.py *)

Section ReadFilesFacts.
Import HVSR.

Lemma get_lookup (s : string) :
  forall i, String.get i s = list_ascii_of_string s !! i.
Proof.
  induction s as [|c s IH]; intros [|i]; cbn; try reflexivity. apply IH.
Qed.

Lemma length_list_ascii (s : string) :
  length (list_ascii_of_string s) = String.length s.
Proof. induction s as [|c s IH]; cbn; [reflexivity | rewrite IH; reflexivity]. Qed.

(** What [basefile_of] returns, and when. *)
Lemma basefile_of_spec (filename : string) :
  (String.length filename <= 13 /\ basefile_of filename = Raise IndexError)
  \/ (13 < String.length filename
      /\ exists basefile,
          basefile_of filename = Ret basefile
          /\ String.length basefile = String.length filename
          /\ String.get 13 basefile = Some "*"%char
          /\ forall i, i <> 13 -> String.get i basefile = String.get i filename).
Proof.
  unfold basefile_of, setitem. rewrite length_list_ascii.
  destruct (decide (13 < String.length filename)) as [Hl|Hl]; [right | left].
  - split; [exact Hl|]. rewrite bind_ret. eexists. split; [reflexivity|].
    split; [|split].
    + rewrite <- !length_list_ascii, list_ascii_of_string_of_list_ascii.
      apply length_insert.
    + rewrite get_lookup, list_ascii_of_string_of_list_ascii.
      apply list_lookup_insert_eq. rewrite length_list_ascii. exact Hl.
    + intros i Hi. rewrite !get_lookup, list_ascii_of_string_of_list_ascii.
      apply list_lookup_insert_ne. congruence.
  - split; [lia | reflexivity].
Qed.

Lemma read_files_loop_spec (names : list string) :
  forall files log,
    read_files_loop names files log
    = (Ret (files ++ omap pattern_of names), log ++ map listed_line names).
Proof.
  induction names as [|name names IH]; intros files log.
  - cbn. rewrite !app_nil_r. reflexivity.
  - cbn [read_files_loop omap list_omap map]. unfold pattern_of at 1, listed_line at 1.
    destruct (basefile_of name) as [basefile|e].
    + change ((print name ≫= fun _ => read_files_loop names (files ++ [basefile])) log)
        with (read_files_loop names (files ++ [basefile]) (log ++ [Print name])).
      rewrite IH, <- !app_assoc. reflexivity.
    + change ((print (str_chars (list_ascii_of_string name))
                 ≫= fun _ => read_files_loop names files) log)
        with (read_files_loop names files
                (log ++ [Print (str_chars (list_ascii_of_string name))])).
      rewrite IH, <- !app_assoc. reflexivity.
Qed.

Lemma read_files_spec (names : list string) (log : list event) :
  read_files (Ret names) log
  = (Ret (unique (omap pattern_of names)), log ++ map listed_line names).
Proof.
  unfold read_files.
  change ((lift (Ret names) ≫= fun names0 =>
             read_files_loop names0 [] ≫= fun files => mret (unique files)) log)
    with (match read_files_loop names [] log with
          | (Ret files, log') => (Ret (unique files), log')
          | (Raise e, log') => (Raise e, log')
          end).
  rewrite read_files_loop_spec. reflexivity.
Qed.

(** ** np.unique *)

Lemma elem_of_drop_repeats (ar : list string) (x : string) :
  x ∈ drop_repeats ar <-> x ∈ ar.
Proof.
  induction ar as [|a [|b ar] IH]; [reflexivity | reflexivity |].
  change (drop_repeats (a :: b :: ar))
    with (if String.eqb a b then drop_repeats (b :: ar) else a :: drop_repeats (b :: ar)).
  destruct (String.eqb_spec a b) as [->|Hne].
  - rewrite IH, !elem_of_cons. tauto.
  - rewrite !elem_of_cons, IH, elem_of_cons. reflexivity.
Qed.

Lemma drop_repeats_sorted (ar : list string) :
  StronglySorted String.le ar ->
  StronglySorted String.le (drop_repeats ar) /\ NoDup (drop_repeats ar).
Proof.
  induction ar as [|a [|b ar] IH]; intros S.
  - split; constructor.
  - split; [exact S | apply NoDup_singleton].
  - change (drop_repeats (a :: b :: ar))
      with (if String.eqb a b then drop_repeats (b :: ar) else a :: drop_repeats (b :: ar)).
    inversion S as [|? ? S' Ha]; subst.
    destruct (IH S') as [IS IN].
    destruct (String.eqb_spec a b) as [->|Hne]; [split; assumption|].
    split.
    + constructor; [exact IS|]. apply Forall_forall. intros x Hx.
      apply (proj1 (elem_of_drop_repeats _ _)) in Hx.
      rewrite Forall_forall in Ha. apply Ha, Hx.
    + constructor; [|exact IN]. intros Hx.
      apply (proj1 (elem_of_drop_repeats _ _)) in Hx.
      apply Hne. inversion S' as [|? ? _ Hb]; subst.
      apply (anti_symm String.le).
      * rewrite Forall_forall in Ha. apply Ha. left.
      * apply elem_of_cons in Hx as [->|Hx]; [reflexivity|].
        rewrite Forall_forall in Hb. apply Hb, Hx.
Qed.

Lemma unique_spec (files : list string) :
  StronglySorted String.le (unique files)
  /\ NoDup (unique files)
  /\ forall x, x ∈ unique files <-> x ∈ files.
Proof.
  unfold unique.
  pose proof (StronglySorted_merge_sort String.le files) as S.
  destruct (drop_repeats_sorted _ S) as [S' N].
  split; [exact S'|]. split; [exact N|].
  intros x. rewrite elem_of_drop_repeats.
  rewrite (merge_sort_Permutation String.le files). reflexivity.
Qed.

Lemma elem_of_unique (files : list string) (x : string) :
  x ∈ unique files <-> x ∈ files.
Proof. apply unique_spec. Qed.

(** X15.  [read_files] does not raise on any list of names.  It prints one
    line for each name, and returns patterns in ascending order of their
    characters, each once.  The patterns are those of the names of fourteen
    characters or more: such a name with its fourteenth character replaced
    by a star, as long as the name and the same elsewhere.  A shorter name
    gives no pattern. *)
Theorem read_files_patterns (names : list string) (log : list event) :
  exists files,
    read_files (Ret names) log = (Ret files, log ++ map listed_line names)
    /\ StronglySorted String.le files
    /\ NoDup files
    /\ (forall basefile,
           basefile ∈ files
           <-> exists filename,
                 filename ∈ names /\ basefile_of filename = Ret basefile)
    /\ (forall filename, filename ∈ names ->
           (String.length filename <= 13 /\ basefile_of filename = Raise IndexError)
           \/ (13 < String.length filename
               /\ exists basefile,
                   basefile_of filename = Ret basefile
                   /\ String.length basefile = String.length filename
                   /\ String.get 13 basefile = Some "*"%char
                   /\ forall i, i <> 13 ->
                        String.get i basefile = String.get i filename)).
Proof.
  exists (unique (omap pattern_of names)).
  split; [apply read_files_spec|].
  destruct (unique_spec (omap pattern_of names)) as (S & N & Hin).
  split; [exact S|]. split; [exact N|]. split.
  - intros basefile. rewrite Hin, list_elem_of_omap. unfold pattern_of.
    split; intros (filename & Hn & Hb); exists filename; (split; [exact Hn|]).
    + destruct (basefile_of filename); congruence.
    + rewrite Hb. reflexivity.
  - intros filename _. apply basefile_of_spec.
Qed.
End ReadFilesFacts.

Section StringFacts.
Import HVSR.

Lemma append_cons (c : ascii) (a b : string) :
  String c a +:+ b = String c (a +:+ b).
Proof. reflexivity. Qed.

Lemma append_nil_l (b : string) : EmptyString +:+ b = b.
Proof. reflexivity. Qed.

Ltac norm_app := repeat (rewrite append_cons || rewrite append_nil_l).

Lemma append_assoc (a b c : string) : (a +:+ b) +:+ c = a +:+ (b +:+ c).
Proof. induction a as [|x a IH]; norm_app; [reflexivity | rewrite IH; reflexivity]. Qed.

Lemma append_nil_r (a : string) : a +:+ EmptyString = a.
Proof. induction a as [|x a IH]; norm_app; [reflexivity | rewrite IH; reflexivity]. Qed.

Lemma contains_app (c : ascii) (a b : string) :
  contains c (a +:+ b) = contains c a || contains c b.
Proof.
  induction a as [|x a IH]; norm_app; cbn [contains]; [reflexivity|].
  rewrite IH, orb_assoc. reflexivity.
Qed.

(** ** split *)

Lemma split_from_nonempty (sep : ascii) (s : string) :
  forall cur, exists first rest, split_from sep cur s = first :: rest.
Proof.
  induction s as [|c s IH]; intros cur; cbn; [eauto|].
  destruct (Ascii.eqb c sep); [eauto | apply IH].
Qed.

(** A text has a second field exactly when it has a separator. *)
Lemma split_second (sep : ascii) (s : string) :
  forall cur,
    returned (getitem (split_from sep cur s) 1) = contains sep s.
Proof.
  induction s as [|c s IH]; intros cur; cbn [split_from contains]; [reflexivity|].
  rewrite (Ascii.eqb_sym sep c).
  destruct (Ascii.eqb c sep); cbn [orb]; [|apply IH].
  destruct (split_from_nonempty sep s EmptyString) as (f & r & ->). reflexivity.
Qed.

(** The first field of a text runs up to its first separator. *)
Lemma split_from_app (sep : ascii) (a b : string) :
  contains sep a = false ->
  forall cur,
    split_from sep cur (a +:+ String sep b)
    = (cur +:+ a) :: split_from sep EmptyString b.
Proof.
  induction a as [|c a IH]; intros Ha cur; norm_app; cbn [split_from].
  - rewrite Ascii.eqb_refl, append_nil_r. reflexivity.
  - cbn [contains] in Ha. apply orb_false_elim in Ha as [Hc Ha].
    rewrite Ascii.eqb_sym in Hc. rewrite Hc, (IH Ha), append_assoc. reflexivity.
Qed.

(** ** repr *)

Lemma repr_char_dot (c : ascii) :
  contains "." (repr_char "'" c) = Ascii.eqb "." c
  /\ contains "." (repr_char dquote c) = Ascii.eqb "." c.
Proof.
  destruct c as [[] [] [] [] [] [] [] []]; split; vm_compute; reflexivity.
Qed.

Lemma repr_chars_dot (quote : ascii) (s : string) :
  quote = "'"%char \/ quote = dquote ->
  contains "." (repr_chars quote s) = contains "." s.
Proof.
  intros Hq. induction s as [|c s IH]; [reflexivity|].
  cbn [repr_chars contains]. rewrite contains_app, IH.
  destruct (repr_char_dot c) as [H1 H2].
  destruct Hq as [-> | ->]; [rewrite H1 | rewrite H2]; reflexivity.
Qed.

Lemma repr_str_dot (s : string) : contains "." (repr_str s) = contains "." s.
Proof.
  unfold repr_str.
  destruct (contains "'" s && negb (contains dquote s));
    cbn [contains]; rewrite contains_app, repr_chars_dot by tauto;
    cbn [contains]; rewrite orb_false_r; reflexivity.
Qed.

Lemma repr_chars_app (quote : ascii) (a b : string) :
  repr_chars quote (a +:+ b) = repr_chars quote a +:+ repr_chars quote b.
Proof.
  induction a as [|c a IH]; [reflexivity|].
  norm_app. cbn [repr_chars]. rewrite IH, append_assoc. reflexivity.
Qed.

Lemma repr_char_plain (c : ascii) :
  plain_char c = true ->
  repr_char "'" c = String c EmptyString
  /\ repr_char dquote c = String c EmptyString.
Proof.
  destruct c as [[] [] [] [] [] [] [] []]; intros E; try discriminate E;
    split; vm_compute; reflexivity.
Qed.

Lemma repr_chars_plain (quote : ascii) (s : string) :
  quote = "'"%char \/ quote = dquote ->
  plain s = true -> repr_chars quote s = s.
Proof.
  intros Hq. induction s as [|c s IH]; intros Hp; [reflexivity|].
  cbn [plain] in Hp. apply andb_prop in Hp as [Hc Hp].
  cbn [repr_chars]. rewrite (IH Hp).
  destruct (repr_char_plain c Hc) as [H1 H2].
  destruct Hq as [-> | ->]; [rewrite H1 | rewrite H2]; reflexivity.
Qed.

(** ** os.path.split *)

Lemma split_at_last_slash_app (p : string) :
  (split_at_last_slash p).1 +:+ (split_at_last_slash p).2 = p.
Proof.
  induction p as [|c p IH]; [reflexivity|].
  cbn [split_at_last_slash].
  destruct (contains "/" p).
  - destruct (split_at_last_slash p) as [head tail]. cbn [fst snd] in *.
    norm_app. rewrite IH. reflexivity.
  - destruct (Ascii.eqb c "/"); reflexivity.
Qed.

Lemma split_at_last_slash_none (p : string) :
  contains "/" p = false -> split_at_last_slash p = (EmptyString, p).
Proof.
  destruct p as [|c p]; [reflexivity|]. cbn [contains split_at_last_slash].
  intros E. apply orb_false_elim in E as [Hc Hp].
  rewrite Hp, Ascii.eqb_sym, Hc. reflexivity.
Qed.

Lemma rstrip_slash_dot (s : string) :
  contains "." (rstrip_slash s) = contains "." s.
Proof.
  induction s as [|c s IH]; [reflexivity|]. cbn [rstrip_slash].
  destruct (Ascii.eqb_spec c "/") as [->|Hc]; cbn [andb].
  - destruct (String.eqb_spec (rstrip_slash s) EmptyString) as [E|_].
    + rewrite E in IH. cbn [contains] in IH |- *. rewrite <- IH. reflexivity.
    + cbn [contains]. rewrite IH. reflexivity.
  - cbn [contains]. rewrite IH. reflexivity.
Qed.

Lemma path_split_dot (p : string) :
  contains "." (path_split p).1 || contains "." (path_split p).2 = contains "." p.
Proof.
  unfold path_split.
  pose proof (split_at_last_slash_app p) as E.
  destruct (split_at_last_slash p) as [head tail]. cbn [fst snd] in *.
  rewrite <- E, contains_app.
  destruct (String.eqb (rstrip_slash head) EmptyString);
    [reflexivity | rewrite rstrip_slash_dot; reflexivity].
Qed.

(** ** node_ID *)

Lemma node_ID_of_returned (file : string) :
  returned (node_ID_of file) = contains "." file.
Proof.
  unfold node_ID_of. pose proof (path_split_dot file) as E.
  destruct (path_split file) as [head tail]. cbn [fst snd] in E.
  unfold split. rewrite split_second. unfold str_pair.
  rewrite !contains_app, !repr_str_dot. cbn [contains Ascii.eqb].
  rewrite <- E. cbn. rewrite !orb_false_r. reflexivity.
Qed.

(** X18.  For a pattern [NET.STA.rest] without a slash, whose [NET] and
    [STA] have no dot and whose [STA] is made of printable characters other
    than quotes and backslashes, the node identifier the main loop derives
    is [STA]. *)
Theorem node_ID_of_is_the_station (net sta rest : string) :
  contains "/" (net +:+ "." +:+ sta +:+ "." +:+ rest) = false ->
  contains "." net = false -> contains "." sta = false -> plain sta = true ->
  node_ID_of (net +:+ "." +:+ sta +:+ "." +:+ rest) = Ret sta.
Proof.
  intros Hs Hn Hd Hp. unfold node_ID_of, path_split.
  rewrite (split_at_last_slash_none _ Hs). cbn [rstrip_slash String.eqb].
  unfold str_pair, repr_str at 2.
  set (file := net +:+ "." +:+ sta +:+ "." +:+ rest).
  set (quote := if contains "'" file && negb (contains dquote file)
                then dquote else "'"%char).
  assert (Hq : quote = "'"%char \/ quote = dquote).
  { unfold quote. destruct (_ && _); tauto. }
  unfold file. rewrite !repr_chars_app, (repr_chars_plain quote sta Hq Hp).
  assert (Edot : repr_chars quote "." = ".").
  { destruct Hq as [-> | ->]; reflexivity. }
  rewrite Edot.
  set (tail := repr_chars quote rest +:+ String quote EmptyString).
  assert (E : "(" +:+ repr_str "" +:+ ", "
              +:+ String quote
                    ((repr_chars quote net +:+ "." +:+ sta +:+ "."
                        +:+ repr_chars quote rest) +:+ String quote "")
              +:+ ")"
              = ("('', " +:+ String quote (repr_chars quote net))
                  +:+ String "." (sta +:+ String "." (tail +:+ ")"))).
  { unfold tail. change (repr_str "") with "''".
    repeat (rewrite append_cons || rewrite append_nil_l || rewrite append_assoc).
    reflexivity. }
  rewrite E. unfold split.
  rewrite split_from_app.
  - rewrite split_from_app by exact Hd. reflexivity.
  - norm_app. cbn [contains]. rewrite (repr_chars_dot quote net Hq), Hn.
    destruct Hq as [-> | ->]; reflexivity.
Qed.

(** X17.  The node identifier of a pattern can be derived exactly when the
    pattern has a dot; without one the main loop raises [IndexError] at the
    pattern, before its [try]. *)
Theorem node_ID_of_needs_a_dot (file : string) :
  returned (node_ID_of file) = contains "." file
  /\ (contains "." file = false -> node_ID_of file = Raise IndexError).
Proof.
  split; [apply node_ID_of_returned|].
  intros Hd. pose proof (node_ID_of_returned file) as Hr. rewrite Hd in Hr.
  unfold node_ID_of in *. destruct (path_split file) as [head tail].
  unfold getitem in *. destruct (_ !! 1); [discriminate | reflexivity].
Qed.
End StringFacts.

Section FrameFacts.
Import HVSR.
Variable P : event -> Prop.

Lemma only_ret {A} (a : A) : only P (mret a).
Proof. intros log. exists []. rewrite app_nil_r. split; [reflexivity | constructor]. Qed.

Lemma only_lift {A} (r : result A) : only P (lift r).
Proof. intros log. exists []. rewrite app_nil_r. split; [reflexivity | constructor]. Qed.

Lemma only_print (line : string) : P (Print line) -> only P (print line).
Proof. intros H log. exists [Print line]. split; [reflexivity | repeat constructor; exact H]. Qed.

Lemma only_perform (ext : Externals) (e : event) : P e -> only P (perform ext e).
Proof.
  intros H log. unfold perform. destruct (raises ext e log).
  - exists []. rewrite app_nil_r. split; [reflexivity | constructor].
  - exists [e]. split; [reflexivity | repeat constructor; exact H].
Qed.

Lemma only_read (ext : Externals) (wf : string) : only P (read ext wf).
Proof. intros log. exists []. rewrite app_nil_r. split; [reflexivity | constructor]. Qed.

Lemma only_bind {A B} (m : M A) (f : A -> M B) :
  only P m -> (forall a, only P (f a)) -> only P (m ≫= f).
Proof.
  intros Hm Hf log. unfold mbind, M_bind.
  destruct (Hm log) as (new & E & HP).
  destruct (m log) as [[a|e] log']; cbn [snd] in E; subst log'.
  - destruct (Hf a (log ++ new)) as (new' & E' & HP').
    exists (new ++ new'). rewrite E', app_assoc. split; [reflexivity|].
    apply Forall_app; split; assumption.
  - exists new. split; [reflexivity | exact HP].
Qed.

Lemma only_for_each {A} (xs : list A) (body : A -> M unit) :
  (forall x, only P (body x)) -> only P (for_each xs body).
Proof.
  intros Hb. induction xs as [|x xs IH]; cbn [for_each].
  - apply only_ret.
  - apply only_bind; [apply Hb | intros _; exact IH].
Qed.

Lemma only_try_except (m : M unit) : only P m -> only P (try_except m).
Proof. intros Hm log. exact (Hm log). Qed.
End FrameFacts.

Section ScriptFacts.
Import HVSR.
Variable ext : Externals.
Variable o : Options.

Lemma process_window_allowed (out node_ID wf station : string) (i : Q) :
  only (allowed o out) (process_window ext o out node_ID wf station i).
Proof.
  unfold process_window. cbn zeta.
  apply only_bind; [apply only_print; exact I | intros _].
  apply only_bind; [apply only_lift | intros text].
  apply only_bind; [apply only_perform; reflexivity | intros _].
  apply only_bind; [apply only_perform; exists node_ID; reflexivity | intros _].
  apply only_bind.
  { apply only_perform. exists "-hv", wf, node_ID. split; [reflexivity | left; reflexivity]. }
  intros _.
  apply only_bind; [apply only_print; exact I | intros _].
  apply only_bind.
  { apply only_perform. exists node_ID, station, (fmt_hv (utc_date ext i)), ".hv", ".hv".
    split; [reflexivity|]. split; [reflexivity | left; split; reflexivity]. }
  intros _.
  apply only_bind.
  { apply only_perform. exists node_ID, station, (fmt_hv (utc_date ext i)), ".log", ".log".
    split; [reflexivity|]. split; [reflexivity | right; left; split; reflexivity]. }
  intros _.
  apply only_bind; [|intros _; apply only_print; exact I].
  destruct (want_rotation o) eqn:Ew; [|apply only_ret].
  apply only_bind.
  { apply only_perform. exists "-rotate", wf, node_ID.
    split; [reflexivity | right; split; [reflexivity | exact Ew]]. }
  intros _. apply only_perform.
  exists node_ID, station, (fmt_hv (utc_date ext i)), ".hv", ".hv.grid".
  split; [reflexivity|]. split; [reflexivity|]. right; right. repeat split. exact Ew.
Qed.

Lemma run_HV_allowed (out node_ID wf : string) :
  only (allowed o out) (run_HV ext o out node_ID wf).
Proof.
  unfold run_HV.
  apply only_bind; [apply only_read | intros st].
  apply only_bind; [apply only_lift | intros tr]. cbn zeta.
  apply only_bind; [apply only_print; exact I | intros _].
  apply only_bind; [apply only_print; exact I | intros _].
  apply only_bind; [apply only_print; exact I | intros _].
  apply only_bind; [apply only_lift | intros n].
  apply only_bind; [apply only_print; exact I | intros _].
  apply only_bind; [apply only_lift | intros ws].
  apply only_for_each. intros w. apply process_window_allowed.
Qed.

Lemma main_loop_allowed (out : string) (files : list string) :
  only (allowed o out) (main_loop ext o out files).
Proof.
  unfold main_loop.
  apply only_bind; [|intros _; apply only_print; exact I].
  apply only_for_each. intros file. unfold process_file.
  apply only_bind; [apply only_lift | intros node_ID]. cbn zeta.
  apply only_bind; [apply only_print; exact I | intros _].
  apply only_try_except, run_HV_allowed.
Qed.

Lemma read_files_allowed (out : string) (listing : result (list string)) :
  only (allowed o out) (read_files listing).
Proof.
  unfold read_files.
  apply only_bind; [apply only_lift | intros names].
  apply only_bind; [|intros files; apply only_ret].
  intros log. rewrite read_files_loop_spec. cbn [snd].
  eexists. split; [reflexivity|].
  apply Forall_forall. intros e He. apply list_elem_of_fmap in He as (name & -> & _).
  unfold listed_line. destruct (basefile_of name); exact I.
Qed.

(** X20.  Whatever the world does and whatever raises, the script only
    adds to what has happened, and apart from printing it writes no file
    but [geopsy-hv-auto.params], makes no folder but the output folder
    followed by a node identifier, runs no program but [geopsy-hv] with the
    parameter file and that folder, in the mode [-hv], or [-rotate] when
    rotation was asked for and never otherwise, and renames nothing but the
    [.hv] and [.log] file of a station in a node folder, to a name with a
    time stamp in the same folder. *)
Theorem script_touches_only (current_folder : string) (listing : result (list string))
    (log : list event) :
  exists new,
    (script ext o current_folder listing log).2 = log ++ new
    /\ Forall (allowed o (path_join current_folder "Analysed_Skience25/")) new.
Proof.
  unfold script. cbn zeta.
  apply (only_bind (allowed o _)); [apply read_files_allowed|].
  intros files. apply main_loop_allowed.
Qed.

(** The main loop returns exactly when the node identifier of every pattern
    can be derived. *)
Lemma for_each_process_file (out : string) (files : list string) :
  forall log,
    (for_each files (process_file ext o out) log).1 = Ret tt
    <-> Forall (fun f => returned (node_ID_of f) = true) files.
Proof.
  induction files as [|f files IH]; intros log.
  - split; [constructor | reflexivity].
  - change (for_each (f :: files) (process_file ext o out) log)
      with (match process_file ext o out f log with
            | (Ret _, log') => for_each files (process_file ext o out) log'
            | (Raise e, log') => (Raise e, log')
            end).
    destruct (node_ID_of f) as [node_ID|e] eqn:En.
    + rewrite (process_file_attempt ext o out f log) by (rewrite En; reflexivity).
      rewrite IH. split.
      * intros Hf. constructor; [rewrite En; reflexivity | exact Hf].
      * intros Hf. inversion Hf; assumption.
    + unfold process_file. rewrite En.
      change ((lift (Raise e) ≫= _) log) with (@Raise unit e, log).
      split; [discriminate|]. intros Hf. inversion Hf as [|? ? Hr _]; subst.
      rewrite En in Hr. discriminate.
Qed.

Lemma for_each_process_file_raises (out : string) (files : list string) :
  forall log e,
    (for_each files (process_file ext o out) log).1 = Raise e -> e = IndexError.
Proof.
  induction files as [|f files IH]; intros log e; [discriminate|].
  change (for_each (f :: files) (process_file ext o out) log)
    with (match process_file ext o out f log with
          | (Ret _, log') => for_each files (process_file ext o out) log'
          | (Raise e, log') => (Raise e, log')
          end).
  destruct (node_ID_of f) as [node_ID|e'] eqn:En.
  - rewrite (process_file_attempt ext o out f log) by (rewrite En; reflexivity).
    apply IH.
  - unfold process_file. rewrite En.
    change ((lift (Raise e') ≫= _) log) with (@Raise unit e', log).
    cbn [fst]. intros E; injection E as <-.
    unfold node_ID_of in En. destruct (path_split f) as [head tail].
    unfold getitem in En. destruct (_ !! 1); [discriminate|]. congruence.
Qed.

(** X19.  Given the names of the data folder, the script comes to its end
    exactly when every pattern has a dot, that is when every listed name of
    fourteen characters or more has a dot elsewhere than at its fourteenth
    character; it has then printed [Job Done] last, whatever [run_HV]
    raised.  Otherwise it raises [IndexError]. *)
Theorem script_reaches_job_done (current_folder : string) (names : list string)
    (log : list event) :
  let out := script ext o current_folder (Ret names) log in
  (out.1 = Ret tt <-> Forall (fun name => dotted_pattern name = true) names)
  /\ (out.1 = Ret tt -> last out.2 = Some (Print "Job Done"))
  /\ (out.1 = Ret tt \/ out.1 = Raise IndexError).
Proof.
  cbn zeta. unfold script. cbn zeta.
  set (folder := path_join current_folder "Analysed_Skience25/").
  change ((read_files (Ret names) ≫= fun files => main_loop ext o folder files) log)
    with (match read_files (Ret names) log with
          | (Ret files, log') => main_loop ext o folder files log'
          | (Raise e, log') => (Raise e, log')
          end).
  rewrite read_files_spec.
  set (files := unique (omap pattern_of names)).
  set (log1 := log ++ map listed_line names).
  unfold main_loop.
  change ((for_each files (process_file ext o folder) ≫= fun _ => print "Job Done") log1)
    with (match for_each files (process_file ext o folder) log1 with
          | (Ret _, log') => print "Job Done" log'
          | (Raise e, log') => (Raise e, log')
          end).
  pose proof (for_each_process_file folder files log1) as Hloop.
  assert (Hfiles : Forall (fun f => returned (node_ID_of f) = true) files
                   <-> Forall (fun name => dotted_pattern name = true) names).
  { rewrite !Forall_forall. unfold files. split.
    - intros Hf name Hn. unfold dotted_pattern.
      destruct (basefile_of name) as [basefile|e] eqn:Eb; [|reflexivity].
      rewrite <- node_ID_of_returned. apply Hf.
      apply elem_of_unique, list_elem_of_omap.
      exists name. split; [exact Hn|]. unfold pattern_of. rewrite Eb. reflexivity.
    - intros Hn f Hf. apply (proj1 (elem_of_unique _ _)) in Hf.
      apply list_elem_of_omap in Hf as (name & Hname & Ep).
      unfold pattern_of in Ep. specialize (Hn name Hname). unfold dotted_pattern in Hn.
      destruct (basefile_of name) as [basefile|e]; [|discriminate].
      injection Ep as ->. rewrite node_ID_of_returned. exact Hn. }
  rewrite <- Hfiles, <- Hloop.
  destruct (for_each files (process_file ext o folder) log1) as [[[]|e] log2] eqn:El;
    cbn [fst snd print].
  - split; [tauto|]. split; [intros _; apply last_snoc | left; reflexivity].
  - split; [tauto|]. split; [discriminate|]. right.
    f_equal. apply (for_each_process_file_raises folder files log1).
    rewrite El. reflexivity.
Qed.
End ScriptFacts.

Section FloorCeiling.
Local Open Scope Q_scope.

Lemma Qceiling_floor (q : Q) :
  (Qceiling q = Qfloor q \/ Qceiling q = Qfloor q + 1)%Z
  /\ (Qceiling q = Qfloor q <-> inject_Z (Qfloor q) == q).
Proof.
  pose proof (Qfloor_le q) as H1. pose proof (Qlt_floor q) as H2.
  pose proof (Qle_ceiling q) as H3. pose proof (Qceiling_lt q) as H4.
  assert (Hlo : (Qfloor q <= Qceiling q)%Z).
  { rewrite Zle_Qle. eapply Qle_trans; eassumption. }
  assert (Hhi : (Qceiling q - 1 < Qfloor q + 1)%Z).
  { rewrite Zlt_Qlt. eapply Qlt_trans; eassumption. }
  split; [lia|]. split.
  - intros E. rewrite E in H3. apply Qle_antisym; assumption.
  - intros E. rewrite <- E. rewrite Qceiling_Z, Qfloor_Z. reflexivity.
Qed.
End FloorCeiling.

Section RunFacts.
Import HVSR.
Local Open Scope Q_scope.
Variable ext : Externals.
Variable o : Options.
Variable output_folder : string.

Lemma only_any {A} (m : M A) (P : event -> Prop) :
  only P m -> forall log, exists new, (m log).2 = log ++ new.
Proof. intros Hm log. destruct (Hm log) as (new & E & _). eauto. Qed.

(** In a quiet world the windows add to the log, with one call in HV mode
    each. *)
Lemma for_each_windows_quiet_log (quiet : forall e l, raises ext e l = None)
    (node_ID wf station : string) (ws : list Q) (log : list event) :
  exists new,
    for_each ws (process_window ext o output_folder node_ID wf station) log
    = (Ret tt, log ++ new)
    /\ hv_calls new = replicate (length ws) wf.
Proof.
  destruct (for_each_windows_quiet ext o output_folder quiet node_ID wf station ws log)
    as (log' & E & Hc).
  destruct (only_for_each (allowed o output_folder) ws
              (process_window ext o output_folder node_ID wf station)
              (fun w => process_window_allowed ext o output_folder node_ID wf station w)
              log) as (new & En & _).
  rewrite E in En. cbn [snd] in En. subst log'.
  exists new. split; [exact E|].
  rewrite hv_calls_app in Hc. apply app_inv_head in Hc. exact Hc.
Qed.

Lemma run_HV_quiet_log (quiet : forall e l, raises ext e l = None)
    (node_ID wf : string) (log : list event) (tr : Trace) (others : list Trace) :
  obspy_read ext wf log = Ret (tr :: others) ->
  process_len o <> 0%Z ->
  exists ws n new,
    windows o tr = Ret ws
    /\ int_of_quotient (endtime tr - starttime tr) (process_len o) = Ret n
    /\ run_HV ext o output_folder node_ID wf log
       = (Ret tt,
          log ++ [Print ("station: " +:+ (network tr +:+ "_" +:+ station tr));
                  Print ("start: " +:+ utc_str ext (starttime tr));
                  Print ("end: " +:+ utc_str ext (endtime tr));
                  Print (announced n (process_len o))] ++ new)
    /\ hv_calls new = replicate (length ws) wf.
Proof.
  intros Hread Hp.
  assert (Hw : exists ws, windows o tr = Ret ws).
  { unfold windows, arange. destruct (Z.eqb_spec (process_len o) 0); [contradiction|].
    eexists; reflexivity. }
  destruct Hw as [ws Hw].
  assert (Hq : exists n, int_of_quotient (endtime tr - starttime tr) (process_len o) = Ret n).
  { unfold int_of_quotient. destruct (Z.eqb_spec (process_len o) 0); [contradiction|].
    eexists; reflexivity. }
  destruct Hq as [n Hq].
  set (head := [Print ("station: " +:+ (network tr +:+ "_" +:+ station tr));
                Print ("start: " +:+ utc_str ext (starttime tr));
                Print ("end: " +:+ utc_str ext (endtime tr));
                Print (announced n (process_len o))]).
  destruct (for_each_windows_quiet_log quiet node_ID wf
              (network tr +:+ "_" +:+ station tr) ws (log ++ head))
    as (new & E & Hc).
  exists ws, n, new. split; [exact Hw|]. split; [exact Hq|]. split; [|exact Hc].
  unfold run_HV.
  erewrite M_bind_ret; [|unfold read; rewrite Hread; reflexivity].
  erewrite M_bind_ret; [|reflexivity]. cbn zeta.
  erewrite M_bind_ret; [|reflexivity].
  erewrite M_bind_ret; [|reflexivity].
  erewrite M_bind_ret; [|reflexivity].
  erewrite M_bind_ret; [|unfold lift; rewrite Hq; reflexivity].
  erewrite M_bind_ret; [|reflexivity].
  erewrite M_bind_ret; [|unfold lift; rewrite Hw; reflexivity].
  rewrite <- !app_assoc. cbn [app].
  unfold head in E. rewrite <- app_assoc in E. cbn [app] in E. exact E.
Qed.

(** X21.  For a positive [process_len], a recording that does not end
    before it starts and a world in which nothing raises, [run_HV] announces
    the quotient of the length of the recording by [process_len] cut to an
    integer, and then runs the external tool once for each of its windows,
    of which there are the quotient rounded up: one more than announced
    unless the length is a multiple of [process_len].  The last window
    starts before the end of the recording and ends at it or after
    it.  Times are taken exactly. *)
Theorem run_HV_announces_floor_runs_ceiling (node_ID wf : string) (log : list event)
    (tr : Trace) (others : list Trace) :
  (0 < process_len o)%Z ->
  starttime tr <= endtime tr ->
  (forall e l, raises ext e l = None) ->
  obspy_read ext wf log = Ret (tr :: others) ->
  let q := (endtime tr - starttime tr) / inject_Z (process_len o) in
  exists ws log',
    windows o tr = Ret ws
    /\ run_HV ext o output_folder node_ID wf log = (Ret tt, log')
    /\ In (Print (announced (Qfloor q) (process_len o))) log'
    /\ Z.of_nat (length ws) = Qceiling q
    /\ length (hv_calls log') = (length (hv_calls log) + length ws)%nat
    /\ (Qceiling q = Qfloor q \/ Qceiling q = Qfloor q + 1)%Z
    /\ (Qceiling q = Qfloor q <-> inject_Z (Qfloor q) == q)
    /\ (forall w, last ws = Some w ->
          w < endtime tr /\ endtime tr <= w + inject_Z (process_len o)).
Proof.
  intros Hp Hse quiet Hread q.
  assert (Hpq : 0 < inject_Z (process_len o)).
  { change 0 with (inject_Z 0). rewrite <- Zlt_Qlt. exact Hp. }
  assert (Hq0 : 0 <= q).
  { unfold q. apply Qle_shift_div_l; [exact Hpq|].
    rewrite Qmult_0_l. unfold Qminus. rewrite <- Qle_minus_iff. exact Hse. }
  destruct (run_HV_quiet_log quiet node_ID wf log tr others Hread)
    as (ws & n & new & Hw & Hn & Hrun & Hc); [lia|].
  destruct (arange_items (starttime tr) (endtime tr) (process_len o))
    as (ws' & E & Hlen & Hk); [lia|].
  unfold windows in Hw. rewrite E in Hw. injection Hw as Hw. subst ws'.
  assert (En : n = Qfloor q).
  { unfold int_of_quotient in Hn.
    destruct (Z.eqb_spec (process_len o) 0); [lia|].
    fold q in Hn. rewrite (proj2 (Qle_bool_iff 0 q) Hq0) in Hn. congruence. }
  subst n.
  assert (Hlen' : Z.of_nat (length ws) = Qceiling q).
  { rewrite Hlen. apply Z2Nat.id. apply Qceiling_nonneg. exact Hq0. }
  exists ws, (log ++ [Print ("station: " +:+ (network tr +:+ "_" +:+ station tr));
                      Print ("start: " +:+ utc_str ext (starttime tr));
                      Print ("end: " +:+ utc_str ext (endtime tr));
                      Print (announced (Qfloor q) (process_len o))] ++ new).
  split; [exact E|]. split; [exact Hrun|]. split.
  { apply in_or_app. right. apply in_or_app. left. cbn. tauto. }
  split; [exact Hlen'|]. split.
  { rewrite !hv_calls_app, Hc, !length_app, length_replicate. cbn. lia. }
  destruct (Qceiling_floor q) as [H1 H2].
  split; [exact H1|]. split; [exact H2|].
  intros w Hl. rewrite last_lookup in Hl.
  pose proof (Hk _ _ Hl) as Ew.
  assert (Hpos : (0 < length ws)%nat).
  { destruct ws; [discriminate | cbn; lia]. }
  assert (Ek : inject_Z (Z.of_nat (Nat.pred (length ws))) == inject_Z (Qceiling q) - 1).
  { rewrite <- Hlen'. rewrite Nat2Z.inj_pred by lia.
    rewrite <- Z.sub_1_r. unfold Z.sub. rewrite inject_Z_plus. reflexivity. }
  rewrite Ek in Ew.
  pose proof (Qle_ceiling q) as C1. pose proof (Qceiling_lt q) as C2.
  unfold Z.sub in C2. rewrite inject_Z_plus in C2.
  change (inject_Z (-1)) with (-1) in C2.
  assert (Eq : endtime tr == starttime tr + q * inject_Z (process_len o)).
  { unfold q. field. intros Hz. rewrite Hz in Hpq. discriminate. }
  set (p := inject_Z (process_len o)) in *. set (c := inject_Z (Qceiling q)) in *.
  assert (C3 : c - 1 < q) by exact C2.
  rewrite Ew, Eq. split.
  - apply Qplus_lt_r. apply Qmult_lt_compat_r; [exact Hpq|]. lra.
  - assert (q * p <= c * p) by (apply Qmult_le_compat_r; [exact C1 | lra]).
    lra.
Qed.

(** X22.  With a [process_len] that is not positive, [run_HV] on a
    recording that does not end before it starts does nothing but print,
    whatever the world does: for 0 it raises [ZeroDivisionError] after three
    lines, for a negative number it returns after four, without a
    window. *)
Theorem run_HV_nonpositive_process_len (node_ID wf : string) (log : list event)
    (tr : Trace) (others : list Trace) :
  (process_len o <= 0)%Z ->
  starttime tr <= endtime tr ->
  obspy_read ext wf log = Ret (tr :: others) ->
  let out := run_HV ext o output_folder node_ID wf log in
  effects out.2 = effects log
  /\ (process_len o = 0%Z -> out.1 = Raise ZeroDivisionError)
  /\ ((process_len o < 0)%Z -> out.1 = Ret tt)
  /\ length out.2 = (length log + (if (process_len o =? 0)%Z then 3 else 4))%nat.
Proof.
  intros Hp Hse Hread. cbn zeta. unfold run_HV.
  erewrite M_bind_ret; [|unfold read; rewrite Hread; reflexivity].
  erewrite M_bind_ret; [|reflexivity]. cbn zeta.
  erewrite M_bind_ret; [|reflexivity].
  erewrite M_bind_ret; [|reflexivity].
  erewrite M_bind_ret; [|reflexivity].
  unfold int_of_quotient, windows, arange.
  destruct (Z.eqb_spec (process_len o) 0) as [E0|N0].
  - change ((lift (Raise ZeroDivisionError) ≫= _) ?l)
      with (@Raise unit ZeroDivisionError, l).
    cbn [fst snd]. unfold effects. rewrite !omap_app, !length_app. cbn.
    rewrite !app_nil_r. repeat split; try lia.
  - erewrite M_bind_ret; [|reflexivity].
    erewrite M_bind_ret; [|reflexivity].
    assert (Hz : Z.to_nat (Qceiling ((endtime tr - starttime tr)
                                       / inject_Z (process_len o))) = 0%nat).
    { assert (Hneg : 0 < - inject_Z (process_len o)).
      { rewrite <- inject_Z_opp. change 0 with (inject_Z 0). rewrite <- Zlt_Qlt. lia. }
      assert (Hx : 0 <= (endtime tr - starttime tr) / - inject_Z (process_len o)).
      { apply Qle_shift_div_l; [exact Hneg|].
        rewrite Qmult_0_l. unfold Qminus. rewrite <- Qle_minus_iff. exact Hse. }
      assert (Ex : (endtime tr - starttime tr) / inject_Z (process_len o)
                   == - ((endtime tr - starttime tr) / - inject_Z (process_len o))).
      { field. intros Hz. rewrite Hz in Hneg. discriminate. }
      assert (Hc : (Qceiling ((endtime tr - starttime tr)
                                / inject_Z (process_len o)) <= 0)%Z).
      { change 0%Z with (Qceiling 0). apply Qceiling_resp_le. rewrite Ex. lra. }
      lia. }
    rewrite Hz. erewrite M_bind_ret; [|reflexivity]. cbn [for_each].
    unfold mret, M_ret. cbn [fst snd]. unfold effects. rewrite !omap_app, !length_app. cbn.
    rewrite !app_nil_r. repeat split; try lia; try reflexivity.
Qed.
End RunFacts.

Section PathFacts.
Import HVSR.

Lemma ends_with_slash_cons (c : ascii) (s : string) :
  s <> EmptyString -> ends_with_slash (String c s) = ends_with_slash s.
Proof. destruct s; [congruence | reflexivity]. Qed.

Lemma ends_with_slash_app (a b : string) :
  b <> EmptyString -> ends_with_slash (a +:+ b) = ends_with_slash b.
Proof.
  intros Hb. induction a as [|c a IH]; [reflexivity|].
  rewrite append_cons, ends_with_slash_cons; [exact IH|].
  destruct a; [exact Hb | discriminate].
Qed.

Lemma output_folder_ends_with_slash (current_folder : string) :
  ends_with_slash (path_join current_folder "Analysed_Skience25/") = true
  /\ path_join current_folder "Analysed_Skience25/" <> EmptyString.
Proof.
  unfold path_join.
  change (starts_with_slash "Analysed_Skience25/") with false. cbn iota.
  destruct (String.eqb current_folder EmptyString || ends_with_slash current_folder).
  - split; [rewrite ends_with_slash_app by discriminate; reflexivity|].
    destruct current_folder; discriminate.
  - split; [rewrite !ends_with_slash_app by discriminate; reflexivity|].
    destruct current_folder; discriminate.
Qed.

Lemma path_join_after_slash (folder node_ID : string) :
  ends_with_slash folder = true -> starts_with_slash node_ID = false ->
  path_join folder node_ID = folder +:+ node_ID.
Proof.
  intros He Hs. unfold path_join. rewrite Hs, He, orb_true_r. reflexivity.
Qed.
End PathFacts.

Section WindowEvents.
Import HVSR.
Variable ext : Externals.
Variable o : Options.
Hypothesis quiet : forall e log, raises ext e log = None.

Ltac run_quietly :=
  first [ apply (perform_quiet ext quiet)
        | erewrite M_bind_ret; [|run_quietly]; run_quietly
        | reflexivity ].

(** What a window does to a quiet world, in order. *)
Lemma process_window_events (out node_ID wf station : string) (i : Q)
    (log : list event) :
  exists text,
    format get_paramString
      (format_kwargs o (fmt_param (utc_date ext i))
         (fmt_param (utc_date ext (i + inject_Z (process_len o))%Q)))
    = Ret text
    /\ process_window ext o out node_ID wf station i log
       = (Ret tt,
          log ++ [Print (utc_str ext i);
                  WriteFile "geopsy-hv-auto.params" text;
                  MakeDirs (out +:+ node_ID);
                  Call ["geopsy-hv"; "-hv"; wf; "-param"; "geopsy-hv-auto.params";
                        "-o"; path_join out node_ID];
                  Print (node_ID +:+ " " +:+ station);
                  Renames
                    (path_join out (node_ID +:+ "/" +:+ station +:+ ".hv"))
                    (path_join out
                       (node_ID +:+ "/" +:+ station +:+ "."
                          +:+ fmt_hv (utc_date ext i) +:+ ".hv"));
                  Renames
                    (path_join out (node_ID +:+ "/" +:+ station +:+ ".log"))
                    (path_join out
                       (node_ID +:+ "/" +:+ station +:+ "."
                          +:+ fmt_hv (utc_date ext i) +:+ ".log"))]
              ++ (if want_rotation o then
                    [Call ["geopsy-hv"; "-rotate"; wf; "-param";
                           "geopsy-hv-auto.params"; "-o"; path_join out node_ID];
                     Renames
                       (path_join out (node_ID +:+ "/" +:+ station +:+ ".hv"))
                       (path_join out
                          (node_ID +:+ "/" +:+ station +:+ "."
                             +:+ fmt_hv (utc_date ext i) +:+ ".hv.grid"))]
                  else [])
              ++ [Print "**********************************"]).
Proof.
  destruct (format_kwargs_total o
              (fmt_param (utc_date ext i))
              (fmt_param (utc_date ext (i + inject_Z (process_len o))%Q)))
    as [text E].
  exists text. split; [exact E|].
  unfold process_window. cbn zeta. rewrite E.
  destruct (want_rotation o).
  - etransitivity; [run_quietly|]. unfold print. rewrite <- !app_assoc. reflexivity.
  - etransitivity; [run_quietly|]. unfold print. rewrite <- !app_assoc. reflexivity.
Qed.
End WindowEvents.

Section FormatFacts.
Import HVSR.

Lemma format_kwargs_fields (o : Options) (tStart tEnd : string) (f : string) :
  is_Some (format_kwargs o tStart tEnd !! f) <-> In f (fields get_paramString).
Proof.
  split.
  - intros [v Hv]. unfold format_kwargs in Hv.
    apply elem_of_list_to_map_2 in Hv.
    repeat (apply elem_of_cons in Hv as [Hv|Hv];
            [injection Hv as -> _; vm_compute; tauto|]).
    inversion Hv.
  - intros Hf. vm_compute in Hf.
    repeat (destruct Hf as [<-|Hf]; [vm_compute; eexists; reflexivity|]).
    contradiction.
Qed.

(** X24.  The call of [format] in [run_HV] gives a value to every field of
    the template and to nothing else, whatever the options and the times
    are: it returns, without a [KeyError]. *)
Theorem run_HV_format_supplies_fields (o : Options) (tStart tEnd : string) :
  (exists text,
      format get_paramString (format_kwargs o tStart tEnd) = Ret text)
  /\ (forall f, is_Some (format_kwargs o tStart tEnd !! f)
                <-> In f (fields get_paramString)).
Proof.
  split; [apply format_kwargs_total | apply format_kwargs_fields].
Qed.
End FormatFacts.

Section FolderFacts.
Import HVSR.

Lemma list_ascii_app (a b : string) :
  list_ascii_of_string (a +:+ b) = list_ascii_of_string a ++ list_ascii_of_string b.
Proof.
  induction a as [|c a IH]; [reflexivity|].
  rewrite append_cons. cbn [list_ascii_of_string app]. rewrite IH. reflexivity.
Qed.

Lemma string_of_list_app (l1 l2 : list ascii) :
  string_of_list_ascii (l1 ++ l2)
  = string_of_list_ascii l1 +:+ string_of_list_ascii l2.
Proof.
  induction l1 as [|c l1 IH]; [reflexivity|].
  cbn [app string_of_list_ascii]. rewrite IH. reflexivity.
Qed.

Lemma basefile_of_component (pre post : string) (c : ascii) :
  String.length pre = 13 ->
  basefile_of (pre +:+ String c post) = Ret (pre +:+ String "*" post).
Proof.
  intros Hl. unfold basefile_of, setitem.
  rewrite list_ascii_app, length_app, length_list_ascii, Hl.
  cbn [list_ascii_of_string length].
  destruct (decide (13 < 13 + S (length (list_ascii_of_string post)))); [|lia].
  rewrite bind_ret. f_equal.
  replace 13 with (length (list_ascii_of_string pre) + 0)
    by (rewrite length_list_ascii; lia).
  rewrite insert_app_r. cbn. rewrite string_of_list_app. cbn [string_of_list_ascii].
  rewrite !string_of_list_ascii_of_string. reflexivity.
Qed.

Lemma NoDup_all_same {A} (l : list A) (x : A) :
  NoDup l -> l <> [] -> (forall y, y ∈ l -> y = x) -> l = [x].
Proof.
  intros N Hne Hall. destruct l as [|a [|b l]]; [congruence| |].
  - rewrite (Hall a) by left. reflexivity.
  - exfalso. inversion N as [|? ? Hn _]; subst. apply Hn.
    rewrite (Hall a) by left. rewrite <- (Hall b) by (right; left). left.
Qed.

(** X16.  Names that differ in their fourteenth character only, as the
    files of the components of one recording do, give one pattern:
    [read_files] prints each of them and returns the single pattern with a
    star in that place. *)
Theorem read_files_merges_components (pre post : string) (names : list string)
    (log : list event) :
  String.length pre = 13 ->
  names <> [] ->
  Forall (fun name => exists c, name = pre +:+ String c post) names ->
  read_files (Ret names) log
  = (Ret [pre +:+ String "*" post], log ++ map Print names).
Proof.
  intros Hl Hne Hall. rewrite read_files_spec. f_equal.
  - f_equal. destruct (unique_spec (omap pattern_of names)) as (_ & N & Hin).
    apply NoDup_all_same; [exact N | |].
    + destruct names as [|name names]; [congruence|].
      inversion Hall as [|? ? [c ->] _]; subst.
      intros E. assert (Hx : (pre +:+ String "*" post) ∈ unique (omap pattern_of
                               ((pre +:+ String c post) :: names))).
      { apply Hin. cbn [omap list_omap]. unfold pattern_of at 1.
        rewrite (basefile_of_component pre post c Hl). left. }
      rewrite E in Hx. inversion Hx.
    + intros y Hy. apply Hin in Hy. apply list_elem_of_omap in Hy as (name & Hn & Ep).
      rewrite Forall_forall in Hall. destruct (Hall name Hn) as [c ->].
      unfold pattern_of in Ep. rewrite (basefile_of_component pre post c Hl) in Ep.
      congruence.
  - f_equal. apply map_ext_in. intros name Hn.
    rewrite Forall_forall in Hall. apply list_elem_of_In in Hn.
    destruct (Hall name Hn) as [c ->].
    unfold listed_line. rewrite (basefile_of_component pre post c Hl). reflexivity.
Qed.

Lemma starts_with_slash_app (a b : string) :
  a <> EmptyString -> starts_with_slash (a +:+ b) = starts_with_slash a.
Proof. destruct a; [congruence | reflexivity]. Qed.

(** X23.  The output folder of the script ends in a slash, so for a node
    identifier that is not empty and does not start with a slash, the
    folder made for the node ([output_folder + node_ID]) is the folder the
    external tool is told to write to and the folder of every file that is
    renamed.  In a world where nothing raises a window does, in this
    order: print the time, write the parameter file, make the folder, run
    the tool in HV mode, print the node and the station, rename the [.hv]
    and the [.log] file of the station to names with the time stamp; then,
    when rotation was asked for, run the tool in rotate mode and rename its
    [.hv] file to [.hv.grid]; and print a line of stars. *)
Theorem process_window_in_node_folder (ext : Externals) (o : Options)
    (current_folder node_ID wf station : string) (i : Q) (log : list event) :
  (forall e l, raises ext e l = None) ->
  node_ID <> EmptyString ->
  starts_with_slash node_ID = false ->
  let out := path_join current_folder "Analysed_Skience25/" in
  exists text,
    format get_paramString
      (format_kwargs o (fmt_param (utc_date ext i))
         (fmt_param (utc_date ext (i + inject_Z (process_len o))%Q)))
    = Ret text
    /\ process_window ext o out node_ID wf station i log
       = (Ret tt,
          log ++ window_events o (out +:+ node_ID) wf node_ID station
                   (utc_str ext i) (fmt_hv (utc_date ext i)) text).
Proof.
  intros quiet Hne Hs out.
  destruct (process_window_events ext o quiet out node_ID wf station i log)
    as (text & E & Hrun).
  exists text. split; [exact E|]. rewrite Hrun. unfold window_events.
  destruct (output_folder_ends_with_slash current_folder) as [He _]. fold out in He.
  assert (J : forall rest, path_join out (node_ID +:+ rest)
                           = (out +:+ node_ID) +:+ rest).
  { intros rest. rewrite path_join_after_slash, append_assoc; [reflexivity | exact He|].
    rewrite starts_with_slash_app by exact Hne. exact Hs. }
  rewrite !J, (path_join_after_slash out node_ID He Hs). reflexivity.
Qed.
End FolderFacts.

Section StampFacts.
Import HVSR.

Lemma length_append (a b : string) :
  String.length (a +:+ b) = String.length a + String.length b.
Proof.
  induction a as [|c a IH]; [reflexivity|].
  rewrite append_cons. cbn [String.length]. rewrite IH. reflexivity.
Qed.

(** Two texts that end in ends of one length are equal part by part. *)
Lemma append_inj_r (a : string) :
  forall a' b b',
    String.length b = String.length b' ->
    a +:+ b = a' +:+ b' -> a = a' /\ b = b'.
Proof.
  induction a as [|c a IH]; intros [|c' a'] b b' Hl E.
  - split; [reflexivity | exact E].
  - exfalso. rewrite append_nil_l in E. subst b.
    rewrite length_append in Hl. cbn [String.length] in Hl. lia.
  - exfalso. rewrite append_nil_l in E. subst b'.
    rewrite length_append in Hl. cbn [String.length] in Hl. lia.
  - rewrite !append_cons in E. injection E as -> E.
    destruct (IH a' b b' Hl E) as [-> ->]. split; reflexivity.
Qed.

Lemma append_inj_l (a : string) :
  forall a' b b',
    String.length a = String.length a' ->
    a +:+ b = a' +:+ b' -> a = a' /\ b = b'.
Proof.
  induction a as [|c a IH]; intros [|c' a'] b b' Hl E; try discriminate Hl.
  - split; [reflexivity | exact E].
  - rewrite !append_cons in E. injection E as -> E.
    cbn [String.length] in Hl.
    destruct (IH a' b b' ltac:(lia) E) as [-> ->]. split; reflexivity.
Qed.

Lemma str_int_inj (z z' : Z) : str_int z = str_int z' -> z = z'.
Proof.
  unfold str_int. intros E. apply DecimalZ.to_int_inj.
  assert (N : forall z, Z.to_int z <> Decimal.Pos Decimal.Nil
                        /\ Z.to_int z <> Decimal.Neg Decimal.Nil).
  { intros [|p|p]; cbn; split; try discriminate;
      intros Hp; injection Hp as Hp;
      exact (DecimalPos.Unsigned.to_uint_nonnil p Hp). }
  pose proof (NilZero.isi (Z.to_int z) (proj1 (N z)) (proj2 (N z))) as H1.
  pose proof (NilZero.isi (Z.to_int z') (proj1 (N z')) (proj2 (N z'))) as H2.
  rewrite E in H1. congruence.
Qed.

Lemma str_nat_inj (n m : nat) : str_nat n = str_nat m -> n = m.
Proof. unfold str_nat. intros E. apply str_int_inj in E. lia. Qed.

Lemma pad2_two (n : nat) : n < 100 -> String.length (pad2 n) = 2.
Proof.
  intros Hn.
  assert (A : forallb (fun k => Nat.eqb (String.length (pad2 k)) 2) (seq 0 100) = true)
    by (vm_compute; reflexivity).
  rewrite forallb_forall in A. apply Nat.eqb_eq. apply A. apply in_seq. lia.
Qed.

Lemma pad2_inj (n m : nat) : n < 100 -> m < 100 -> pad2 n = pad2 m -> n = m.
Proof.
  intros Hn Hm E.
  assert (A : forallb (fun k => forallb (fun l =>
                implb (String.eqb (pad2 k) (pad2 l)) (Nat.eqb k l)) (seq 0 100))
                (seq 0 100) = true)
    by (vm_compute; reflexivity).
  rewrite forallb_forall in A. specialize (A n ltac:(apply in_seq; lia)).
  rewrite forallb_forall in A. specialize (A m ltac:(apply in_seq; lia)).
  rewrite E, String.eqb_refl in A. cbn [implb] in A. apply Nat.eqb_eq, A.
Qed.

Lemma fmt_hv_inj_lemma (d d' : Date) :
  two_digits d = true -> two_digits d' = true ->
  fmt_hv d = fmt_hv d' -> d = d'.
Proof.
  unfold two_digits. intros V V' E.
  repeat (apply andb_prop in V as [V ?]). repeat (apply andb_prop in V' as [V' ?]).
  repeat match goal with H : Nat.ltb _ _ = true |- _ => apply Nat.ltb_lt in H end.
  unfold fmt_hv in E.
  apply append_inj_r in E as [Ey E];
    [|rewrite !length_append, !pad2_two by assumption; reflexivity].
  apply append_inj_l in E as [Emo E]; [|rewrite !pad2_two by assumption; reflexivity].
  apply append_inj_l in E as [Eda E]; [|rewrite !pad2_two by assumption; reflexivity].
  apply append_inj_l in E as [Eho E]; [|rewrite !pad2_two by assumption; reflexivity].
  apply append_inj_l in E as [Emi Ese]; [|rewrite !pad2_two by assumption; reflexivity].
  apply str_nat_inj in Ey. apply pad2_inj in Emo, Eda, Eho, Emi, Ese; try assumption.
  destruct d, d'. cbn in *. congruence.
Qed.

(** X25.  The time stamp in the names of the files of a window tells the
    window: two dates whose month, day, hour, minute and second have no
    more than two digits and that differ in a field have different stamps,
    and different texts in the parameter file, which are the stamp followed
    by [.00].  So the files of windows of different dates get different
    names. *)
Theorem fmt_hv_tells_dates_apart (d d' : Date) :
  two_digits d = true -> two_digits d' = true ->
  (fmt_hv d = fmt_hv d' -> d = d')
  /\ (fmt_param d = fmt_param d' -> d = d')
  /\ fmt_param d = fmt_hv d +:+ ".00".
Proof.
  intros V V'.
  assert (P : forall x, fmt_param x = fmt_hv x +:+ ".00").
  { intros x. unfold fmt_param, fmt_hv. rewrite !append_assoc. reflexivity. }
  split; [exact (fmt_hv_inj_lemma d d' V V')|]. split; [|apply P].
  rewrite !P. intros E. apply append_inj_r in E as [E _]; [|reflexivity].
  exact (fmt_hv_inj_lemma d d' V V' E).
Qed.
End StampFacts.

(** ** Examples *)

(** The first two hours of 1 March 2025. *)
Lemma fmt_hv_tells_dates_apart_witness :
  HVSR.fmt_hv (HVSR.mkDate 2025 3 1 0 0 0) = "20250301000000"
  /\ HVSR.fmt_param (HVSR.mkDate 2025 3 1 1 0 0) = "20250301010000.00"
  /\ (HVSR.fmt_hv (HVSR.mkDate 2025 3 1 0 0 0)
      = HVSR.fmt_hv (HVSR.mkDate 2025 3 1 1 0 0) ->
      HVSR.mkDate 2025 3 1 0 0 0 = HVSR.mkDate 2025 3 1 1 0 0).
Proof.
  split; [reflexivity|]. split; [reflexivity|].
  apply (fmt_hv_tells_dates_apart (HVSR.mkDate 2025 3 1 0 0 0)
           (HVSR.mkDate 2025 3 1 1 0 0)); reflexivity.
Defined.

(** The three components of one recording of station UCCS. *)
Lemma read_files_merges_components_witness :
  (HVSR.read_files (Ret component_files) []).1 = Ret ["BE.UCCS.00.HH*.2025.060"].
Proof.
  rewrite (read_files_merges_components "BE.UCCS.00.HH" ".2025.060"
             component_files []).
  - reflexivity.
  - reflexivity.
  - discriminate.
  - repeat constructor; eexists; reflexivity.
Defined.

(** The pattern of the recordings of station UCCS. *)
Lemma node_ID_of_is_the_station_witness :
  HVSR.node_ID_of "BE.UCCS.00.HH*.2025.060" = Ret "UCCS".
Proof.
  apply (node_ID_of_is_the_station "BE" "UCCS" "00.HH*.2025.060"); reflexivity.
Defined.

(** A recording of two hours and a half with the default options: two files
    are announced, and three windows are run. *)
Lemma run_HV_announces_floor_runs_ceiling_witness :
  exists log',
    HVSR.run_HV (quiet_world 9000) HVSR.default_options
      "/data/Analysed_Skience25/" "UCCS" "Raw_Data/BE.UCCS.00.HH*.2025.060" []
    = (Ret tt, log')
    /\ In (HVSR.Print "We get 2 .hv files of 3600s length out of stream") log'
    /\ length (hv_calls log') = 3.
Proof.
  destruct (run_HV_announces_floor_runs_ceiling (quiet_world 9000)
              HVSR.default_options "/data/Analysed_Skience25/" "UCCS"
              "Raw_Data/BE.UCCS.00.HH*.2025.060" []
              (HVSR.mkTrace "BE" "UCCS" 0 9000) [])
    as (ws & log' & Hw & Hrun & Hin & Hlen & Hcalls & _).
  - reflexivity.
  - discriminate.
  - reflexivity.
  - reflexivity.
  - exists log'. split; [exact Hrun|]. split; [exact Hin|].
    rewrite Hcalls. cbn [hv_calls omap list_omap length].
    assert (H3 : Z.of_nat (length ws) = 3%Z) by (rewrite Hlen; reflexivity).
    lia.
Defined.

(** The default options with a [process_len] of 0, on a recording of two
    hours: three lines are printed and nothing else is done. *)
Lemma run_HV_nonpositive_process_len_witness :
  let out := HVSR.run_HV (quiet_world 7200) (options_with 0)
               "/data/Analysed_Skience25/" "UCCS"
               "Raw_Data/BE.UCCS.00.HH*.2025.060" [] in
  out.1 = Raise ZeroDivisionError /\ effects out.2 = [] /\ length out.2 = 3.
Proof.
  cbv zeta.
  destruct (run_HV_nonpositive_process_len (quiet_world 7200) (options_with 0)
              "/data/Analysed_Skience25/" "UCCS"
              "Raw_Data/BE.UCCS.00.HH*.2025.060" []
              (HVSR.mkTrace "BE" "UCCS" 0 7200) [])
    as (He & H0 & _ & Hl).
  - discriminate.
  - discriminate.
  - reflexivity.
  - split; [apply H0; reflexivity|]. split; [exact He | exact Hl].
Defined.

(** The first window of a recording of station UCCS, run from the folder
    [/data]: every path is in [/data/Analysed_Skience25/UCCS]. *)
Lemma process_window_in_node_folder_witness :
  exists text,
    (HVSR.process_window (quiet_world 7200) HVSR.default_options
       "/data/Analysed_Skience25/" "UCCS" "Raw_Data/BE.UCCS.00.HH*.2025.060"
       "BE_UCCS" 0 []).2
    = window_events HVSR.default_options "/data/Analysed_Skience25/UCCS"
        "Raw_Data/BE.UCCS.00.HH*.2025.060" "UCCS" "BE_UCCS"
        "2025-03-01T+0" "20250301000000" text.
Proof.
  destruct (process_window_in_node_folder (quiet_world 7200)
              HVSR.default_options "/data" "UCCS"
              "Raw_Data/BE.UCCS.00.HH*.2025.060" "BE_UCCS" 0 [])
    as (text & _ & Hrun).
  - reflexivity.
  - discriminate.
  - reflexivity.
  - exists text.
    change (HVSR.path_join "/data" "Analysed_Skience25/")
      with "/data/Analysed_Skience25/" in Hrun.
    rewrite Hrun. reflexivity.
Defined.
